(** * SheetMind sidebar: plan execution and reversal log

    A shallow embedding of the plan-execution core of the SheetMind
    Google Sheets sidebar (the [App] component of the frontend, the
    types of [types/api.ts] and the undo control of [MessageArea]):

    - [buildUndoInfo]: derives the reversal log of a list of steps;
    - [executeSheetAction], [undoSheetActionsGAS]: the two bridges to the
      Apps Script host ([google.script.run]);
    - [executeSteps]: the sequential, fail-fast step loop;
    - [handleResponse]: the part of [handleSend] that turns a chat
      response into a message and runs its steps;
    - [handleUndo]: the handler of the Undo control.

    React state updates [setMessages(prev => ...)] are state passing on
    the [messages] component of [AppState.t]; an [await]ed host call is a
    function on the host's state.  In the traces of [run] each handler
    runs to its end before the next event is handled; the pages of
    [pageRun] take [handleUndo] await by await, so that a click can fall
    between its guard and its write of the flag.  The analytics calls
    ([track...]),
    the list of sheets shown in the header ([getAllSheets], [setSheets])
    and the pause between two steps do not act on the messages and are
    left out. *)

From stdpp Require Import base decidable option list strings.

Local Open Scope string_scope.
Local Open Scope list_scope.

(** ** Data model ([types/api.ts]) *)

Module ActionKind.
(** The string literal union of [SheetAction.action]. *)
Inductive t : Set :=
| filter | sort | highlight | setValue | insertColumn
| createSheet | setFormula | setValues | autoFillDown
| formatRange | readRange.

#[global] Instance eq_dec : EqDecision t.
Proof. solve_decision. Defined.
End ActionKind.

(** A cell of [values?: unknown[][]]. *)
Inductive CellValue : Set :=
| VNum (n : Z)
| VStr (s : string)
| VBool (b : bool)
| VNull.

Module SheetAction.
Record t : Set := mk {
  action : ActionKind.t;
  column : option string;
  criteria : option string;
  ascending : option bool;
  range : option string;
  color : option string;
  cell : option string;
  value : option string;
  after : option string;
  header : option string;
  name : option string;
  sheet : option string;
  formula : option string;
  fillDown : option bool;
  values : option (list (list CellValue));
  sourceCell : option string;
  lastRow : option Z;
  bold : option bool;
  background : option string;
  fontColor : option string
}.
End SheetAction.

Module StepAction.
Record t : Set := mk {
  step : nat;
  description : string;
  action : SheetAction.t;
  formula : option string;
  about : option string
}.
End StepAction.

Module CellRef.
(** An entry of [UndoInfo.cellsToClear]. *)
Record t : Set := mk { sheet : string; range : string }.

#[global] Instance eq_dec : EqDecision t.
Proof. solve_decision. Defined.
End CellRef.

Module UndoInfo.
Record t : Set := mk {
  sheetsToDelete : list string;
  cellsToClear : list CellRef.t
}.

#[global] Instance eq_dec : EqDecision t.
Proof. solve_decision. Defined.

Definition empty : t := mk [] [].
End UndoInfo.

(** ** JavaScript helpers *)

(** Truthiness of an optional string property: defined and not empty. *)
Definition truthy (o : option string) : bool :=
  match o with
  | Some s => negb (String.eqb s "")
  | None => false
  end.

(** The string held by a truthy optional property. *)
Definition str (o : option string) : string := default "" o.

(** [Array.prototype.includes] on an array of strings. *)
Definition includes (l : list string) (s : string) : bool :=
  bool_decide (s ∈ l).

(** [s.startsWith(p)]. *)
Definition startsWith (s p : string) : bool := String.prefix p s.

Definition isKind (k : ActionKind.t) (a : SheetAction.t) : bool :=
  bool_decide (SheetAction.action a = k).

(** ** The reversal-log planner ([buildUndoInfo]) *)

(** One iteration of the [for (const step of steps)] loop, on the two
    arrays built so far. *)
Definition undoStep (u : UndoInfo.t) (step : StepAction.t) : UndoInfo.t :=
  let action := StepAction.action step in
  let sheetsToDelete := UndoInfo.sheetsToDelete u in
  let cellsToClear := UndoInfo.cellsToClear u in
  if isKind ActionKind.createSheet action && truthy (SheetAction.name action) then
    UndoInfo.mk (sheetsToDelete ++ [str (SheetAction.name action)]) cellsToClear
  else if isKind ActionKind.setFormula action
          && truthy (SheetAction.sheet action) && truthy (SheetAction.cell action) then
    if negb (includes sheetsToDelete (str (SheetAction.sheet action))) then
      UndoInfo.mk sheetsToDelete
        (cellsToClear ++ [CellRef.mk (str (SheetAction.sheet action))
                                     (str (SheetAction.cell action))])
    else u
  else if isKind ActionKind.setValues action
          && truthy (SheetAction.sheet action) && truthy (SheetAction.range action) then
    if negb (includes sheetsToDelete (str (SheetAction.sheet action))) then
      UndoInfo.mk sheetsToDelete
        (cellsToClear ++ [CellRef.mk (str (SheetAction.sheet action))
                                     (str (SheetAction.range action))])
    else u
  else u.

Definition buildUndoInfo (steps : list StepAction.t) : UndoInfo.t :=
  fold_left undoStep steps UndoInfo.empty.

(** ** Messages and their steps *)

Module Status.
(** The values taken by the [_status] property of a step. *)
Inductive t : Set := pending | executing | done | error.

#[global] Instance eq_dec : EqDecision t.
Proof. solve_decision. Defined.
End Status.

Module StepWithStatus.
(** [interface StepWithStatus extends StepAction]: a step of a message,
    with its runtime status and result text. *)
Record t : Set := mk {
  base : StepAction.t;
  _status : option Status.t;
  _result : option string
}.

(** [{ ...s, _status: status }] *)
Definition setStatus (status : Status.t) (s : t) : t :=
  mk (base s) (Some status) (_result s).

(** [{ ...s, _status: status, _result: result }] *)
Definition setOutcome (status : Status.t) (result : string) (s : t) : t :=
  mk (base s) (Some status) (Some result).

(** Status shown for a step: [step._status || "pending"]. *)
Definition shown (s : t) : Status.t := default Status.pending (_status s).
End StepWithStatus.

Module Role.
Inductive t : Set := user | assistant.
End Role.

Module Message.
(** The properties of [Message] that the handlers below read or write;
    the display-only ones (sources, thinking, verification, ...) are
    left out. *)
Record t : Set := mk {
  id : string;
  role : Role.t;
  content : string;
  steps : option (list StepWithStatus.t);
  undoInfo : option UndoInfo.t;
  undone : option bool
}.

(** [{ ...msg, steps }] *)
Definition setSteps (ss : list StepWithStatus.t) (m : t) : t :=
  mk (id m) (role m) (content m) (Some ss) (undoInfo m) (undone m).

(** [{ ...msg, undoInfo }] *)
Definition setUndoInfo (u : UndoInfo.t) (m : t) : t :=
  mk (id m) (role m) (content m) (steps m) (Some u) (undone m).

(** [{ ...m, undone: true }] *)
Definition setUndone (m : t) : t :=
  mk (id m) (role m) (content m) (steps m) (undoInfo m) (Some true).

(** Truthiness of [msg.undone]. *)
Definition isUndone (m : t) : bool := default false (undone m).

(** The condition under which [MessageArea] renders the block of the
    step cards: [msg.role === "assistant" && msg.steps &&
    msg.steps.length > 0]. *)
Definition showsSteps (m : t) : bool :=
  match role m, steps m with
  | Role.assistant, Some (_ :: _) => true
  | _, _ => false
  end.

(** The condition under which [MessageArea] renders the Undo button: the
    button is inside the block of the step cards, under
    [msg.undoInfo && !msg.undone && onUndo] (the [onUndo] prop is always
    passed). *)
Definition showsUndoButton (m : t) : bool :=
  showsSteps m && (bool_decide (is_Some (undoInfo m)) && negb (isUndone m)).
End Message.

Module ChatResponse.
(** The properties of [ChatResponse] read when a response is turned into
    a message. *)
Record t : Set := mk {
  message_id : string;
  content : string;
  sheet_action : option SheetAction.t;
  steps : option (list StepAction.t)
}.
End ChatResponse.

(** ** The Apps Script host *)

(** How a [google.script.run] call ends: the success handler fires with
    the returned string, the failure handler fires with an error whose
    [message] is given, or touching [google] throws because the page is
    not inside Google Sheets. *)
Inductive GasReply : Set :=
| Success (result : string)
| Failure (message : string)
| NoHost.

(** Calls issued to the host, in order (ghost state: it records what the
    handlers asked for, and is never read by them). *)
Inductive Call : Set :=
| CallExecute (action : SheetAction.t)
| CallUndo (messageId : string) (undoInfo : UndoInfo.t).

#[global] Instance Call_eq_dec_undo (messageId : string) (c : Call) :
  Decision (∃ u, c = CallUndo messageId u).
Proof.
  destruct c as [a | m u].
  - right. intros [u Hu]. discriminate.
  - destruct (decide (m = messageId)) as [-> | Hne].
    + left. by exists u.
    + right. intros [u' Hu]. congruence.
Defined.

Module Host.
(** The injected capabilities, as functions on the state [World] of the
    live document and of the browser. *)
Record t (World : Type) : Type := mk {
  runExecuteSheetAction : SheetAction.t → World → GasReply * World;
  runUndoSheetActions : UndoInfo.t → World → GasReply * World;
  randomUUID : World → string * World
}.
Arguments mk {World}.
Arguments runExecuteSheetAction {World}.
Arguments runUndoSheetActions {World}.
Arguments randomUUID {World}.
End Host.

Module AppState.
Record t (World : Type) : Type := mk {
  messages : list Message.t;
  world : World;
  log : list Call
}.
Arguments mk {World}.
Arguments messages {World}.
Arguments world {World}.
Arguments log {World}.
End AppState.

Definition newline : string := String (Ascii.ascii_of_nat 10) EmptyString.

Section App.
Context {World : Type} (host : Host.t World).

#[local] Abbreviation State := (AppState.t World).

(** [setMessages(f)] *)
Definition setMessages (f : list Message.t → list Message.t) (st : State) : State :=
  AppState.mk (f (AppState.messages st)) (AppState.world st) (AppState.log st).

(** ** Bridges to the host *)

Definition executeSheetAction (action : SheetAction.t) (w : World) : string * World :=
  match Host.runExecuteSheetAction host action w with
  | (Success result, w') => (result, w')
  | (Failure message, w') => ("Action failed: " +:+ message, w')
  | (NoHost, w') => ("Not running in Google Sheets", w')
  end.

Definition executeStepAction (action : SheetAction.t) (w : World) : string * World :=
  executeSheetAction action w.

Definition undoSheetActionsGAS (undoInfo : UndoInfo.t) (w : World) : string * World :=
  match Host.runUndoSheetActions host undoInfo w with
  | (Success result, w') => (result, w')
  | (Failure message, w') => ("Undo failed: " +:+ message, w')
  | (NoHost, w') => ("Not running in Google Sheets", w')
  end.

(** ** The execution orchestrator ([executeSteps]) *)

(** [msg => msg.id !== messageId || !msg.steps ? msg :
      { ...msg, steps: f(msg.steps) }] *)
Definition onSteps (messageId : string)
    (f : list StepWithStatus.t → list StepWithStatus.t) (msg : Message.t) : Message.t :=
  match Message.steps msg with
  | Some ss =>
      if bool_decide (Message.id msg = messageId) then Message.setSteps (f ss) msg else msg
  | None => msg
  end.

(** [prev.map(msg => ... msg.steps.map((s, idx) => idx === i ? f(s) : s) ...)] *)
Definition markStep (messageId : string) (i : nat)
    (f : StepWithStatus.t → StepWithStatus.t) (prev : list Message.t) : list Message.t :=
  map (onSteps messageId (imap (λ idx s, if bool_decide (idx = i) then f s else s))) prev.

(** [const status = result.startsWith("Error") ? "error" : "done"] *)
Definition classify (result : string) : Status.t :=
  if startsWith result "Error" then Status.error else Status.done.

(** The [for] loop of [executeSteps], from index [i] on; [rest] holds
    [steps[i]], [steps[i+1]], ... *)
Fixpoint executeLoop (messageId : string) (rest : list StepAction.t) (i : nat)
    (st : State) : State :=
  match rest with
  | [] => st
  | step :: rest' =>
      let st1 :=
        setMessages (markStep messageId i (StepWithStatus.setStatus Status.executing)) st in
      let '(result, w) := executeStepAction (StepAction.action step) (AppState.world st1) in
      let st2 :=
        AppState.mk (AppState.messages st1) w
          (AppState.log st1 ++ [CallExecute (StepAction.action step)]) in
      let status := classify result in
      let st3 :=
        setMessages (markStep messageId i (StepWithStatus.setOutcome status result)) st2 in
      if bool_decide (status = Status.error) then st3
      else executeLoop messageId rest' (S i) st3
  end.

Definition executeSteps (steps : list StepAction.t) (messageId : string)
    (st : State) : State :=
  let st' := executeLoop messageId steps 0 st in
  let undoInfo := buildUndoInfo steps in
  if Nat.ltb 0 (length (UndoInfo.sheetsToDelete undoInfo))
     || Nat.ltb 0 (length (UndoInfo.cellsToClear undoInfo))
  then
    setMessages
      (map (λ msg, if bool_decide (Message.id msg = messageId)
                   then Message.setUndoInfo undoInfo msg else msg)) st'
  else st'.

(** ** From a chat response to a message ([handleSend], after the reply) *)

(** [res.steps.map((s) => ({ ...s, _status: "pending" }))] *)
Definition pendingStep (s : StepAction.t) : StepWithStatus.t :=
  StepWithStatus.mk s (Some Status.pending) None.

Definition handleResponse (res : ChatResponse.t) (st : State) : State :=
  match ChatResponse.steps res with
  | Some ((_ :: _) as steps) =>
      let assistantMessage :=
        Message.mk (ChatResponse.message_id res) Role.assistant (ChatResponse.content res)
          (Some (map pendingStep steps)) None None in
      executeSteps steps (ChatResponse.message_id res)
        (setMessages (λ prev, prev ++ [assistantMessage]) st)
  | _ =>
      let '(content, w, log) :=
        match ChatResponse.sheet_action res with
        | Some a =>
            let '(actionResult, w) := executeSheetAction a (AppState.world st) in
            (ChatResponse.content res +:+ newline +:+ newline +:+ "> " +:+ actionResult,
             w, AppState.log st ++ [CallExecute a])
        | None => (ChatResponse.content res, AppState.world st, AppState.log st)
        end in
      let assistantMessage :=
        Message.mk (ChatResponse.message_id res) Role.assistant content None None None in
      AppState.mk (AppState.messages st ++ [assistantMessage]) w log
  end.

(** ** The Undo control ([handleUndo])

    The handler from its guard to its end, for a call that no other
    handler overlaps.  Its stages, one per [await], are [handleUndoClick]
    and [resume] below. *)

Definition handleUndo (messageId : string) (st : State) : State :=
  match List.find (λ m, bool_decide (Message.id m = messageId)) (AppState.messages st) with
  | None => st
  | Some msg =>
      match Message.undoInfo msg with
      | None => st
      | Some undoInfo =>
          if Message.isUndone msg then st
          else
            let '(result, w1) := undoSheetActionsGAS undoInfo (AppState.world st) in
            let marked :=
              map (λ m, if bool_decide (Message.id m = messageId)
                        then Message.setUndone m else m) (AppState.messages st) in
            let '(uuid, w2) := Host.randomUUID host w1 in
            let undoMessage :=
              Message.mk uuid Role.assistant ("Undo complete: " +:+ result) None None None in
            AppState.mk (marked ++ [undoMessage]) w2
              (AppState.log st ++ [CallUndo messageId undoInfo])
      end
  end.

(** ** Event traces

    The events that act on the messages of a conversation.  The handlers
    that replace the whole list ([handleNewChat], [handleLoadConversation],
    [handleLogout]) end the life of its messages and are not events of a
    trace. *)

Inductive Event : Set :=
| Respond (res : ChatResponse.t)
| ClickUndo (messageId : string).

Definition handle (e : Event) (st : State) : State :=
  match e with
  | Respond res => handleResponse res st
  | ClickUndo messageId => handleUndo messageId st
  end.

Definition run (es : list Event) (st : State) : State :=
  fold_left (λ s e, handle e s) es st.

End App.

(** ** A scripted host, for running the handlers on concrete plans *)

Module Scripted.
(** The world is the list of replies the host has still to give; every
    call takes the next one, and a host whose script is over answers
    like a page outside Google Sheets. *)
Definition World : Type := list GasReply.

Definition next (w : World) : GasReply * World :=
  match w with
  | [] => (NoHost, [])
  | r :: w' => (r, w')
  end.

Definition host : Host.t World :=
  Host.mk (λ _ w, next w) (λ _ w, next w) (λ w, ("undo-message-id", w)).

Definition init (w : World) : AppState.t World := AppState.mk [] w [].
End Scripted.

(** ** Building actions and steps *)

Module Build.
Import SheetAction.

Definition createSheet (n : string) : SheetAction.t :=
  {| action := ActionKind.createSheet; name := Some n;
     column := None; criteria := None; ascending := None; range := None;
     color := None; cell := None; value := None; after := None; header := None;
     sheet := None; formula := None; fillDown := None; values := None;
     sourceCell := None; lastRow := None; bold := None; background := None;
     fontColor := None |}.

Definition setFormula (s c f : string) : SheetAction.t :=
  {| action := ActionKind.setFormula; sheet := Some s; cell := Some c;
     formula := Some f;
     column := None; criteria := None; ascending := None; range := None;
     color := None; value := None; after := None; header := None; name := None;
     fillDown := None; values := None; sourceCell := None; lastRow := None;
     bold := None; background := None; fontColor := None |}.

Definition setValues (s r : string) (vs : list (list CellValue)) : SheetAction.t :=
  {| action := ActionKind.setValues; sheet := Some s; range := Some r;
     values := Some vs;
     column := None; criteria := None; ascending := None; color := None;
     cell := None; value := None; after := None; header := None; name := None;
     formula := None; fillDown := None; sourceCell := None; lastRow := None;
     bold := None; background := None; fontColor := None |}.

Definition setValue (s c v : string) : SheetAction.t :=
  {| action := ActionKind.setValue; sheet := Some s; cell := Some c;
     value := Some v;
     column := None; criteria := None; ascending := None; range := None;
     color := None; after := None; header := None; name := None;
     formula := None; fillDown := None; values := None; sourceCell := None;
     lastRow := None; bold := None; background := None; fontColor := None |}.

Definition autoFillDown (s r src : string) (last : Z) : SheetAction.t :=
  {| action := ActionKind.autoFillDown; sheet := Some s; range := Some r;
     sourceCell := Some src; lastRow := Some last; fillDown := Some true;
     column := None; criteria := None; ascending := None; color := None;
     cell := None; value := None; after := None; header := None; name := None;
     formula := None; values := None; bold := None; background := None;
     fontColor := None |}.

(** The step numbered [n] (1-based) that carries action [a]. *)
Definition step (n : nat) (a : SheetAction.t) : StepAction.t :=
  StepAction.mk n "" a None None.

(** A response whose plan is [steps]. *)
Definition plan (messageId : string) (steps : list StepAction.t) : ChatResponse.t :=
  ChatResponse.mk messageId "" None (Some steps).
End Build.

Definition scenarioA : list StepAction.t :=
  [ Build.step 1 (Build.createSheet "Summary");
    Build.step 2 (Build.setFormula "Summary" "B2" "=SUM(A1:A10)") ].

Definition scenarioB : list StepAction.t :=
  [ Build.step 1 (Build.setValues "Sheet1" "A1:B3"
                    [[VNum 1; VNum 2]; [VNum 3; VNum 4]; [VNum 5; VNum 6]]);
    Build.step 2 (Build.setFormula "Sheet1" "C1" "=A1+B1") ].

Definition scenarioC : list StepAction.t :=
  [ Build.step 1 (Build.createSheet "Report");
    Build.step 2 (Build.setValues "Sheet1" "A1:B2" [[VNum 1; VNum 2]; [VNum 3; VNum 4]]);
    Build.step 3 (Build.setFormula "Sheet1" "C1" "=A1+B1") ].

(** ** Reading the planner: what a step creates, what it writes *)

(** The sheet a step adds to [sheetsToDelete]: the first branch of the
    loop body of [buildUndoInfo]. *)
Definition creates (step : StepAction.t) : option string :=
  let a := StepAction.action step in
  if isKind ActionKind.createSheet a && truthy (SheetAction.name a)
  then Some (str (SheetAction.name a)) else None.

(** The (sheet, location) pair a step offers to [cellsToClear]: the
    conditions of the second and third branches. *)
Definition writes (step : StepAction.t) : option CellRef.t :=
  let a := StepAction.action step in
  if isKind ActionKind.setFormula a
     && truthy (SheetAction.sheet a) && truthy (SheetAction.cell a)
  then Some (CellRef.mk (str (SheetAction.sheet a)) (str (SheetAction.cell a)))
  else if isKind ActionKind.setValues a
          && truthy (SheetAction.sheet a) && truthy (SheetAction.range a)
  then Some (CellRef.mk (str (SheetAction.sheet a)) (str (SheetAction.range a)))
  else None.

(** The sheets created by the steps of a list, in order. *)
Definition createdBy (steps : list StepAction.t) : list string := omap creates steps.

(** Does some step create a sheet that an earlier step of the list (or
    one of [written]) has written to? *)
Fixpoint lateCreate (written : list string) (steps : list StepAction.t) : bool :=
  match steps with
  | [] => false
  | s :: rest =>
      match creates s with
      | Some n => includes written n || lateCreate written rest
      | None =>
          match writes s with
          | Some c => lateCreate (written ++ [CellRef.sheet c]) rest
          | None => lateCreate written rest
          end
      end
  end.

(** A plan creates its sheets first when no [createSheet] step names a
    sheet that an earlier [setFormula] or [setValues] step wrote to. *)
Definition createsFirst (steps : list StepAction.t) : bool := negb (lateCreate [] steps).

(** The sheet components of the entries of [cellsToClear]. *)
Definition clearedSheets (u : UndoInfo.t) : list string :=
  map CellRef.sheet (UndoInfo.cellsToClear u).

(** ** Reading the orchestrator: the results of a run *)

Section RunModel.
Context {World : Type} (host : Host.t World).

(** The strings [executeStepAction] returns during the loop over
    [rest], up to and including the first one classified as an error,
    and the world left by the last call. *)
Fixpoint runResults (rest : list StepAction.t) (w : World) : list string * World :=
  match rest with
  | [] => ([], w)
  | step :: rest' =>
      let '(result, w') := executeStepAction host (StepAction.action step) w in
      if bool_decide (classify result = Status.error) then ([result], w')
      else let '(results, w'') := runResults rest' w' in (result :: results, w'')
  end.

(** The step at index [idx], once the steps from index [i] on have
    received the results [rs]. *)
Definition outcomeAt (i : nat) (rs : list string) (idx : nat)
    (s : StepWithStatus.t) : StepWithStatus.t :=
  if bool_decide (i ≤ idx)%nat then
    match rs !! (idx - i) with
    | Some r => StepWithStatus.setOutcome (classify r) r s
    | None => s
    end
  else s.

Definition applyResults (messageId : string) (i : nat) (rs : list string)
    (prev : list Message.t) : list Message.t :=
  map (onSteps messageId (imap (outcomeAt i rs))) prev.

(** The [undoInfo] property a message receives at the end of
    [executeSteps]: set only when the log is not empty. *)
Definition attached (u : UndoInfo.t) : option UndoInfo.t :=
  if Nat.ltb 0 (length (UndoInfo.sheetsToDelete u))
     || Nat.ltb 0 (length (UndoInfo.cellsToClear u))
  then Some u else None.

(** What the end of [executeSteps] does to a message: it receives
    [undoInfo] when its id is [messageId] and the log is not empty. *)
Definition attachUndo (messageId : string) (u : UndoInfo.t) (msg : Message.t) : Message.t :=
  match attached u with
  | Some _ => if bool_decide (Message.id msg = messageId)
              then Message.setUndoInfo u msg else msg
  | None => msg
  end.

(** The steps of the message of a plan, once the run has produced the
    results [rs]. *)
Definition finalSteps (steps : list StepAction.t) (rs : list string) :
    list StepWithStatus.t :=
  imap (outcomeAt 0 rs) (map pendingStep steps).

(** The message of the plan of [res], at the end of [handleResponse]. *)
Definition finalMessage (res : ChatResponse.t) (steps : list StepAction.t)
    (rs : list string) : Message.t :=
  Message.mk (ChatResponse.message_id res) Role.assistant (ChatResponse.content res)
    (Some (finalSteps steps rs)) (attached (buildUndoInfo steps)) None.

(** What a run does to the messages that were already there. *)
Definition touched (messageId : string) (steps : list StepAction.t) (rs : list string)
    (msg : Message.t) : Message.t :=
  attachUndo messageId (buildUndoInfo steps)
    (onSteps messageId (imap (outcomeAt 0 rs)) msg).

(** [m => m.id === messageId ? { ...m, undone: true } : m] *)
Definition markUndone (messageId : string) (m : Message.t) : Message.t :=
  if bool_decide (Message.id m = messageId) then Message.setUndone m else m.

(** The shape of the statuses of a plan after a run that stops at the
    first error. *)
Definition allDone (ss : list StepWithStatus.t) : Prop :=
  ∀ j s, ss !! j = Some s → StepWithStatus._status s = Some Status.done.

Definition haltedAt (k : nat) (ss : list StepWithStatus.t) : Prop :=
  (∃ s, ss !! k = Some s ∧ StepWithStatus._status s = Some Status.error) ∧
  (∀ j s, ss !! j = Some s → (j < k)%nat → StepWithStatus._status s = Some Status.done) ∧
  (∀ j s, ss !! j = Some s → (k < j)%nat → StepWithStatus._status s = Some Status.pending).

(** The undo calls of a log that were issued for message [messageId]. *)
Definition undoCalls (messageId : string) (log : list Call) : list Call :=
  base.filter (λ c, ∃ u, c = CallUndo messageId u) log.

(** The [undone] flag of the message [handleUndo] would act on. *)
Definition undoneFlag (messageId : string) (st : AppState.t World) : bool :=
  match List.find (λ m, bool_decide (Message.id m = messageId)) (AppState.messages st) with
  | Some msg => Message.isUndone msg
  | None => false
  end.
End RunModel.

(** ** Concrete plans and runs *)

(** A plan that writes to a sheet and creates it afterwards. *)
Definition lateCreatePlan : list StepAction.t :=
  [ Build.step 1 (Build.setFormula "Summary" "B2" "=SUM(A1:A10)");
    Build.step 2 (Build.createSheet "Summary") ].

Definition fillStep : StepAction.t :=
  Build.step 1 (Build.autoFillDown "Sheet1" "B2:B10" "B2" 10).

Definition valuesStep : StepAction.t :=
  Build.step 1 (Build.setValues "Sheet1" "B2:B10" [[VNum 1]]).

Definition setValuePlan : list StepAction.t :=
  [ Build.step 1 (Build.setValue "Sheet1" "A1" "42");
    Build.step 2 (Build.setValue "Sheet1" "A2" "43") ].

(** The host creates the sheet, refuses the range of the second step,
    and later fails to undo. *)
Definition haltedScript : Scripted.World :=
  [Success "Created sheet Report"; Success "Error: invalid range";
   Failure "Sheet not found"].

(** The message of the plan is in place, its steps pending. *)
Definition pendingState : AppState.t Scripted.World :=
  AppState.mk
    [Message.mk "m1" Role.assistant "" (Some (map pendingStep scenarioC)) None None]
    haltedScript [].

(** The state after the run of [scenarioC] against [haltedScript]. *)
Definition haltedRun : AppState.t Scripted.World :=
  handleResponse Scripted.host (Build.plan "m1" scenarioC) (Scripted.init haltedScript).

Definition haltedLog : UndoInfo.t :=
  UndoInfo.mk ["Report"] [CellRef.mk "Sheet1" "A1:B2"; CellRef.mk "Sheet1" "C1"].

Definition haltedMessage : Message.t :=
  Message.mk "m1" Role.assistant ""
    (Some (finalSteps scenarioC ["Created sheet Report"; "Error: invalid range"]))
    (Some haltedLog) None.

(** The state after the Undo control of that message has been used. *)
Definition undoneRun : AppState.t Scripted.World :=
  handleUndo Scripted.host "m1" haltedRun.

(** ** The planner on a list that continues another *)

(** The entries that the steps of a list add to [cellsToClear] when the
    sheets of [created] are already in [sheetsToDelete]: the loop of
    [buildUndoInfo], started in the middle of a plan. *)
Fixpoint cellsFrom (created : list string) (steps : list StepAction.t) : list CellRef.t :=
  match steps with
  | [] => []
  | s :: rest =>
      match creates s with
      | Some n => cellsFrom (created ++ [n]) rest
      | None =>
          match writes s with
          | Some c =>
              if includes created (CellRef.sheet c) then cellsFrom created rest
              else c :: cellsFrom created rest
          | None => cellsFrom created rest
          end
      end
  end.

(** An optional string property that is missing or empty (falsy). *)
Definition absent (o : option string) : Prop := o = None ∨ o = Some "".

(** ** The counters of the step loop ([trackStepsExecuted]) *)

Module StepsExecuted.
(** The argument of [trackStepsExecuted]. *)
Record t : Set := mk {
  step_count : nat;
  success_count : nat;
  error_count : nat
}.
End StepsExecuted.

Section Tracking.
Context {World : Type} (host : Host.t World).

(** The [for] loop of [executeSteps] with its two counters: the state it
    leaves, [successCount] and [errorCount]. *)
Fixpoint executeLoopCounted (messageId : string) (rest : list StepAction.t) (i : nat)
    (st : AppState.t World) (successCount errorCount : nat) : AppState.t World * nat * nat :=
  match rest with
  | [] => (st, successCount, errorCount)
  | step :: rest' =>
      let st1 :=
        setMessages (markStep messageId i (StepWithStatus.setStatus Status.executing)) st in
      let '(result, w) :=
        executeStepAction host (StepAction.action step) (AppState.world st1) in
      let st2 :=
        AppState.mk (AppState.messages st1) w
          (AppState.log st1 ++ [CallExecute (StepAction.action step)]) in
      let status := classify result in
      let st3 :=
        setMessages (markStep messageId i (StepWithStatus.setOutcome status result)) st2 in
      if bool_decide (status = Status.error) then (st3, successCount, S errorCount)
      else executeLoopCounted messageId rest' (S i) st3 (S successCount) errorCount
  end.

(** What [executeSteps] reports to the analytics after the loop. *)
Definition stepsExecuted (steps : list StepAction.t) (messageId : string)
    (st : AppState.t World) : StepsExecuted.t :=
  let '(_, successCount, errorCount) := executeLoopCounted messageId steps 0 st 0 0 in
  StepsExecuted.mk (length steps) successCount errorCount.
End Tracking.

(** The number of steps of a message that show a given status. *)
Definition countStatus (status : Status.t) (ss : list StepWithStatus.t) : nat :=
  length (filter (λ s, StepWithStatus._status s = Some status) ss).

(** ** The card of a step ([StepCard]) *)

Module StepCard.
Inductive Icon : Set := check | hourglass | cross | pause.

(** What the card of a step shows: the icon of its status, the line
    "Step n: description", the formula and the note when they are not
    empty, and the result text of a step in error. *)
Record t : Set := mk {
  statusIcon : Icon;
  stepNumber : nat;
  description : string;
  formula : option string;
  about : option string;
  result : option string
}.

Definition view (step : StepWithStatus.t) : t :=
  let status := StepWithStatus.shown step in
  mk (match status with
      | Status.done => check
      | Status.executing => hourglass
      | Status.error => cross
      | Status.pending => pause
      end)
     (StepAction.step (StepWithStatus.base step))
     (StepAction.description (StepWithStatus.base step))
     (if truthy (StepAction.formula (StepWithStatus.base step))
      then StepAction.formula (StepWithStatus.base step) else None)
     (if truthy (StepAction.about (StepWithStatus.base step))
      then StepAction.about (StepWithStatus.base step) else None)
     (if truthy (StepWithStatus._result step) && bool_decide (status = Status.error)
      then StepWithStatus._result step else None).
End StepCard.

(** The message id an event is about. *)
Definition target (e : Event) : string :=
  match e with
  | Respond res => ChatResponse.message_id res
  | ClickUndo messageId => messageId
  end.

(** ** The chat around the plans ([handleSend] and the conversation) *)

Module ChatMode.
Inductive t : Set := action | chat.
End ChatMode.

Module HistoryMessage.
Record t : Set := mk { role : Role.t; content : string }.
End HistoryMessage.

Module QuickAction.
Record t : Set := mk { label : string; prompt : string }.
End QuickAction.

Module SheetInfo.
Record t : Set := mk { name : string; rowCount : Z; isActive : bool }.
End SheetInfo.

Module SheetData.
(** [interface SheetData]; [cells] is the object from cell reference to
    text, kept as the list of its entries. *)
Record t : Set := mk {
  sheetName : string;
  dataRange : string;
  cells : list (string * string);
  totalRows : Z;
  totalColumns : Z;
  truncated : bool;
  selectedRange : option string;
  selectedValues : list (list CellValue);
  error : option string
}.
End SheetData.

Module SheetPayload.
(** The [sheet_data] object of a chat request. *)
Record t : Set := mk {
  dataRange : string;
  cells : list (string * string);
  totalRows : Z;
  totalColumns : Z;
  selectedRange : option string;
  selectedValues : list (list CellValue)
}.

Definition fromData (d : SheetData.t) : t :=
  mk (SheetData.dataRange d) (SheetData.cells d) (SheetData.totalRows d)
     (SheetData.totalColumns d) (SheetData.selectedRange d) (SheetData.selectedValues d).
End SheetPayload.

Module ChatRequest.
(** The argument of [chatApi.sendMessage]; a property that is
    [undefined] is [None]. *)
Record t : Set := mk {
  message : string;
  conversation_id : option string;
  sheet_data : option SheetPayload.t;
  sheet_name : option string;
  history : option (list HistoryMessage.t);
  mode : ChatMode.t
}.
End ChatRequest.

Module ChatReply.
(** A chat response as [handleSend] reads it: the part that becomes a
    message, the conversation it belongs to and its quick actions. *)
Record t : Set := mk {
  response : ChatResponse.t;
  conversation_id : string;
  quick_actions : option (list QuickAction.t)
}.
End ChatReply.

(** What a rejected request throws: an [ApiError] with its status and
    message, or anything else (a network failure). *)
Inductive Thrown : Set :=
| ApiError (status : Z) (message : string)
| OtherError.

Inductive SendOutcome : Set :=
| Sent (reply : ChatReply.t)
| Rejected (err : Thrown).

(** How a [google.script.run] call that returns data ends: the success
    handler fires with the data (which may be null), the failure handler
    fires, or the page is not inside Google Sheets. *)
Inductive GasData (A : Type) : Type :=
| GasSuccess (data : option A)
| GasFailure
| GasNoHost.
Arguments GasSuccess {A}.
Arguments GasFailure {A}.
Arguments GasNoHost {A}.

Module StoredMessage.
(** A message of a stored conversation, as [chatApi.getMessages] returns
    it. *)
Record t : Set := mk { id : option string; role : Role.t; content : string }.
End StoredMessage.

Module Backend.
(** The capabilities of the chat beyond the two of the plans: the sheet
    readers of the Apps Script host, the chat API and the clock.
    [elapsed t1 t0] stands for [Math.round(t1 - t0)]. *)
Record t (World Instant : Type) : Type := mk {
  gas : Host.t World;
  runGetSheetData : World → GasData SheetData.t * World;
  runGetSheetDataByName : string → World → GasData SheetData.t * World;
  runGetAllSheets : World → GasData (list SheetInfo.t) * World;
  sendMessage : ChatRequest.t → World → SendOutcome * World;
  getMessages : string → World → option (option (list StoredMessage.t)) * World;
  now : World → Instant * World;
  elapsed : Instant → Instant → Z
}.
Arguments mk {World Instant}.
Arguments gas {World Instant}.
Arguments runGetSheetData {World Instant}.
Arguments runGetSheetDataByName {World Instant}.
Arguments runGetAllSheets {World Instant}.
Arguments sendMessage {World Instant}.
Arguments getMessages {World Instant}.
Arguments now {World Instant}.
Arguments elapsed {World Instant}.
End Backend.

Module Ui.
(** The state of the [App] component that its chat handlers read or
    write, and the requests sent so far (ghost state). *)
Record t (World : Type) : Type := mk {
  app : AppState.t World;
  conversationId : option string;
  isLoading : bool;
  error : option string;
  responseTime : option Z;
  quickActions : list QuickAction.t;
  sheetName : option string;
  rowCount : option Z;
  isConnected : bool;
  mode : ChatMode.t;
  sheets : list SheetInfo.t;
  selectedSheet : option string;
  trialRefreshKey : nat;
  trialExpired : bool;
  requests : list ChatRequest.t
}.
Arguments mk {World}.
Arguments app {World}.
Arguments conversationId {World}.
Arguments isLoading {World}.
Arguments error {World}.
Arguments responseTime {World}.
Arguments quickActions {World}.
Arguments sheetName {World}.
Arguments rowCount {World}.
Arguments isConnected {World}.
Arguments mode {World}.
Arguments sheets {World}.
Arguments selectedSheet {World}.
Arguments trialRefreshKey {World}.
Arguments trialExpired {World}.
Arguments requests {World}.
End Ui.

(** [messages.slice(-10).map((m) => ({ role: m.role, content: m.content }))] *)
Definition buildHistory (messages : list Message.t) : list HistoryMessage.t :=
  map (λ m, HistoryMessage.mk (Message.role m) (Message.content m))
    (drop (length messages - 10) messages).

Definition trialEndedText : string :=
  "You've used all your free messages. Upgrade to Pro to continue!".

Definition networkErrorText : string := "Network error. Please check your connection.".

Section Chat.
Context {World Instant : Type} (backend : Backend.t World Instant).

Definition getSheetData (w : World) : option SheetData.t * World :=
  match Backend.runGetSheetData backend w with
  | (GasSuccess data, w') => (data, w')
  | (GasFailure, w') => (None, w')
  | (GasNoHost, w') => (None, w')
  end.

Definition getAllSheets (w : World) : list SheetInfo.t * World :=
  match Backend.runGetAllSheets backend w with
  | (GasSuccess sheets, w') => (default [] sheets, w')
  | (GasFailure, w') => ([], w')
  | (GasNoHost, w') => ([], w')
  end.

Definition getSheetDataByName (sheetName : string) (w : World) : option SheetData.t * World :=
  match Backend.runGetSheetDataByName backend sheetName w with
  | (GasSuccess (Some data), w') =>
      if truthy (SheetData.error data) then (None, w') else (Some data, w')
  | (GasSuccess None, w') => (None, w')
  | (GasFailure, w') => (None, w')
  | (GasNoHost, w') => (None, w')
  end.

(** [handleSend]: the state at the start is what the callback has
    captured ([messages], [conversationId], [selectedSheet], [mode]).
    The list of conversations ([loadConversations], started and not
    awaited) is left out. *)
Definition handleSend (text : string) (ui : Ui.t World) : Ui.t World :=
  let st := Ui.app ui in
  let '(uuid, w1) := Host.randomUUID (Backend.gas backend) (AppState.world st) in
  let userMessage := Message.mk uuid Role.user text None None None in
  let '(startTime, w2) := Backend.now backend w1 in
  let '(sheetData, w3) :=
    if truthy (Ui.selectedSheet ui)
    then getSheetDataByName (str (Ui.selectedSheet ui)) w2
    else getSheetData w2 in
  let sheetName :=
    match sheetData with
    | Some d => Some (SheetData.sheetName d)
    | None => Ui.sheetName ui
    end in
  let rowCount :=
    match sheetData with
    | Some d => Some (SheetData.totalRows d)
    | None => Ui.rowCount ui
    end in
  let isConnected := bool_decide (is_Some sheetData) in
  let '(updatedSheets, w4) := getAllSheets w3 in
  let history := buildHistory (AppState.messages st) in
  let request :=
    ChatRequest.mk text (Ui.conversationId ui) (SheetPayload.fromData <$> sheetData)
      (SheetData.sheetName <$> sheetData)
      (if Nat.ltb 0 (length history) then Some history else None)
      (Ui.mode ui) in
  let requests := Ui.requests ui ++ [request] in
  match Backend.sendMessage backend request w4 with
  | (Sent reply, w5) =>
      let '(endTime, w6) := Backend.now backend w5 in
      let st' :=
        handleResponse (Backend.gas backend) (ChatReply.response reply)
          (AppState.mk (AppState.messages st ++ [userMessage]) w6 (AppState.log st)) in
      Ui.mk st' (Some (ChatReply.conversation_id reply)) false None
        (Some (Backend.elapsed backend endTime startTime))
        (match ChatReply.quick_actions reply with
         | Some (qa :: qas) => qa :: qas
         | _ => []
         end)
        sheetName rowCount isConnected (Ui.mode ui) updatedSheets (Ui.selectedSheet ui)
        (S (Ui.trialRefreshKey ui)) (Ui.trialExpired ui) requests
  | (Rejected err, w5) =>
      let '(endTime, w6) := Backend.now backend w5 in
      let responseTime := Some (Backend.elapsed backend endTime startTime) in
      let is402 :=
        match err with
        | ApiError status _ => bool_decide (status = 402%Z)
        | OtherError => false
        end in
      if is402 then
        Ui.mk
          (AppState.mk
             (base.filter (λ m, Message.id m ≠ uuid) (AppState.messages st ++ [userMessage]))
             w6 (AppState.log st))
          (Ui.conversationId ui) false (Some trialEndedText) responseTime
          (Ui.quickActions ui) sheetName rowCount isConnected (Ui.mode ui) updatedSheets
          (Ui.selectedSheet ui) (S (Ui.trialRefreshKey ui)) true requests
      else
        Ui.mk
          (AppState.mk (AppState.messages st ++ [userMessage]) w6 (AppState.log st))
          (Ui.conversationId ui) false
          (Some match err with
                | ApiError _ message => message
                | OtherError => networkErrorText
                end)
          responseTime
          (Ui.quickActions ui) sheetName rowCount isConnected (Ui.mode ui) updatedSheets
          (Ui.selectedSheet ui) (Ui.trialRefreshKey ui) (Ui.trialExpired ui) requests
  end.

(** [handleNewChat] *)
Definition handleNewChat (ui : Ui.t World) : Ui.t World :=
  Ui.mk (AppState.mk [] (AppState.world (Ui.app ui)) (AppState.log (Ui.app ui)))
    None (Ui.isLoading ui) None None []
    (Ui.sheetName ui) (Ui.rowCount ui) (Ui.isConnected ui) (Ui.mode ui) (Ui.sheets ui)
    (Ui.selectedSheet ui) (Ui.trialRefreshKey ui) (Ui.trialExpired ui) (Ui.requests ui).

(** [(res.messages || []).map((m) => ({ id: m.id || crypto.randomUUID(),
      role: m.role, content: m.content, ... }))], from left to right. *)
Fixpoint loadedMessages (stored : list StoredMessage.t) (w : World) : list Message.t * World :=
  match stored with
  | [] => ([], w)
  | m :: rest =>
      let '(id, w1) :=
        if truthy (StoredMessage.id m) then (str (StoredMessage.id m), w)
        else Host.randomUUID (Backend.gas backend) w in
      let '(loaded, w2) := loadedMessages rest w1 in
      (Message.mk id (StoredMessage.role m) (StoredMessage.content m) None None None :: loaded,
       w2)
  end.

Definition loadFailedText : string := "Failed to load conversation.".

(** [handleLoadConversation] *)
Definition handleLoadConversation (convId : string) (ui : Ui.t World) : Ui.t World :=
  let st := Ui.app ui in
  match Backend.getMessages backend convId (AppState.world st) with
  | (Some messages, w1) =>
      let '(loaded, w2) := loadedMessages (default [] messages) w1 in
      Ui.mk (AppState.mk loaded w2 (AppState.log st))
        (Some convId) (Ui.isLoading ui) None None []
        (Ui.sheetName ui) (Ui.rowCount ui) (Ui.isConnected ui) (Ui.mode ui) (Ui.sheets ui)
        (Ui.selectedSheet ui) (Ui.trialRefreshKey ui) (Ui.trialExpired ui) (Ui.requests ui)
  | (None, w1) =>
      Ui.mk (AppState.mk (AppState.messages st) w1 (AppState.log st))
        (Ui.conversationId ui) (Ui.isLoading ui) (Some loadFailedText) (Ui.responseTime ui)
        (Ui.quickActions ui)
        (Ui.sheetName ui) (Ui.rowCount ui) (Ui.isConnected ui) (Ui.mode ui) (Ui.sheets ui)
        (Ui.selectedSheet ui) (Ui.trialRefreshKey ui) (Ui.trialExpired ui) (Ui.requests ui)
  end.

End Chat.

(** ** The input box and its command history ([InputArea]) *)

Module InputArea.
(** The state of the component: the text of the box, the position in the
    command history (-1 when the box holds a draft), the draft saved
    while the history is browsed, and the array of the history ref, the
    latest command first. *)
Record t : Set := mk {
  message : string;
  historyIndex : Z;
  savedMessage : string;
  commandHistory : list string
}.

Definition MAX_HISTORY : nat := 50.

Definition initial : t := mk "" (-1) "" [].

Inductive Key : Set :=
| Enter (shiftKey : bool)
| ArrowUp
| ArrowDown
| OtherKey.

Inductive Event : Set :=
| Change (value : string)
| KeyDown (key : Key)
| ClickSend.

(** [history[i]], which is [undefined] outside the array. *)
Definition at_ (history : list string) (i : Z) : option string :=
  if bool_decide (i < 0)%Z then None else history !! Z.to_nat i.

Section Handlers.
(** [String.prototype.trim] *)
Context (trim : string → string).

(** [handleSend]: the next state and the text passed to [onSend], if
    any. *)
Definition handleSend (isLoading : bool) (s : t) : t * option string :=
  let text := trim (message s) in
  if String.eqb text "" || isLoading then (s, None)
  else
    let history := commandHistory s in
    let history' :=
      if bool_decide (head history ≠ Some text) then
        let unshifted := text :: history in
        if Nat.ltb MAX_HISTORY (length unshifted) then removelast unshifted
        else unshifted
      else history in
    (mk "" (-1) "" history', Some text).

(** A handler that stores [history[newIndex]] in the box gives no state
    when that entry is [undefined]. *)
Definition handleKeyDown (isLoading : bool) (key : Key) (s : t) : option (t * option string) :=
  match key with
  | Enter false => Some (handleSend isLoading s)
  | Enter true => Some (s, None)
  | ArrowUp =>
      let history := commandHistory s in
      if bool_decide (length history = 0%nat) then Some (s, None)
      else
        let saved :=
          if bool_decide (historyIndex s = -1)%Z then message s else savedMessage s in
        let newIndex := Z.min (historyIndex s + 1) (Z.of_nat (length history) - 1) in
        (λ entry, (mk entry newIndex saved history, None)) <$> at_ history newIndex
  | ArrowDown =>
      let history := commandHistory s in
      if bool_decide (historyIndex s ≤ 0)%Z
      then Some (mk (savedMessage s) (-1) (savedMessage s) history, None)
      else
        let newIndex := (historyIndex s - 1)%Z in
        (λ entry, (mk entry newIndex (savedMessage s) history, None)) <$> at_ history newIndex
  | OtherKey => Some (s, None)
  end.

Definition step (isLoading : bool) (e : Event) (s : t) : option (t * option string) :=
  match e with
  | Change value =>
      Some (mk value (historyIndex s) (savedMessage s) (commandHistory s), None)
  | KeyDown key => handleKeyDown isLoading key s
  | ClickSend => Some (handleSend isLoading s)
  end.

(** A sequence of events, each with the [isLoading] prop of its time:
    the last state and the texts sent, in order. *)
Fixpoint run (es : list (bool * Event)) (s : t) : option (t * list string) :=
  match es with
  | [] => Some (s, [])
  | (isLoading, e) :: rest =>
      match step isLoading e s with
      | Some (s', sent) =>
          match run rest s' with
          | Some (s'', sents) =>
              Some (s'', match sent with Some text => text :: sents | None => sents end)
          | None => None
          end
      | None => None
      end
  end.
End Handlers.

(** No two neighbours of the list are equal. *)
Fixpoint noRepeat (l : list string) : Prop :=
  match l with
  | a :: (b :: _) as rest => a ≠ b ∧ noRepeat rest
  | _ => True
  end.

(** The invariant of the component: at most [MAX_HISTORY] commands, none
    empty, none equal to the next one, and a browsing position between
    -1 and the last entry. *)
Definition inputOk (s : t) : Prop :=
  (length (commandHistory s) ≤ MAX_HISTORY)%nat ∧
  (-1 ≤ historyIndex s < Z.of_nat (length (commandHistory s)))%Z ∧
  noRepeat (commandHistory s) ∧
  Forall (λ h, h ≠ "") (commandHistory s).
End InputArea.

(** ** The preview of a reasoning result ([ReasoningSteps]) *)

(** The text of a reasoning result as JavaScript holds it: a sequence of
    UTF-16 code units, which is what [length] and [substring] count (a
    character outside the Basic Multilingual Plane is two of them). *)
Definition CodeUnits : Set := list N.

(** ["..."]: three times U+002E. *)
Definition ellipsis : CodeUnits := [46%N; 46%N; 46%N].

(** [step.result.substring(0, 150)] followed by ["..."] when
    [step.result.length > 150]. *)
Definition resultPreview (result : CodeUnits) : CodeUnits :=
  take 150 result ++ (if Nat.ltb 150 (length result) then ellipsis else []).

(** ** A concrete chat *)

Module ScriptedChat.
(** A chat on a page outside Google Sheets for the sheet readers: the
    steps of a plan are answered by the script of the world, the chat
    API gives [outcome] to every request, and [stored] is what it gives
    for every stored conversation. *)
Definition backend (outcome : SendOutcome)
    (stored : option (option (list StoredMessage.t))) : Backend.t Scripted.World nat :=
  Backend.mk Scripted.host
    (λ w, (GasNoHost, w)) (λ _ w, (GasNoHost, w)) (λ w, (GasNoHost, w))
    (λ _ w, (outcome, w)) (λ _ w, (stored, w))
    (λ w, (0%nat, w)) (λ _ _, 0%Z).

Definition greeting : Message.t :=
  Message.mk "m0" Role.assistant "Hello! Ask me about your sheet." None None None.

(** The component with one message on screen and nothing in flight. *)
Definition ui (w : Scripted.World) : Ui.t Scripted.World :=
  Ui.mk (AppState.mk [greeting] w []) None false None None [] None None false
    ChatMode.action [] None 0 false [].

Definition answer : ChatReply.t :=
  ChatReply.mk (Build.plan "m1" scenarioC) "conv-1" None.
End ScriptedChat.

(** A formula written to the active sheet: the step names no sheet. *)
Definition activeSheetStep : StepAction.t :=
  Build.step 2 (Build.setFormula "" "C1" "=A1+B1").

(** The state before the plan of [scenarioC] arrives, with one older
    message. *)
Definition greetedState : AppState.t Scripted.World :=
  AppState.mk [ScriptedChat.greeting] haltedScript [].

(** An input box with a draft and two commands in its history. *)
Definition draftBox : InputArea.t :=
  InputArea.mk "total of column C" (-1) "" ["sum column B"; "sort by date"].

(** The message of the plan of [scenarioC] is in place, its steps
    pending, and the host refuses the first call (its failure handler
    fires) before it accepts the second. *)
Definition quotaState : AppState.t Scripted.World :=
  AppState.mk
    [Message.mk "m1" Role.assistant "" (Some (map pendingStep scenarioC)) None None]
    [Failure "Quota exceeded"; Success "Wrote 4 cells"] [].

(** ** The Undo control, await by await

    [handleUndo] is an async function with two [await]s: the guard
    ([!msg?.undoInfo || msg.undone]) and the call of [undoSheetActionsGAS]
    run when the button is clicked, [undone: true] is written when that
    call has resolved, and the confirmation message is appended when
    [getAllSheets] has resolved.  Between these points other handlers
    run.  A page is the state of the conversation together with the
    calls of [handleUndo] that are suspended at an [await]. *)

Module Undoing.
Inductive Stage : Set :=
| AwaitingUndo    (* at [await undoSheetActionsGAS(msg.undoInfo)] *)
| AwaitingSheets. (* at [await getAllSheets()] *)

(** A suspended call: its [messageId], the string the host has for it,
    and the [await] it is at. *)
Record t : Set := mk { messageId : string; result : string; stage : Stage }.
End Undoing.

Module Page.
Record t (World : Type) : Type := mk {
  app : AppState.t World;
  suspended : list Undoing.t
}.
Arguments mk {World}.
Arguments app {World}.
Arguments suspended {World}.
End Page.

Inductive PageEvent : Set :=
| Responded (res : ChatResponse.t)
| UndoClicked (messageId : string)
| Resumed (k : nat).

Section Staged.
Context {World : Type} (host : Host.t World).

(** [handleUndo] up to its first [await]: the guard, read from the
    messages of the render the click came from, and the call, which the
    host runs when it is issued. *)
Definition handleUndoClick (messageId : string) (pg : Page.t World) : Page.t World :=
  let st := Page.app pg in
  match List.find (λ m, bool_decide (Message.id m = messageId)) (AppState.messages st) with
  | None => pg
  | Some msg =>
      match Message.undoInfo msg with
      | None => pg
      | Some undoInfo =>
          if Message.isUndone msg then pg
          else
            let '(result, w1) := undoSheetActionsGAS host undoInfo (AppState.world st) in
            Page.mk
              (AppState.mk (AppState.messages st) w1
                 (AppState.log st ++ [CallUndo messageId undoInfo]))
              (Page.suspended pg ++ [Undoing.mk messageId result Undoing.AwaitingUndo])
      end
  end.

(** The suspended call at index [k] goes on to its next [await], or to
    its end.  The refresh of the list of sheets ([setSheets]) touches
    neither the messages nor the calls and is left out; its [await] is
    kept. *)
Definition resume (k : nat) (pg : Page.t World) : Page.t World :=
  let st := Page.app pg in
  match Page.suspended pg !! k with
  | None => pg
  | Some u =>
      match Undoing.stage u with
      | Undoing.AwaitingUndo =>
          Page.mk
            (setMessages (map (markUndone (Undoing.messageId u))) st)
            (<[k := Undoing.mk (Undoing.messageId u) (Undoing.result u)
                      Undoing.AwaitingSheets]> (Page.suspended pg))
      | Undoing.AwaitingSheets =>
          let '(uuid, w2) := Host.randomUUID host (AppState.world st) in
          let undoMessage :=
            Message.mk uuid Role.assistant ("Undo complete: " +:+ Undoing.result u)
              None None None in
          Page.mk
            (AppState.mk (AppState.messages st ++ [undoMessage]) w2 (AppState.log st))
            (delete k (Page.suspended pg))
      end
  end.

(** The events of a page.  A chat response is handled whole. *)
Definition pageStep (e : PageEvent) (pg : Page.t World) : Page.t World :=
  match e with
  | Responded res => Page.mk (handleResponse host res (Page.app pg)) (Page.suspended pg)
  | UndoClicked messageId => handleUndoClick messageId pg
  | Resumed k => resume k pg
  end.

Definition pageRun (es : list PageEvent) (pg : Page.t World) : Page.t World :=
  fold_left (λ p e, pageStep e p) es pg.
End Staged.

(** A plan whose two steps succeed, on a host that also accepts two
    reversals. *)
Definition undoableScript : Scripted.World :=
  [Success "Wrote 6 cells"; Success "Formula set";
   Success "Cleared 2 ranges"; Success "Cleared 2 ranges"].

Definition undoablePage : Page.t Scripted.World :=
  Page.mk
    (handleResponse Scripted.host (Build.plan "m1" scenarioB) (Scripted.init undoableScript))
    [].

(** The Undo button of the message is clicked twice before the first
    reversal has returned; then both calls run to their end. *)
Definition doubleClick : list PageEvent :=
  [UndoClicked "m1"; UndoClicked "m1"; Resumed 0; Resumed 0; Resumed 0; Resumed 0].

(** * Properties of the planner *)

Section Planner.
Implicit Types (u : UndoInfo.t) (step : StepAction.t) (steps pre post : list StepAction.t).

Lemma undoStep_cases u step :
  undoStep u step =
  match creates step with
  | Some n => UndoInfo.mk (UndoInfo.sheetsToDelete u ++ [n]) (UndoInfo.cellsToClear u)
  | None =>
      match writes step with
      | Some c =>
          if includes (UndoInfo.sheetsToDelete u) (CellRef.sheet c) then u
          else UndoInfo.mk (UndoInfo.sheetsToDelete u) (UndoInfo.cellsToClear u ++ [c])
      | None => u
      end
  end.
Proof.
  unfold undoStep, creates, writes.
  destruct (isKind ActionKind.createSheet _ && truthy _); [done|].
  destruct (isKind ActionKind.setFormula _ && truthy _ && truthy _); simpl.
  { by destruct (includes _ _). }
  destruct (isKind ActionKind.setValues _ && truthy _ && truthy _); simpl; [|done].
  by destruct (includes _ _).
Qed.

Lemma buildUndoInfo_app pre post :
  buildUndoInfo (pre ++ post) = fold_left undoStep post (buildUndoInfo pre).
Proof. unfold buildUndoInfo. apply fold_left_app. Qed.

Lemma buildUndoInfo_snoc pre step :
  buildUndoInfo (pre ++ [step]) = undoStep (buildUndoInfo pre) step.
Proof. by rewrite buildUndoInfo_app. Qed.

Lemma sheetsToDelete_fold steps u :
  UndoInfo.sheetsToDelete (fold_left undoStep steps u)
  = UndoInfo.sheetsToDelete u ++ createdBy steps.
Proof.
  revert u. induction steps as [|s steps IH]; intros u; simpl.
  - by rewrite app_nil_r.
  - rewrite IH, undoStep_cases. unfold createdBy. simpl.
    destruct (creates s) as [n|]; simpl.
    + by rewrite <- app_assoc.
    + destruct (writes s) as [c|]; [|done].
      by destruct (includes _ _).
Qed.

Lemma sheetsToDelete_createdBy steps :
  UndoInfo.sheetsToDelete (buildUndoInfo steps) = createdBy steps.
Proof. unfold buildUndoInfo. by rewrite sheetsToDelete_fold. Qed.

Lemma isKind_other k k' (a : SheetAction.t) :
  SheetAction.action a = k → k ≠ k' → isKind k' a = false.
Proof. intros <- Hne. unfold isKind. by apply bool_decide_eq_false. Qed.

(** A step that neither creates a sheet nor offers a write leaves the
    log as it is, wherever it stands in the list. *)
Lemma untracked_skip pre step post :
  creates step = None → writes step = None →
  buildUndoInfo (pre ++ step :: post) = buildUndoInfo (pre ++ post).
Proof.
  intros Hc Hw. rewrite !buildUndoInfo_app. simpl.
  by rewrite undoStep_cases, Hc, Hw.
Qed.

Lemma untracked_kind step k :
  SheetAction.action (StepAction.action step) = k →
  k ≠ ActionKind.createSheet → k ≠ ActionKind.setFormula → k ≠ ActionKind.setValues →
  creates step = None ∧ writes step = None.
Proof.
  intros Hk H1 H2 H3. unfold creates, writes.
  by rewrite (isKind_other k ActionKind.createSheet), (isKind_other k ActionKind.setFormula),
    (isKind_other k ActionKind.setValues).
Qed.

Lemma lateCreate_mono written written' steps :
  written ⊆ written' → lateCreate written' steps = false → lateCreate written steps = false.
Proof.
  revert written written'. induction steps as [|s steps IH]; intros W W' Hsub; simpl; [done|].
  destruct (creates s) as [n|].
  - rewrite !orb_false_iff. intros [Hn Hrest]. split; [|by eapply IH].
    unfold includes in *. apply bool_decide_eq_false. apply bool_decide_eq_false in Hn.
    intros Hin. apply Hn. by apply Hsub.
  - destruct (writes s) as [c|]; [|by apply IH].
    apply IH. intros x Hx. apply elem_of_app in Hx as [Hx|Hx]; apply elem_of_app; auto.
Qed.

(** The invariant behind disjointness: the sheets already offered to
    [cellsToClear] are among [written], and no later step creates one
    of them. *)
Lemma disjoint_fold steps u written :
  (∀ n, n ∈ clearedSheets u → n ∈ written) →
  (∀ n, n ∈ UndoInfo.sheetsToDelete u → n ∉ clearedSheets u) →
  lateCreate written steps = false →
  ∀ n, n ∈ UndoInfo.sheetsToDelete (fold_left undoStep steps u) →
       n ∉ clearedSheets (fold_left undoStep steps u).
Proof.
  revert u written. induction steps as [|s steps IH]; intros u W HW Hdis Hlate; simpl; [done|].
  simpl in Hlate. rewrite undoStep_cases.
  destruct (creates s) as [m|].
  - apply orb_false_iff in Hlate as [Hm Hrest].
    apply bool_decide_eq_false in Hm.
    apply (IH _ W); [done| |done].
    unfold clearedSheets in *. simpl. intros n Hn.
    apply elem_of_app in Hn as [Hn|Hn]; [by apply Hdis|].
    apply list_elem_of_singleton in Hn. subst n. intros Hin. by apply Hm, HW.
  - destruct (writes s) as [c|]; [|by apply (IH _ W)].
    destruct (includes _ _) eqn:Hinc.
    + apply (IH _ W); [done|done|]. eapply lateCreate_mono; [|done].
      intros x Hx. apply elem_of_app. by left.
    + apply bool_decide_eq_false in Hinc.
      apply (IH _ (W ++ [CellRef.sheet c])); [| |done].
      * unfold clearedSheets in *. simpl. intros n. rewrite map_app. simpl.
        intros Hn. apply elem_of_app. apply elem_of_app in Hn as [Hn|Hn]; [left; by apply HW|by right].
      * unfold clearedSheets in *. simpl. intros n Hn. rewrite map_app. simpl.
        intros Hn'. apply elem_of_app in Hn' as [Hn'|Hn']; [by eapply Hdis|].
        apply list_elem_of_singleton in Hn'. by subst n.
Qed.
End Planner.

(** * Properties of the result classification *)

Section Classification.
Lemma startsWith_spec (s p : string) :
  startsWith s p = true ↔ ∃ t, s = p +:+ t.
Proof.
  unfold startsWith. revert s. induction p as [|a p IH]; intros s.
  - split; [intros _; by exists s|intros _; by destruct s].
  - destruct s as [|b s]; simpl.
    + split; [done|intros [t Ht]; discriminate].
    + destruct (Ascii.ascii_dec a b) as [->|Hne].
      * rewrite IH. split; intros [t Ht]; exists t.
        -- by rewrite Ht.
        -- by injection Ht.
      * split; [done|intros [t Ht]; by injection Ht].
Qed.

Lemma classify_error (r : string) :
  classify r = Status.error ↔ startsWith r "Error" = true.
Proof. unfold classify. by destruct (startsWith r "Error"). Qed.

Lemma classify_done (r : string) :
  classify r = Status.done ↔ startsWith r "Error" = false.
Proof. unfold classify. by destruct (startsWith r "Error"). Qed.

Lemma classify_not_error (r : string) :
  classify r ≠ Status.error → classify r = Status.done.
Proof. unfold classify. by destruct (startsWith r "Error"). Qed.

Lemma action_failed_not_error (m : string) :
  startsWith ("Action failed: " +:+ m) "Error" = false.
Proof. reflexivity. Qed.
End Classification.

(** * Properties of the orchestrator *)

Section Orchestrator.
Context {World : Type} (host : Host.t World).
Implicit Types (st : AppState.t World) (w : World) (rest steps : list StepAction.t)
  (rs : list string) (msgs : list Message.t) (ss : list StepWithStatus.t).

Lemma outcomeAt_nil i idx (s : StepWithStatus.t) : outcomeAt i [] idx s = s.
Proof. unfold outcomeAt. by case_bool_decide. Qed.

Lemma imap_outcomeAt_nil i ss : imap (outcomeAt i []) ss = ss.
Proof.
  apply list_eq. intros idx. rewrite list_lookup_imap.
  destruct (ss !! idx) as [s|]; simpl; [|done]. by rewrite outcomeAt_nil.
Qed.

Lemma onSteps_id messageId (f : list StepWithStatus.t → list StepWithStatus.t) msg :
  (∀ ss, f ss = ss) → onSteps messageId f msg = msg.
Proof.
  intros Hf. unfold onSteps.
  destruct (Message.steps msg) as [ss|] eqn:Hss; [|done].
  case_bool_decide; [|done]. rewrite Hf.
  destruct msg; simpl in *. by subst.
Qed.

Lemma onSteps_compose messageId (f g : list StepWithStatus.t → list StepWithStatus.t) msg :
  onSteps messageId g (onSteps messageId f msg) = onSteps messageId (g ∘ f) msg.
Proof.
  unfold onSteps.
  destruct (Message.steps msg) as [ss|] eqn:Hss; [|by rewrite Hss].
  case_bool_decide as Hid; [|by rewrite Hss, bool_decide_eq_false_2].
  simpl. by rewrite bool_decide_eq_true_2.
Qed.

Lemma onSteps_ext messageId (f g : list StepWithStatus.t → list StepWithStatus.t) msg :
  (∀ ss, f ss = g ss) → onSteps messageId f msg = onSteps messageId g msg.
Proof.
  intros Hfg. unfold onSteps.
  destruct (Message.steps msg) as [ss|]; [|done]. by rewrite Hfg.
Qed.

Lemma applyResults_nil messageId i msgs : applyResults messageId i [] msgs = msgs.
Proof.
  unfold applyResults. rewrite <- (map_id msgs) at 2. apply map_ext. intros msg.
  apply onSteps_id, imap_outcomeAt_nil.
Qed.

(** Marking step [i] as executing and then with its outcome, and then
    giving the later steps their results, is giving the steps from [i]
    on their results. *)
Lemma applyResults_cons messageId i r rs msgs :
  applyResults messageId (S i) rs
    (markStep messageId i (StepWithStatus.setOutcome (classify r) r)
       (markStep messageId i (StepWithStatus.setStatus Status.executing) msgs))
  = applyResults messageId i (r :: rs) msgs.
Proof.
  unfold applyResults, markStep. rewrite !map_map. apply map_ext. intros msg.
  rewrite !onSteps_compose. apply onSteps_ext. intros ss. simpl.
  apply list_eq. intros idx. rewrite !list_lookup_imap.
  destruct (ss !! idx) as [s|]; simpl; [|done]. f_equal.
  unfold outcomeAt.
  destruct (decide (idx = i)) as [->|Hne].
  - repeat case_bool_decide; try lia. by rewrite Nat.sub_diag.
  - destruct (decide (S i ≤ idx)%nat) as [Hle|Hgt]; repeat case_bool_decide; try lia; [|done].
    by replace (idx - i)%nat with (S (idx - S i)) by lia.
Qed.

Lemma runResults_length rest w : (length (runResults host rest w).1 ≤ length rest)%nat.
Proof.
  revert w. induction rest as [|step rest IH]; intros w; simpl; [done|].
  destruct (executeStepAction host _ w) as [r w'].
  case_bool_decide; simpl; [lia|].
  specialize (IH w'). destruct (runResults host rest w') as [rs w'']. simpl in *. lia.
Qed.

(** The results of a run: all of them successes, one per step; or
    successes followed by one error, which ends the run. *)
Lemma runResults_shape rest w :
  let rs := (runResults host rest w).1 in
  (length rs = length rest ∧ Forall (λ r, classify r = Status.done) rs) ∨
  (∃ rs0 r, rs = rs0 ++ [r] ∧ Forall (λ r, classify r = Status.done) rs0 ∧
            classify r = Status.error ∧ (length rs0 < length rest)%nat).
Proof.
  revert w. induction rest as [|step rest IH]; intros w; simpl.
  - left. split; [done|constructor].
  - destruct (executeStepAction host _ w) as [r w'].
    case_bool_decide as Hr; simpl.
    + right. exists [], r. repeat split; [constructor|done|simpl; lia].
    + specialize (IH w'). destruct (runResults host rest w') as [rs w'']. simpl in *.
      apply classify_not_error in Hr.
      destruct IH as [[Hlen Hall]|(rs0 & r' & -> & Hall & Herr & Hlen)].
      * left. split; [by rewrite Hlen|by constructor].
      * right. exists (r :: rs0), r'. repeat split; [by constructor|done|simpl; lia].
Qed.

(** The loop, in one step: the messages receive the results of the
    run, and the host has been called once per result. *)
Lemma executeLoop_spec messageId rest i st :
  executeLoop host messageId rest i st =
  AppState.mk
    (applyResults messageId i (runResults host rest (AppState.world st)).1
       (AppState.messages st))
    (runResults host rest (AppState.world st)).2
    (AppState.log st ++
     map (λ s, CallExecute (StepAction.action s))
       (take (length (runResults host rest (AppState.world st)).1) rest)).
Proof.
  revert i st. induction rest as [|step rest IH]; intros i st; simpl.
  - rewrite applyResults_nil, app_nil_r. by destruct st.
  - destruct (executeStepAction host _ (AppState.world st)) as [r w'] eqn:Hr.
    case_bool_decide as Herr; simpl.
    + rewrite <- applyResults_cons, applyResults_nil. done.
    + rewrite IH. simpl.
      destruct (runResults host rest w') as [rs w'']. simpl.
      rewrite applyResults_cons. by rewrite <- app_assoc.
Qed.
End Orchestrator.

(** * From a response to the message of its plan *)

Section Response.
Context {World : Type} (host : Host.t World).
Implicit Types (st : AppState.t World) (res : ChatResponse.t)
  (steps : list StepAction.t) (rs : list string) (msg : Message.t).

Lemma executeSteps_spec steps messageId st :
  executeSteps host steps messageId st =
  setMessages (map (attachUndo messageId (buildUndoInfo steps)))
    (executeLoop host messageId steps 0 st).
Proof.
  unfold executeSteps, attachUndo, attached.
  destruct (Nat.ltb 0 _ || Nat.ltb 0 _); [done|].
  unfold setMessages. rewrite map_id. by destruct (executeLoop _ _ _ _ _).
Qed.

Lemma finalSteps_lookup steps rs j :
  finalSteps steps rs !! j =
  (λ step, match rs !! j with
           | Some r => StepWithStatus.mk step (Some (classify r)) (Some r)
           | None => pendingStep step
           end) <$> steps !! j.
Proof.
  unfold finalSteps. rewrite list_lookup_imap, list_lookup_fmap.
  destruct (steps !! j) as [step|]; simpl; [|done]. f_equal.
  unfold outcomeAt. rewrite bool_decide_eq_true_2 by lia. rewrite Nat.sub_0_r.
  by destruct (rs !! j).
Qed.

Lemma finalSteps_base steps rs : map StepWithStatus.base (finalSteps steps rs) = steps.
Proof.
  apply list_eq. intros j. rewrite list_lookup_fmap, finalSteps_lookup.
  destruct (steps !! j) as [step|]; simpl; [|done]. by destruct (rs !! j).
Qed.

Lemma touched_id messageId steps rs msg :
  Message.id (touched messageId steps rs msg) = Message.id msg.
Proof.
  unfold touched, attachUndo, onSteps.
  destruct (attached _), (Message.steps msg); repeat case_bool_decide; done.
Qed.

Lemma touched_undone messageId steps rs msg :
  Message.undone (touched messageId steps rs msg) = Message.undone msg.
Proof.
  unfold touched, attachUndo, onSteps.
  destruct (attached _), (Message.steps msg); repeat case_bool_decide; done.
Qed.

Lemma handleResponse_unfold res st steps :
  ChatResponse.steps res = Some steps → steps ≠ [] →
  handleResponse host res st =
  executeSteps host steps (ChatResponse.message_id res)
    (setMessages
       (λ prev, prev ++
          [Message.mk (ChatResponse.message_id res) Role.assistant
             (ChatResponse.content res) (Some (map pendingStep steps)) None None]) st).
Proof. intros Hsteps Hne. unfold handleResponse. rewrite Hsteps. by destruct steps. Qed.

(** The response of a non-empty plan: the older messages are touched,
    the message of the plan comes last, and the host has been called
    once per result of the run. *)
Lemma handleResponse_plan res st steps :
  ChatResponse.steps res = Some steps → steps ≠ [] →
  handleResponse host res st =
  AppState.mk
    (map (touched (ChatResponse.message_id res) steps
            (runResults host steps (AppState.world st)).1) (AppState.messages st)
     ++ [finalMessage res steps (runResults host steps (AppState.world st)).1])
    (runResults host steps (AppState.world st)).2
    (AppState.log st ++
     map (λ s, CallExecute (StepAction.action s))
       (take (length (runResults host steps (AppState.world st)).1) steps)).
Proof.
  intros Hsteps Hne. rewrite (handleResponse_unfold _ _ steps) by done.
  rewrite executeSteps_spec, executeLoop_spec. unfold setMessages. simpl.
  f_equal. unfold applyResults. rewrite map_map, map_app. f_equal. simpl. f_equal.
  unfold finalMessage, finalSteps, attachUndo, onSteps. simpl.
  rewrite !(bool_decide_eq_true_2 (ChatResponse.message_id res = _)) by done. simpl.
  destruct (attached _) eqn:Hatt; simpl; [|done].
  unfold attached in Hatt. by destruct (Nat.ltb 0 _ || Nat.ltb 0 _); simplify_eq.
Qed.

(** A response without a plan adds a message without steps, and calls
    the host at most for its single sheet action. *)
Lemma handleResponse_plain res st :
  ChatResponse.steps res = None ∨ ChatResponse.steps res = Some [] →
  ∃ content w l,
    handleResponse host res st =
    AppState.mk
      (AppState.messages st ++
       [Message.mk (ChatResponse.message_id res) Role.assistant content None None None])
      w (AppState.log st ++ l) ∧
    ∀ x, base.filter (λ c, ∃ u, c = CallUndo x u) l = [].
Proof.
  intros Hsteps. unfold handleResponse.
  assert (∃ content w l,
    match ChatResponse.sheet_action res with
    | Some a =>
        let '(actionResult, w) := executeSheetAction host a (AppState.world st) in
        (ChatResponse.content res +:+ newline +:+ newline +:+ "> " +:+ actionResult,
         w, AppState.log st ++ [CallExecute a])
    | None => (ChatResponse.content res, AppState.world st, AppState.log st)
    end = (content, w, AppState.log st ++ l) ∧
    ∀ x, base.filter (λ c, ∃ u, c = CallUndo x u) l = []) as (content & w & l & Heq & Hl).
  { destruct (ChatResponse.sheet_action res) as [a|].
    - destruct (executeSheetAction host a _) as [r w]. by eexists _, _, [_].
    - exists (ChatResponse.content res), (AppState.world st), [].
      by rewrite app_nil_r. }
  exists content, w, l. split; [|done].
  destruct Hsteps as [-> | ->]; by rewrite Heq.
Qed.
(** After a run the steps are all done, or done up to the step whose
    result was classified as an error and pending after it. *)
Lemma finalSteps_outcome steps w :
  let rs := (runResults host steps w).1 in
  (allDone (finalSteps steps rs) ∧ length rs = length steps) ∨
  (∃ k, haltedAt k (finalSteps steps rs) ∧ length rs = S k).
Proof.
  intros rs. destruct (runResults_shape host steps w) as
    [[Hlen Hall]|(rs0 & r & Hrs & Hall & Herr & Hlen)]; fold rs in Hlen, Hall || fold rs in Hrs.
  - left. split; [|done]. intros j s. rewrite finalSteps_lookup.
    destruct (steps !! j) as [step|] eqn:Hj; simpl; [|done].
    destruct (rs !! j) as [r|] eqn:Hr.
    + intros [= <-]. simpl. f_equal. exact (Forall_lookup_1 _ _ _ _ Hall Hr).
    + apply lookup_ge_None in Hr. apply lookup_lt_Some in Hj. lia.
  - right. exists (length rs0). rewrite Hrs. split; [|rewrite length_app; simpl; lia].
    repeat split.
    + destruct (lookup_lt_is_Some_2 steps (length rs0) Hlen) as [step Hstep].
      eexists. rewrite finalSteps_lookup, Hstep. simpl.
      rewrite list_lookup_middle by done. split; [done|]. simpl. by rewrite Herr.
    + intros j s. rewrite finalSteps_lookup.
      destruct (steps !! j) as [step|]; simpl; [|done]. intros [= <-] Hj.
      rewrite lookup_app_l by done.
      destruct (lookup_lt_is_Some_2 rs0 j Hj) as [r' Hr']. rewrite Hr'. simpl.
      f_equal. exact (Forall_lookup_1 _ _ _ _ Hall Hr').
    + intros j s. rewrite finalSteps_lookup.
      destruct (steps !! j) as [step|]; simpl; [|done]. intros [= <-] Hj.
      rewrite (lookup_ge_None_2 (rs0 ++ [r]) j); [done|].
      rewrite length_app. simpl. lia.
Qed.

Lemma haltedAt_one_error k (ss : list StepWithStatus.t) j s :
  haltedAt k ss → ss !! j = Some s →
  StepWithStatus._status s = Some Status.error → j = k.
Proof.
  intros (_ & Hbefore & Hafter) Hj Herr.
  destruct (decide (j < k)%nat) as [Hlt|Hge].
  - specialize (Hbefore j s Hj Hlt). congruence.
  - destruct (decide (k < j)%nat) as [Hgt|Hle]; [|lia].
    specialize (Hafter j s Hj Hgt). congruence.
Qed.
End Response.

(** * Properties of the event handlers *)

Section Handlers.
Context {World : Type} (host : Host.t World).
Implicit Types (st : AppState.t World) (e : Event) (es : list Event)
  (msg m : Message.t) (msgs extra : list Message.t) (x y : string) (l : list Call).

#[local] Abbreviation hasId x := (λ m : Message.t, bool_decide (Message.id m = x)).

Lemma find_app {A} (P : A → bool) (l1 l2 : list A) :
  List.find P (l1 ++ l2) =
  match List.find P l1 with Some a => Some a | None => List.find P l2 end.
Proof. induction l1 as [|a l1 IH]; simpl; [done|]. by destruct (P a). Qed.

Lemma find_map_id (g : Message.t → Message.t) x msgs :
  (∀ m, Message.id (g m) = Message.id m) →
  List.find (hasId x) (map g msgs) = g <$> List.find (hasId x) msgs.
Proof.
  intros Hg. induction msgs as [|m msgs IH]; simpl; [done|].
  rewrite Hg. by destruct (bool_decide (Message.id m = x)).
Qed.

Lemma undoneFlag_grow (g : Message.t → Message.t) x st extra (w : World) l :
  (∀ m, Message.id (g m) = Message.id m) →
  (∀ m, Message.isUndone m = true → Message.isUndone (g m) = true) →
  undoneFlag x st = true →
  undoneFlag x (AppState.mk (map g (AppState.messages st) ++ extra) w l) = true.
Proof.
  intros Hid Hmono. unfold undoneFlag. simpl.
  rewrite find_app, find_map_id by done.
  destruct (List.find _ (AppState.messages st)) as [m|]; simpl; [|done].
  apply Hmono.
Qed.

Lemma undoCalls_app x l1 l2 : undoCalls x (l1 ++ l2) = undoCalls x l1 ++ undoCalls x l2.
Proof. apply filter_app. Qed.

Lemma undoCalls_execute x (steps : list StepAction.t) :
  undoCalls x (map (λ s, CallExecute (StepAction.action s)) steps) = [].
Proof. by induction steps. Qed.

Lemma undoCalls_other x y (u : UndoInfo.t) : y ≠ x → undoCalls x [CallUndo y u] = [].
Proof.
  intros Hne. unfold undoCalls. rewrite filter_cons.
  destruct (decide _) as [[u' Hu]|]; [congruence|done].
Qed.

Lemma undoCalls_same x (u : UndoInfo.t) : undoCalls x [CallUndo x u] = [CallUndo x u].
Proof.
  unfold undoCalls. rewrite filter_cons.
  destruct (decide _) as [|Hn]; [done|]. destruct Hn. by exists u.
Qed.

Lemma markUndone_id x m : Message.id (markUndone x m) = Message.id m.
Proof. unfold markUndone. by case_bool_decide. Qed.

Lemma markUndone_mono x m :
  Message.isUndone m = true → Message.isUndone (markUndone x m) = true.
Proof. unfold markUndone. by case_bool_decide. Qed.

(** [handleUndo] either returns at its guard, or calls the host once
    and marks the messages of that id, whatever the host answers. *)
Lemma handleUndo_cases y st :
  handleUndo host y st = st ∨
  ∃ msg u,
    List.find (hasId y) (AppState.messages st) = Some msg ∧
    Message.undoInfo msg = Some u ∧ Message.isUndone msg = false ∧
    handleUndo host y st =
    let r := undoSheetActionsGAS host u (AppState.world st) in
    let i := Host.randomUUID host r.2 in
    AppState.mk
      (map (markUndone y) (AppState.messages st) ++
       [Message.mk i.1 Role.assistant ("Undo complete: " +:+ r.1) None None None])
      i.2 (AppState.log st ++ [CallUndo y u]).
Proof.
  unfold handleUndo.
  destruct (List.find _ _) as [msg|]; [|by left].
  destruct (Message.undoInfo msg) as [u|] eqn:Hu; [|by left].
  destruct (Message.isUndone msg) eqn:Hd; [by left|].
  right. exists msg, u. repeat split; [done..|].
  destruct (undoSheetActionsGAS host u _) as [result w1]. simpl.
  by destruct (Host.randomUUID host w1) as [uuid w2].
Qed.

(** Every handler maps over the messages and appends to them; the undo
    calls of the log grow only when [handleUndo] passes its guard. *)
Lemma handle_cases e st :
  (∃ (g : Message.t → Message.t) extra (w : World) l,
      handle host e st = AppState.mk (map g (AppState.messages st) ++ extra) w
                           (AppState.log st ++ l) ∧
      (∀ m, Message.id (g m) = Message.id m ∧ Message.undone (g m) = Message.undone m) ∧
      (∀ x, undoCalls x l = []) ∧
      (∀ m, m ∈ extra → Message.undone m = None)) ∨
  (∃ y msg u new (w : World),
      e = ClickUndo y ∧
      List.find (hasId y) (AppState.messages st) = Some msg ∧
      Message.undoInfo msg = Some u ∧ Message.isUndone msg = false ∧
      handle host e st = AppState.mk (map (markUndone y) (AppState.messages st) ++ [new]) w
                           (AppState.log st ++ [CallUndo y u]) ∧
      Message.undone new = None).
Proof.
  destruct e as [res|y]; simpl.
  - left. destruct (ChatResponse.steps res) as [[|s0 steps0]|] eqn:Hsteps.
    + destruct (handleResponse_plain host res st) as (content & w & l & -> & Hl); [by right|].
      exists (λ m, m), [Message.mk (ChatResponse.message_id res) Role.assistant content
                       None None None], w, l.
      rewrite map_id. repeat split; [done|].
      intros m Hm. apply list_elem_of_singleton in Hm. by subst m.
    + rewrite (handleResponse_plan host res st (s0 :: steps0)) by done.
      eexists (touched _ _ _), [_], _, _. split; [done|]. repeat split.
      * apply touched_id.
      * apply touched_undone.
      * intros x. apply undoCalls_execute.
      * intros m Hm. apply list_elem_of_singleton in Hm. by subst m.
    + destruct (handleResponse_plain host res st) as (content & w & l & -> & Hl); [by left|].
      exists (λ m, m), [Message.mk (ChatResponse.message_id res) Role.assistant content
                       None None None], w, l.
      rewrite map_id. repeat split; [done|].
      intros m Hm. apply list_elem_of_singleton in Hm. by subst m.
  - destruct (handleUndo_cases y st) as [Hsame|(msg & u & Hfind & Hu & Hd & Heq)].
    + left. exists (λ m, m), [], (AppState.world st), [].
      rewrite map_id, !app_nil_r, Hsame. repeat split; [by destruct st|].
      intros m Hm. by apply elem_of_nil in Hm.
    + right. eexists y, msg, u, _, _. by repeat split.
Qed.

(** Once the flag of a message is set, no handler calls the host for
    its undo, and the flag stays set. *)
Lemma handle_gated e st x :
  undoneFlag x st = true →
  undoCalls x (AppState.log (handle host e st)) = undoCalls x (AppState.log st) ∧
  undoneFlag x (handle host e st) = true.
Proof.
  intros Hflag.
  destruct (handle_cases e st) as
    [(g & extra & w & l & -> & Hg & Hl & _)|(y & msg & u & new & w & -> & Hfind & Hu & Hd & -> & _)].
  - simpl. rewrite undoCalls_app, Hl, app_nil_r. split; [done|].
    apply undoneFlag_grow; [apply Hg| |done].
    intros m. unfold Message.isUndone. by rewrite (proj2 (Hg m)).
  - simpl. destruct (decide (y = x)) as [->|Hne].
    + unfold undoneFlag in Hflag. rewrite Hfind in Hflag. congruence.
    + rewrite undoCalls_app, undoCalls_other, app_nil_r by done. split; [done|].
      apply undoneFlag_grow; [apply markUndone_id|apply markUndone_mono|done].
Qed.

Lemma run_gated es st x :
  undoneFlag x st = true →
  undoCalls x (AppState.log (run host es st)) = undoCalls x (AppState.log st) ∧
  undoneFlag x (run host es st) = true.
Proof.
  revert st. induction es as [|e es IH]; intros st Hflag; simpl; [done|].
  destruct (handle_gated e st x Hflag) as [Hcalls Hflag'].
  destruct (IH _ Hflag') as [Hcalls' Hflag'']. split; [congruence|done].
Qed.

(** A handler issues at most one undo call for a message, and leaves
    its flag set when it does. *)
Lemma handle_undoCalls e st x :
  undoCalls x (AppState.log (handle host e st)) = undoCalls x (AppState.log st) ∨
  (∃ u, undoCalls x (AppState.log (handle host e st))
        = undoCalls x (AppState.log st) ++ [CallUndo x u]) ∧
  undoneFlag x st = false ∧ undoneFlag x (handle host e st) = true.
Proof.
  destruct (handle_cases e st) as
    [(g & extra & w & l & -> & Hg & Hl & _)|(y & msg & u & new & w & -> & Hfind & Hu & Hd & -> & _)].
  - left. simpl. by rewrite undoCalls_app, Hl, app_nil_r.
  - simpl. destruct (decide (y = x)) as [->|Hne].
    + right. rewrite undoCalls_app, undoCalls_same. split; [by exists u|].
      unfold undoneFlag. simpl. rewrite Hfind. split; [done|].
      rewrite find_app, find_map_id, Hfind by apply markUndone_id. simpl.
      unfold markUndone.
      assert (Message.id msg = x) as Hid.
      { apply List.find_some in Hfind as [_ Hid]. by apply bool_decide_eq_true in Hid. }
      by rewrite bool_decide_eq_true_2.
    + left. by rewrite undoCalls_app, undoCalls_other, app_nil_r.
Qed.

Lemma run_undoCalls es st x :
  (length (undoCalls x (AppState.log (run host es st)))
   ≤ length (undoCalls x (AppState.log st)) + 1)%nat.
Proof.
  revert st. induction es as [|e es IH]; intros st; simpl; [lia|].
  destruct (handle_undoCalls e st x) as [Heq|([u Heq] & _ & Hflag)].
  - specialize (IH (handle host e st)). rewrite Heq in IH. done.
  - destruct (run_gated es _ x Hflag) as [Hcalls _].
    rewrite Hcalls, Heq, length_app. simpl. lia.
Qed.
End Handlers.

(** * The orchestrator: statuses, results and the attached log *)

Section OrchestratorClaims.
Context {World : Type} (host : Host.t World).
Implicit Types (st : AppState.t World) (res : ChatResponse.t)
  (steps rest : list StepAction.t) (step : StepAction.t).

Lemma runResults_head step rest (w0 w : World) result :
  executeStepAction host (StepAction.action step) w0 = (result, w) →
  ∃ rs', (runResults host (step :: rest) w0).1 = result :: rs'.
Proof.
  intros Hexec. simpl. rewrite Hexec. case_bool_decide; [by exists []|].
  destruct (runResults host rest w) as [rs' w']. by exists rs'.
Qed.

(** What [executeSteps] attaches, on every run: [buildUndoInfo] of the
    whole step list of the plan, as the response delivered it, also when
    the loop was left at the first error; the log is attached only when
    it is not empty. *)
Lemma undo_log_built_from_whole_plan res st steps :
  ChatResponse.steps res = Some steps → steps ≠ [] →
  ∃ older m ss,
    AppState.messages (handleResponse host res st) = older ++ [m] ∧
    Message.id m = ChatResponse.message_id res ∧
    Message.steps m = Some ss ∧
    map StepWithStatus.base ss = steps ∧
    Message.undoInfo m = attached (buildUndoInfo (map StepWithStatus.base ss)).
Proof.
  intros Hsteps Hne. rewrite (handleResponse_plan host res st steps) by done. simpl.
  eexists _, _, _. split; [done|]. simpl.
  by rewrite finalSteps_base.
Qed.

(** C2.  After the run of a plan, either every step is done and the
    host was called once per step, in order; or exactly one step is in
    error, the steps before it are done, the steps after it are pending,
    and the host was called for the steps up to the failed one only. *)
Theorem run_stops_at_first_error res st steps :
  ChatResponse.steps res = Some steps → steps ≠ [] →
  ∃ older m ss,
    AppState.messages (handleResponse host res st) = older ++ [m] ∧
    Message.id m = ChatResponse.message_id res ∧
    Message.steps m = Some ss ∧
    map StepWithStatus.base ss = steps ∧
    ((allDone ss ∧
      AppState.log (handleResponse host res st) =
      AppState.log st ++ map (λ s, CallExecute (StepAction.action s)) steps)
     ∨
     (∃ k, haltedAt k ss ∧
           (∀ j s, ss !! j = Some s →
                   StepWithStatus._status s = Some Status.error → j = k) ∧
           AppState.log (handleResponse host res st) =
           AppState.log st ++
           map (λ s, CallExecute (StepAction.action s)) (take (S k) steps))).
Proof.
  intros Hsteps Hne. rewrite (handleResponse_plan host res st steps) by done. simpl.
  eexists _, _, _. split; [done|]. simpl. repeat split; [apply finalSteps_base|].
  destruct (finalSteps_outcome host steps (AppState.world st)) as [[Hdone Hlen]|(k & Hhalt & Hlen)].
  - left. split; [done|]. by rewrite Hlen, firstn_all.
  - right. exists k. split; [done|]. split; [|by rewrite Hlen].
    intros j s. by apply haltedAt_one_error.
Qed.

(** C5.  Whatever string the call made for a step returns, the step
    receives status [error] when the string begins with "Error" and
    [done] otherwise, and the string becomes its result text; this is
    the state of the step when the loop ends. *)
Theorem step_classified_by_prefix messageId step rest i st result (w : World) :
  executeStepAction host (StepAction.action step) (AppState.world st) = (result, w) →
  (startsWith result "Error" = true ↔ ∃ t, result = "Error" +:+ t) ∧
  ∀ p msg ss s,
    AppState.messages st !! p = Some msg →
    Message.id msg = messageId →
    Message.steps msg = Some ss →
    ss !! i = Some s →
    ∃ msg' ss',
      AppState.messages (executeLoop host messageId (step :: rest) i st) !! p = Some msg' ∧
      Message.steps msg' = Some ss' ∧
      ss' !! i =
      Some (StepWithStatus.mk (StepWithStatus.base s)
              (Some (if startsWith result "Error" then Status.error else Status.done))
              (Some result)).
Proof.
  intros Hexec. split; [apply startsWith_spec|].
  intros p msg ss s Hp Hid Hss Hs.
  rewrite executeLoop_spec.
  destruct (runResults_head step rest _ _ _ Hexec) as [rs' ->].
  simpl. unfold applyResults. rewrite list_lookup_fmap, Hp. simpl.
  unfold onSteps. rewrite Hss, bool_decide_eq_true_2 by done.
  eexists _, _. split; [done|]. split; [done|].
  rewrite list_lookup_imap, Hs. simpl. unfold outcomeAt.
  rewrite bool_decide_eq_true_2 by lia. by rewrite Nat.sub_diag.
Qed.

(** C9.  When the host's failure handler fires, or the page is not
    inside Google Sheets, [executeSheetAction] resolves with "Action
    failed: ..." or "Not running in Google Sheets"; neither begins with
    "Error", so at the end of the loop the step is in status done with
    that text as its result, and the loop has gone on: the next step has
    been called, in the world the failed call left, and carries the
    status and the result of that call. *)
Theorem failed_call_counts_as_done messageId step rest i st reply (w : World) :
  Host.runExecuteSheetAction host (StepAction.action step) (AppState.world st) = (reply, w) →
  (∀ r, reply ≠ Success r) →
  let result :=
    match reply with
    | Failure message => "Action failed: " +:+ message
    | _ => "Not running in Google Sheets"
    end in
  let st' := executeLoop host messageId (step :: rest) i st in
  executeSheetAction host (StepAction.action step) (AppState.world st) = (result, w) ∧
  startsWith result "Error" = false ∧
  (∀ p msg ss s,
     AppState.messages st !! p = Some msg →
     Message.id msg = messageId →
     Message.steps msg = Some ss →
     ss !! i = Some s →
     ∃ msg' ss',
       AppState.messages st' !! p = Some msg' ∧
       Message.steps msg' = Some ss' ∧
       ss' !! i =
       Some (StepWithStatus.mk (StepWithStatus.base s) (Some Status.done) (Some result)) ∧
       ∀ next rest' s2,
         rest = next :: rest' → ss !! S i = Some s2 →
         let r2 := (executeStepAction host (StepAction.action next) w).1 in
         ss' !! S i =
         Some (StepWithStatus.mk (StepWithStatus.base s2) (Some (classify r2)) (Some r2))) ∧
  (∀ next rest',
     rest = next :: rest' →
     ∃ calls,
       AppState.log st' =
       AppState.log st
       ++ [CallExecute (StepAction.action step); CallExecute (StepAction.action next)]
       ++ calls) ∧
  st' =
  executeLoop host messageId rest (S i)
    (AppState.mk
       (markStep messageId i (StepWithStatus.setOutcome Status.done result)
          (markStep messageId i (StepWithStatus.setStatus Status.executing)
             (AppState.messages st)))
       w (AppState.log st ++ [CallExecute (StepAction.action step)])).
Proof.
  intros Hreply Hfail result st'.
  assert (executeSheetAction host (StepAction.action step) (AppState.world st) = (result, w))
    as Hexec.
  { unfold executeSheetAction. rewrite Hreply. subst result.
    destruct reply as [r|message|]; [by destruct (Hfail r)|done..]. }
  assert (startsWith result "Error" = false) as Hprefix.
  { subst result. by destruct reply. }
  assert (classify result = Status.done) as Hdone by by apply classify_done.
  assert ((runResults host (step :: rest) (AppState.world st)).1
          = result :: (runResults host rest w).1) as Hrs.
  { simpl. unfold executeStepAction. rewrite Hexec, Hdone.
    rewrite bool_decide_eq_false_2 by done. by destruct (runResults host rest w). }
  split; [done|]. split; [done|]. split; [|split].
  - intros p msg ss s Hp Hid Hss Hs. subst st'.
    rewrite executeLoop_spec, Hrs.
    simpl. unfold applyResults. rewrite list_lookup_fmap, Hp. simpl.
    unfold onSteps. rewrite Hss, bool_decide_eq_true_2 by done.
    eexists _, _. split; [done|]. split; [done|]. split.
    + rewrite list_lookup_imap, Hs. simpl. unfold outcomeAt.
      rewrite bool_decide_eq_true_2 by lia. rewrite Nat.sub_diag. simpl.
      by rewrite Hdone.
    + intros next rest' s2 -> Hs2.
      destruct (executeStepAction host (StepAction.action next) w) as [r w2] eqn:Hnext.
      destruct (runResults_head next rest' w w2 r Hnext) as [rs' Hhead].
      rewrite Hhead, list_lookup_imap, Hs2. simpl. unfold outcomeAt.
      rewrite bool_decide_eq_true_2 by lia.
      by replace (S i - i)%nat with 1%nat by lia.
  - intros next rest' ->. subst st'.
    destruct (executeStepAction host (StepAction.action next) w) as [r w2] eqn:Hnext.
    destruct (runResults_head next rest' w w2 r Hnext) as [rs' Hhead].
    rewrite executeLoop_spec, Hrs, Hhead. simpl.
    exists (map (λ s, CallExecute (StepAction.action s)) (take (length rs') rest')).
    done.
  - subst st'. simpl. unfold executeStepAction. rewrite Hexec.
    unfold classify. rewrite Hprefix. done.
Qed.
End OrchestratorClaims.

(** * The planner: what enters the reversal log *)

Section PlannerClaims.
Implicit Types (step : StepAction.t) (steps pre post : list StepAction.t).

(** C3 (as amended).  When a plan creates its sheets first, that is,
    when no [createSheet] step names a sheet that an earlier
    [setFormula] or [setValues] step wrote to, no sheet name is both in
    [sheetsToDelete] and the sheet of an entry of [cellsToClear]. *)
Theorem log_disjoint_when_created_first steps :
  createsFirst steps = true →
  ∀ n, n ∈ UndoInfo.sheetsToDelete (buildUndoInfo steps) →
       n ∉ clearedSheets (buildUndoInfo steps).
Proof.
  intros Hfirst. unfold createsFirst in Hfirst. apply negb_true_iff in Hfirst.
  apply (disjoint_fold steps UndoInfo.empty []); [|by intros n Hn; apply elem_of_nil in Hn|done].
  intros n Hn. simpl in Hn. by apply elem_of_nil in Hn.
Qed.

(** C6 (as amended).  An [autoFillDown] step adds nothing to the
    reversal log, whatever its fields and wherever it stands: the
    planner looks at [createSheet], [setFormula] and [setValues] only.
    A [setValues] step with a sheet and a range, whose sheet is not yet
    in [sheetsToDelete], appends its (sheet, range) pair. *)
Theorem autoFillDown_adds_nothing :
  (∀ pre step post,
      SheetAction.action (StepAction.action step) = ActionKind.autoFillDown →
      buildUndoInfo (pre ++ step :: post) = buildUndoInfo (pre ++ post)) ∧
  (∀ pre step s r,
      SheetAction.action (StepAction.action step) = ActionKind.setValues →
      SheetAction.sheet (StepAction.action step) = Some s → s ≠ "" →
      SheetAction.range (StepAction.action step) = Some r → r ≠ "" →
      s ∉ UndoInfo.sheetsToDelete (buildUndoInfo pre) →
      buildUndoInfo (pre ++ [step]) =
      UndoInfo.mk (UndoInfo.sheetsToDelete (buildUndoInfo pre))
        (UndoInfo.cellsToClear (buildUndoInfo pre) ++ [CellRef.mk s r])).
Proof.
  split.
  - intros pre step post Hkind.
    destruct (untracked_kind step _ Hkind) as [Hc Hw]; [done..|].
    by apply untracked_skip.
  - intros pre step s r Hkind Hs Hsne Hr Hrne Hnew.
    rewrite buildUndoInfo_snoc. unfold undoStep, isKind, truthy, includes.
    rewrite Hkind, Hs, Hr. simpl.
    rewrite !(proj2 (String.eqb_neq _ _)) by done. simpl.
    by rewrite bool_decide_eq_false_2.
Qed.

(** C7.  A [setFormula] or [setValues] write into a sheet created by an
    earlier step of the plan adds no entry; a write into a sheet that no
    earlier step created is appended to [cellsToClear], after the
    entries of the steps before it; and the two plans of the scenarios
    give the logs stated, which are the logs attached to their messages
    when every step of the run is done. *)
Theorem writes_tracked_unless_sheet_created :
  (∀ pre step post c,
      writes step = Some c → CellRef.sheet c ∈ createdBy pre →
      buildUndoInfo (pre ++ step :: post) = buildUndoInfo (pre ++ post)) ∧
  (∀ pre step c,
      writes step = Some c → CellRef.sheet c ∉ createdBy pre →
      buildUndoInfo (pre ++ [step]) =
      UndoInfo.mk (createdBy pre) (UndoInfo.cellsToClear (buildUndoInfo pre) ++ [c])) ∧
  buildUndoInfo scenarioA = UndoInfo.mk ["Summary"] [] ∧
  buildUndoInfo scenarioB =
    UndoInfo.mk [] [CellRef.mk "Sheet1" "A1:B3"; CellRef.mk "Sheet1" "C1"] ∧
  (∀ World (host : Host.t World) (st : AppState.t World) res steps,
      ChatResponse.steps res = Some steps →
      steps = scenarioA ∨ steps = scenarioB →
      ∃ older m ss,
        AppState.messages (handleResponse host res st) = older ++ [m] ∧
        Message.id m = ChatResponse.message_id res ∧
        Message.steps m = Some ss ∧
        (allDone ss → Message.undoInfo m = Some (buildUndoInfo steps))).
Proof.
  assert (∀ step c, writes step = Some c → creates step = None) as Hwc.
  { intros step c. unfold writes, creates, isKind.
    destruct (decide (SheetAction.action (StepAction.action step) = ActionKind.createSheet))
      as [->|Hne]; [done|].
    by rewrite (bool_decide_eq_false_2 _ Hne). }
  split; [|split; [|split; [|split]]].
  - intros pre step post c Hw Hin. rewrite !buildUndoInfo_app. simpl.
    rewrite undoStep_cases, (Hwc _ _ Hw), Hw, sheetsToDelete_createdBy.
    unfold includes. by rewrite bool_decide_eq_true_2.
  - intros pre step c Hw Hnotin. rewrite buildUndoInfo_snoc.
    rewrite undoStep_cases, (Hwc _ _ Hw), Hw, sheetsToDelete_createdBy.
    unfold includes. by rewrite bool_decide_eq_false_2.
  - reflexivity.
  - reflexivity.
  - intros World host st res steps Hsteps Hplan.
    assert (steps ≠ []) as Hne by (destruct Hplan; by subst).
    rewrite (handleResponse_plan host res st steps) by done. simpl.
    eexists _, _, _. split; [done|]. simpl. repeat split.
    intros _. by destruct Hplan; subst.
Qed.

(** A [setValue] step adds nothing to the reversal log, and a plan of
    [setValue] steps only has the empty log. *)
Lemma setValue_skipped pre step post :
  SheetAction.action (StepAction.action step) = ActionKind.setValue →
  buildUndoInfo (pre ++ step :: post) = buildUndoInfo (pre ++ post).
Proof.
  intros Hkind. destruct (untracked_kind step _ Hkind) as [Hc Hw]; [done..|].
  by apply untracked_skip.
Qed.

Lemma setValue_only_empty steps :
  Forall (λ step, SheetAction.action (StepAction.action step) = ActionKind.setValue) steps →
  buildUndoInfo steps = UndoInfo.empty.
Proof.
  induction 1 as [|step steps Hkind _ IH]; [done|].
  change (step :: steps) with ([] ++ step :: steps).
  by rewrite (setValue_skipped [] step steps).
Qed.
End PlannerClaims.

Section SetValueClaim.
Context {World : Type} (host : Host.t World).

(** C10.  [setValue] steps contribute no entry to the reversal log: a
    [setValue] step can be dropped from any list without changing the
    log, a plan of [setValue] steps only has the empty log, and after
    its run the message has no [undoInfo], so that the Undo button is
    not shown for it. *)
Theorem setValue_not_undoable :
  (∀ pre step post,
      SheetAction.action (StepAction.action step) = ActionKind.setValue →
      buildUndoInfo (pre ++ step :: post) = buildUndoInfo (pre ++ post)) ∧
  (∀ steps,
      Forall (λ step, SheetAction.action (StepAction.action step) = ActionKind.setValue)
        steps →
      buildUndoInfo steps = UndoInfo.mk [] []) ∧
  (∀ res (st : AppState.t World) steps,
      ChatResponse.steps res = Some steps → steps ≠ [] →
      Forall (λ step, SheetAction.action (StepAction.action step) = ActionKind.setValue)
        steps →
      ∃ older m,
        AppState.messages (handleResponse host res st) = older ++ [m] ∧
        Message.id m = ChatResponse.message_id res ∧
        Message.undoInfo m = None ∧
        Message.showsUndoButton m = false).
Proof.
  split; [apply setValue_skipped|]. split; [apply setValue_only_empty|].
  intros res st steps Hsteps Hne Hall.
  rewrite (handleResponse_plan host res st steps) by done. simpl.
  eexists _, _. split; [done|]. unfold finalMessage. simpl.
  rewrite (setValue_only_empty steps Hall). split; [done|]. split; [done|].
  unfold Message.showsUndoButton. simpl. apply andb_false_r.
Qed.
End SetValueClaim.

(** * The Undo control: gate and flag *)

Section UndoClaims.
Context {World : Type} (host : Host.t World).
Implicit Types (st : AppState.t World) (e : Event) (es : list Event)
  (m msg : Message.t) (x : string).

Lemma handle_position e st p m :
  AppState.messages st !! p = Some m →
  ∃ m',
    AppState.messages (handle host e st) !! p = Some m' ∧
    Message.id m' = Message.id m ∧
    (Message.isUndone m = true → Message.isUndone m' = true) ∧
    (Message.isUndone m = false → Message.isUndone m' = true →
     e = ClickUndo (Message.id m) ∧
     ∃ u, AppState.log (handle host e st) =
          AppState.log st ++ [CallUndo (Message.id m) u]).
Proof.
  intros Hp.
  destruct (handle_cases host e st) as
    [(g & extra & w & l & -> & Hg & _ & _)|(y & msg & u & new & w & -> & _ & _ & _ & -> & _)];
    simpl.
  - exists (g m). rewrite lookup_app_l by (rewrite length_map; by eapply lookup_lt_Some).
    rewrite list_lookup_fmap, Hp. simpl.
    destruct (Hg m) as [Hid Hundone]. unfold Message.isUndone. rewrite Hundone.
    split; [done|]. split; [done|]. split; [done|]. intros H0 H1. congruence.
  - exists (markUndone y m).
    rewrite lookup_app_l by (rewrite length_map; by eapply lookup_lt_Some).
    rewrite list_lookup_fmap, Hp. simpl.
    split; [done|]. split; [apply markUndone_id|]. split; [apply markUndone_mono|].
    unfold markUndone. case_bool_decide as Hy; [|congruence].
    intros _ _. subst y. split; [done|]. by exists u.
Qed.

(** C8 (as amended).  A message enters the list with its [undone] flag
    unset; a handler sets the flag of a message only when it is
    [handleUndo] for that message and has just issued the undo call,
    and it then sets it whatever the host answered; a flag that is set
    is never unset again, so that it flips once at most. *)
Theorem undone_flag_set_once_after_call :
  (∀ e st, ∃ older new,
      AppState.messages (handle host e st) = older ++ new ∧
      length older = length (AppState.messages st) ∧
      ∀ m, m ∈ new → Message.undone m = None) ∧
  (∀ e st p m,
      AppState.messages st !! p = Some m →
      ∃ m',
        AppState.messages (handle host e st) !! p = Some m' ∧
        Message.id m' = Message.id m ∧
        (Message.isUndone m = true → Message.isUndone m' = true) ∧
        (Message.isUndone m = false → Message.isUndone m' = true →
         e = ClickUndo (Message.id m) ∧
         ∃ u, AppState.log (handle host e st) =
              AppState.log st ++ [CallUndo (Message.id m) u])) ∧
  (∀ es st p m,
      AppState.messages st !! p = Some m → Message.isUndone m = true →
      ∃ m',
        AppState.messages (run host es st) !! p = Some m' ∧
        Message.id m' = Message.id m ∧ Message.isUndone m' = true) ∧
  (∀ x st msg u,
      List.find (λ m, bool_decide (Message.id m = x)) (AppState.messages st) = Some msg →
      Message.undoInfo msg = Some u → Message.isUndone msg = false →
      undoneFlag x (handleUndo host x st) = true ∧
      AppState.log (handleUndo host x st) = AppState.log st ++ [CallUndo x u]).
Proof.
  repeat apply conj.
  - intros e st.
    destruct (handle_cases host e st) as
      [(g & extra & w & l & -> & _ & _ & Hnew)|(y & msg & u & new & w & _ & _ & _ & _ & -> & Hnew)];
      simpl.
    + exists (map g (AppState.messages st)), extra. by rewrite length_map.
    + exists (map (markUndone y) (AppState.messages st)), [new]. rewrite length_map.
      split; [done|]. split; [done|].
      intros m Hm. apply list_elem_of_singleton in Hm. by subst m.
  - apply handle_position.
  - intros es. induction es as [|e es IH]; intros st p m Hp Hm; simpl.
    + by exists m.
    + destruct (handle_position e st p m Hp) as (m1 & Hp1 & Hid1 & Hmono & _).
      destruct (IH _ p m1 Hp1 (Hmono Hm)) as (m' & Hp' & Hid' & Hm').
      exists m'. split; [done|]. split; [congruence|done].
  - intros x st msg u Hfind Hu Hd.
    destruct (handleUndo_cases host x st) as [Hsame|(msg' & u' & Hfind' & Hu' & _ & ->)].
    + unfold handleUndo in Hsame. rewrite Hfind, Hu, Hd in Hsame.
      destruct (undoSheetActionsGAS host u _) as [result w1].
      destruct (Host.randomUUID host w1) as [uuid w2].
      apply (f_equal AppState.log) in Hsame. simpl in Hsame.
      apply (f_equal length) in Hsame. rewrite length_app in Hsame. simpl in Hsame. lia.
    + simplify_eq. simpl. split; [|done].
      unfold undoneFlag. simpl.
      rewrite find_app, find_map_id, Hfind by apply markUndone_id. simpl.
      unfold markUndone.
      apply List.find_some in Hfind as [_ Hid]. apply bool_decide_eq_true in Hid.
      by rewrite bool_decide_eq_true_2.
Qed.
End UndoClaims.

(** * The Undo control while a reversal is awaited *)

Section UndoInFlight.
Context {World : Type} (host : Host.t World).
Implicit Types (pg : Page.t World) (e : PageEvent) (es : list PageEvent)
  (msg m : Message.t) (x y : string).

#[local] Abbreviation hasId x := (λ m : Message.t, bool_decide (Message.id m = x)).

Lemma handleUndoClick_cases y pg :
  handleUndoClick host y pg = pg ∨
  ∃ msg u,
    List.find (hasId y) (AppState.messages (Page.app pg)) = Some msg ∧
    Message.undoInfo msg = Some u ∧ Message.isUndone msg = false ∧
    handleUndoClick host y pg =
    let r := undoSheetActionsGAS host u (AppState.world (Page.app pg)) in
    Page.mk
      (AppState.mk (AppState.messages (Page.app pg)) r.2
         (AppState.log (Page.app pg) ++ [CallUndo y u]))
      (Page.suspended pg ++ [Undoing.mk y r.1 Undoing.AwaitingUndo]).
Proof.
  unfold handleUndoClick.
  destruct (List.find _ _) as [msg|] eqn:Hfind; [|by left].
  destruct (Message.undoInfo msg) as [u|] eqn:Hu; [|by left].
  destruct (Message.isUndone msg) eqn:Hd; [by left|].
  right. exists msg, u. split; [done|]. split; [done|]. split; [done|].
  by destruct (undoSheetActionsGAS host u _).
Qed.

Lemma handleUndoClick_undone x pg :
  undoneFlag x (Page.app pg) = true → handleUndoClick host x pg = pg.
Proof.
  unfold undoneFlag, handleUndoClick. destruct (List.find _ _) as [msg|]; [|done].
  intros ->. by destruct (Message.undoInfo msg).
Qed.

Lemma resume_log k pg :
  AppState.log (Page.app (resume host k pg)) = AppState.log (Page.app pg).
Proof.
  unfold resume. destruct (Page.suspended pg !! k) as [u|]; [|done].
  destruct (Undoing.stage u); [done|]. by destruct (Host.randomUUID host _).
Qed.

Lemma resume_flag k pg x :
  undoneFlag x (Page.app pg) = true → undoneFlag x (Page.app (resume host k pg)) = true.
Proof.
  intros Hflag. unfold resume. destruct (Page.suspended pg !! k) as [u|]; [|done].
  destruct (Undoing.stage u).
  - cbn [Page.app]. unfold setMessages.
    rewrite <- (app_nil_r (map _ (AppState.messages (Page.app pg)))).
    apply undoneFlag_grow; [apply markUndone_id|apply markUndone_mono|done].
  - destruct (Host.randomUUID host _) as [uuid w2]. cbn [Page.app].
    rewrite <- (map_id (AppState.messages (Page.app pg))).
    by apply undoneFlag_grow.
Qed.

(** A call of [handleUndo] that no other handler overlaps is the Undo
    control of the traces above. *)
Lemma handleUndo_unsuspended x (st : AppState.t World) :
  pageRun host [UndoClicked x; Resumed 0; Resumed 0] (Page.mk st []) =
  Page.mk (handleUndo host x st) [].
Proof.
  unfold pageRun, handleUndo. cbn [fold_left pageStep]. unfold handleUndoClick.
  cbn [Page.app Page.suspended].
  destruct (List.find _ _) as [msg|]; [|done].
  destruct (Message.undoInfo msg) as [u|]; [|done].
  destruct (Message.isUndone msg); [done|].
  destruct (undoSheetActionsGAS host u (AppState.world st)) as [result w1].
  unfold resume. simpl.
  by destruct (Host.randomUUID host w1) as [uuid w2].
Qed.

Lemma pageStep_gated e pg x :
  undoneFlag x (Page.app pg) = true →
  undoCalls x (AppState.log (Page.app (pageStep host e pg)))
  = undoCalls x (AppState.log (Page.app pg)) ∧
  undoneFlag x (Page.app (pageStep host e pg)) = true.
Proof.
  intros Hflag. destruct e as [res|y|k]; cbn [pageStep Page.app].
  - apply (handle_gated host (Respond res) (Page.app pg) x Hflag).
  - destruct (handleUndoClick_cases y pg) as [-> | (msg & u & Hfind & Hu & Hd & ->)]; [done|].
    cbn [Page.app AppState.log]. split.
    + rewrite undoCalls_app. destruct (decide (y = x)) as [-> | Hyx].
      * unfold undoneFlag in Hflag. rewrite Hfind in Hflag. congruence.
      * by rewrite undoCalls_other, app_nil_r.
    + done.
  - split; [by rewrite resume_log|by apply resume_flag].
Qed.

Lemma pageRun_gated es pg x :
  undoneFlag x (Page.app pg) = true →
  undoCalls x (AppState.log (Page.app (pageRun host es pg)))
  = undoCalls x (AppState.log (Page.app pg)) ∧
  undoneFlag x (Page.app (pageRun host es pg)) = true.
Proof.
  revert pg. induction es as [|e es IH]; intros pg Hflag; [done|].
  destruct (pageStep_gated e pg x Hflag) as [Hcalls Hflag'].
  destruct (IH (pageStep host e pg) Hflag') as [Hcalls' Hflag''].
  split; [|done]. simpl. by rewrite Hcalls'.
Qed.

Lemma pageStep_undoCalls e pg x :
  undoCalls x (AppState.log (Page.app (pageStep host e pg)))
  = undoCalls x (AppState.log (Page.app pg)) ∨
  (e = UndoClicked x ∧
   ∃ msg u,
     List.find (hasId x) (AppState.messages (Page.app pg)) = Some msg ∧
     Message.undoInfo msg = Some u ∧ Message.isUndone msg = false ∧
     undoCalls x (AppState.log (Page.app (pageStep host e pg)))
     = undoCalls x (AppState.log (Page.app pg)) ++ [CallUndo x u]).
Proof.
  destruct e as [res|y|k]; cbn [pageStep Page.app].
  - left.
    destruct (handle_cases host (Respond res) (Page.app pg))
      as [(g & extra & w & l & Heq & _ & Hl & _) | (y & msg & u & new & w & He & _)];
      [|discriminate].
    simpl in Heq. rewrite Heq. simpl. by rewrite undoCalls_app, Hl, app_nil_r.
  - destruct (handleUndoClick_cases y pg) as [-> | (msg & u & Hfind & Hu & Hd & ->)];
      [by left|].
    cbn [Page.app AppState.log]. rewrite undoCalls_app.
    destruct (decide (y = x)) as [-> | Hyx].
    + right. split; [done|]. exists msg, u. by rewrite undoCalls_same.
    + left. by rewrite undoCalls_other, app_nil_r.
  - left. by rewrite resume_log.
Qed.

(** C4.  What holds of the gate: once the [undone] flag of a message is
    set, no event issues a further undo call for it and the flag stays
    set, however the handlers overlap; and every undo call is issued by
    a click on a message that has a reversal log and whose flag is not
    set at that moment.  What does not hold: the flag is written only
    when the awaited call has returned, so a second click on the button,
    which is still shown, issues a second call.  On the page of
    [undoablePage] two clicks before the first call returns give two
    undo calls for the message; the same two clicks with the first
    handler run to its end before the second give one. *)
Theorem undo_gate_open_while_call_in_flight :
  (∀ x es pg,
     undoneFlag x (Page.app pg) = true →
     undoCalls x (AppState.log (Page.app (pageRun host es pg)))
     = undoCalls x (AppState.log (Page.app pg)) ∧
     undoneFlag x (Page.app (pageRun host es pg)) = true) ∧
  (∀ x e pg,
     undoCalls x (AppState.log (Page.app (pageStep host e pg)))
     ≠ undoCalls x (AppState.log (Page.app pg)) →
     e = UndoClicked x ∧
     ∃ msg u,
       List.find (hasId x) (AppState.messages (Page.app pg)) = Some msg ∧
       Message.undoInfo msg = Some u ∧ Message.isUndone msg = false ∧
       undoCalls x (AppState.log (Page.app (pageStep host e pg)))
       = undoCalls x (AppState.log (Page.app pg)) ++ [CallUndo x u]) ∧
  (map Message.showsUndoButton
     (AppState.messages (Page.app (pageRun Scripted.host [UndoClicked "m1"] undoablePage)))
   = [true] ∧
   AppState.log (Page.app (pageRun Scripted.host doubleClick undoablePage))
   = map (λ s, CallExecute (StepAction.action s)) scenarioB
     ++ [CallUndo "m1" (buildUndoInfo scenarioB); CallUndo "m1" (buildUndoInfo scenarioB)] ∧
   length (undoCalls "m1"
             (AppState.log (Page.app (pageRun Scripted.host doubleClick undoablePage))))
   = 2%nat ∧
   length (undoCalls "m1"
             (AppState.log
                (run Scripted.host [ClickUndo "m1"; ClickUndo "m1"]
                   (Page.app undoablePage))))
   = 1%nat).
Proof.
  split; [intros x es pg; apply pageRun_gated|]. split.
  - intros x e pg Hgrow.
    by destruct (pageStep_undoCalls e pg x) as [Hsame | Hclick].
  - split; [vm_compute; reflexivity|]. split; [vm_compute; reflexivity|].
    split; vm_compute; reflexivity.
Qed.
End UndoInFlight.

(** * The claims on concrete plans *)

Section Concrete.
#[local] Abbreviation planC := (Build.plan "m1" scenarioC).

(** C1.  The claim wants the log built from the steps that ended done.
    [executeSteps] leaves its loop by [break] at the first error and
    then builds the log from all the steps of the plan, under the
    comment "after all steps complete".  In the run of [scenarioC] the
    second step ends in error and the third stays pending, yet both
    have an entry in the attached [cellsToClear], and the Undo control
    passes them to the host; the run of the plan of the first step
    alone attaches the log the claim describes. *)
Lemma undo_log_covers_unexecuted_steps :
  map (λ m, (map StepWithStatus._status <$> Message.steps m, Message.undoInfo m))
    (AppState.messages haltedRun)
  = [(Some [Some Status.done; Some Status.error; Some Status.pending],
      Some (UndoInfo.mk ["Report"]
              [CellRef.mk "Sheet1" "A1:B2"; CellRef.mk "Sheet1" "C1"]))] ∧
  map Message.undoInfo
    (AppState.messages
       (handleResponse Scripted.host (Build.plan "m1" (take 1 scenarioC))
          (Scripted.init haltedScript)))
  = [Some (UndoInfo.mk ["Report"] [])] ∧
  AppState.log haltedRun
  = map (λ s, CallExecute (StepAction.action s)) (take 2 scenarioC) ∧
  AppState.log undoneRun
  = AppState.log haltedRun
    ++ [CallUndo "m1"
          (UndoInfo.mk ["Report"]
             [CellRef.mk "Sheet1" "A1:B2"; CellRef.mk "Sheet1" "C1"])].
Proof. repeat apply conj; vm_compute; reflexivity. Qed.

Lemma run_stops_at_first_error_witness :
  ChatResponse.steps planC = Some scenarioC ∧ scenarioC ≠ [] ∧
  ∃ older m ss,
    AppState.messages haltedRun = older ++ [m] ∧
    Message.id m = "m1" ∧
    Message.steps m = Some ss ∧
    map StepWithStatus.base ss = scenarioC ∧
    ((allDone ss ∧
      AppState.log haltedRun =
      [] ++ map (λ s, CallExecute (StepAction.action s)) scenarioC)
     ∨
     (∃ k, haltedAt k ss ∧
           (∀ j s, ss !! j = Some s →
                   StepWithStatus._status s = Some Status.error → j = k) ∧
           AppState.log haltedRun =
           [] ++ map (λ s, CallExecute (StepAction.action s)) (take (S k) scenarioC))).
Proof.
  split; [reflexivity|]. split; [discriminate|].
  apply (run_stops_at_first_error Scripted.host planC
           (Scripted.init haltedScript) scenarioC); [reflexivity|discriminate].
Defined.

(** C3 as stated fails: when the sheet is written to before it is
    created, its name is in both parts of the log. *)
Lemma log_overlaps_when_created_late :
  "Summary" ∈ UndoInfo.sheetsToDelete (buildUndoInfo lateCreatePlan) ∧
  "Summary" ∈ clearedSheets (buildUndoInfo lateCreatePlan).
Proof. split; apply (bool_decide_unpack _); vm_compute; exact I. Qed.

Lemma log_disjoint_when_created_first_witness :
  createsFirst scenarioA = true ∧
  ∀ n, n ∈ UndoInfo.sheetsToDelete (buildUndoInfo scenarioA) →
       n ∉ clearedSheets (buildUndoInfo scenarioA).
Proof.
  split; [reflexivity|].
  apply (log_disjoint_when_created_first scenarioA). reflexivity.
Defined.

Lemma step_classified_by_prefix_witness :
  executeStepAction Scripted.host (Build.createSheet "Report") haltedScript
  = ("Created sheet Report",
     [Success "Error: invalid range"; Failure "Sheet not found"]) ∧
  ∃ msg' ss',
    AppState.messages (executeLoop Scripted.host "m1" scenarioC 0 pendingState) !! 0
    = Some msg' ∧
    Message.steps msg' = Some ss' ∧
    ss' !! 0 =
    Some (StepWithStatus.mk (Build.step 1 (Build.createSheet "Report"))
            (Some (if startsWith "Created sheet Report" "Error"
                   then Status.error else Status.done))
            (Some "Created sheet Report")).
Proof.
  split; [reflexivity|].
  apply (proj2 (step_classified_by_prefix Scripted.host "m1"
                  (Build.step 1 (Build.createSheet "Report")) (tail scenarioC) 0
                  pendingState "Created sheet Report"
                  [Success "Error: invalid range"; Failure "Sheet not found"] eq_refl)
           0 (Message.mk "m1" Role.assistant "" (Some (map pendingStep scenarioC)) None None)
           (map pendingStep scenarioC)
           (pendingStep (Build.step 1 (Build.createSheet "Report"))));
    reflexivity.
Defined.

(** C6 as stated fails: an [autoFillDown] step on a sheet that is not
    in [sheetsToDelete] adds no entry, where the [setValues] step with
    the same sheet and range adds one. *)
Lemma autoFillDown_not_tracked :
  SheetAction.action (StepAction.action fillStep) = ActionKind.autoFillDown ∧
  SheetAction.sheet (StepAction.action fillStep) = Some "Sheet1" ∧
  SheetAction.range (StepAction.action fillStep) = Some "B2:B10" ∧
  UndoInfo.sheetsToDelete (buildUndoInfo []) = [] ∧
  UndoInfo.cellsToClear (buildUndoInfo ([] ++ [fillStep])) = [] ∧
  UndoInfo.cellsToClear (buildUndoInfo ([] ++ [valuesStep]))
  = [CellRef.mk "Sheet1" "B2:B10"].
Proof. repeat split. Qed.

Lemma autoFillDown_adds_nothing_witness :
  SheetAction.action (StepAction.action fillStep) = ActionKind.autoFillDown ∧
  buildUndoInfo (scenarioB ++ (fillStep :: scenarioA))
  = buildUndoInfo (scenarioB ++ scenarioA) ∧
  ("Sheet1" ∉ UndoInfo.sheetsToDelete (buildUndoInfo scenarioA)) ∧
  buildUndoInfo (scenarioA ++ [valuesStep]) =
  UndoInfo.mk (UndoInfo.sheetsToDelete (buildUndoInfo scenarioA))
    (UndoInfo.cellsToClear (buildUndoInfo scenarioA) ++ [CellRef.mk "Sheet1" "B2:B10"]).
Proof.
  assert ("Sheet1" ∉ UndoInfo.sheetsToDelete (buildUndoInfo scenarioA)) as Hnew.
  { apply (bool_decide_unpack _). vm_compute. exact I. }
  split; [reflexivity|].
  split; [apply (proj1 autoFillDown_adds_nothing scenarioB fillStep scenarioA); reflexivity|].
  split; [exact Hnew|].
  apply (proj2 autoFillDown_adds_nothing scenarioA valuesStep "Sheet1" "B2:B10");
    [reflexivity|reflexivity|discriminate|reflexivity|discriminate|exact Hnew].
Defined.

Lemma writes_tracked_unless_sheet_created_witness :
  writes (Build.step 2 (Build.setFormula "Summary" "B2" "=SUM(A1:A10)"))
  = Some (CellRef.mk "Summary" "B2") ∧
  "Summary" ∈ createdBy (take 1 scenarioA) ∧
  buildUndoInfo (take 1 scenarioA
                 ++ (Build.step 2 (Build.setFormula "Summary" "B2" "=SUM(A1:A10)")
                     :: scenarioB))
  = buildUndoInfo (take 1 scenarioA ++ scenarioB) ∧
  ("Sheet1" ∉ createdBy scenarioA) ∧
  buildUndoInfo (scenarioA ++ [valuesStep]) =
  UndoInfo.mk (createdBy scenarioA)
    (UndoInfo.cellsToClear (buildUndoInfo scenarioA) ++ [CellRef.mk "Sheet1" "B2:B10"]).
Proof.
  assert ("Summary" ∈ createdBy (take 1 scenarioA)) as Hin.
  { apply (bool_decide_unpack _). vm_compute. exact I. }
  assert ("Sheet1" ∉ createdBy scenarioA) as Hnotin.
  { apply (bool_decide_unpack _). vm_compute. exact I. }
  destruct writes_tracked_unless_sheet_created as (Hskip & Happend & _ & _).
  split; [reflexivity|]. split; [exact Hin|].
  split; [apply (Hskip _ _ _ (CellRef.mk "Summary" "B2")); [reflexivity|exact Hin]|].
  split; [exact Hnotin|].
  apply (Happend scenarioA valuesStep (CellRef.mk "Sheet1" "B2:B10"));
    [reflexivity|exact Hnotin].
Defined.

(** C8 as stated fails: the host answers the undo call through its
    failure handler, and the flag of the message is set all the same,
    under a message that reports the failure as a completed undo. *)
Lemma undone_set_after_failed_undo :
  Host.runUndoSheetActions Scripted.host haltedLog (AppState.world haltedRun)
  = (Failure "Sheet not found", []) ∧
  map Message.undone (AppState.messages haltedRun) = [None] ∧
  map (λ m, (Message.content m, Message.undone m)) (AppState.messages undoneRun)
  = [("", Some true); ("Undo complete: Undo failed: Sheet not found", None)].
Proof. repeat split. Qed.

Lemma undone_flag_set_once_after_call_witness :
  List.find (λ m, bool_decide (Message.id m = "m1")) (AppState.messages haltedRun)
  = Some haltedMessage ∧
  Message.undoInfo haltedMessage = Some haltedLog ∧
  Message.isUndone haltedMessage = false ∧
  undoneFlag "m1" (handleUndo Scripted.host "m1" haltedRun) = true ∧
  AppState.log (handleUndo Scripted.host "m1" haltedRun)
  = AppState.log haltedRun ++ [CallUndo "m1" haltedLog].
Proof.
  destruct (undone_flag_set_once_after_call Scripted.host) as (_ & _ & _ & Hflip).
  split; [reflexivity|]. split; [reflexivity|]. split; [reflexivity|].
  apply (Hflip "m1" haltedRun haltedMessage haltedLog); reflexivity.
Defined.

Lemma failed_call_counts_as_done_witness :
  Host.runExecuteSheetAction Scripted.host (Build.createSheet "Report")
    (AppState.world quotaState)
  = (Failure "Quota exceeded", [Success "Wrote 4 cells"]) ∧
  (∀ r, Failure "Quota exceeded" ≠ Success r) ∧
  let result := "Action failed: Quota exceeded" in
  let w : Scripted.World := [Success "Wrote 4 cells"] in
  let st' := executeLoop Scripted.host "m1" scenarioC 0 quotaState in
  executeSheetAction Scripted.host (Build.createSheet "Report") (AppState.world quotaState)
  = (result, w) ∧
  startsWith result "Error" = false ∧
  (∀ p msg ss s,
     AppState.messages quotaState !! p = Some msg →
     Message.id msg = "m1" →
     Message.steps msg = Some ss →
     ss !! 0%nat = Some s →
     ∃ msg' ss',
       AppState.messages st' !! p = Some msg' ∧
       Message.steps msg' = Some ss' ∧
       ss' !! 0%nat =
       Some (StepWithStatus.mk (StepWithStatus.base s) (Some Status.done) (Some result)) ∧
       ∀ next rest' s2,
         tail scenarioC = next :: rest' → ss !! 1%nat = Some s2 →
         let r2 := (executeStepAction Scripted.host (StepAction.action next) w).1 in
         ss' !! 1%nat =
         Some (StepWithStatus.mk (StepWithStatus.base s2) (Some (classify r2)) (Some r2))) ∧
  (∀ next rest',
     tail scenarioC = next :: rest' →
     ∃ calls,
       AppState.log st' =
       AppState.log quotaState
       ++ [CallExecute (Build.createSheet "Report"); CallExecute (StepAction.action next)]
       ++ calls) ∧
  st' =
  executeLoop Scripted.host "m1" (tail scenarioC) 1
    (AppState.mk
       (markStep "m1" 0 (StepWithStatus.setOutcome Status.done result)
          (markStep "m1" 0 (StepWithStatus.setStatus Status.executing)
             (AppState.messages quotaState)))
       w (AppState.log quotaState ++ [CallExecute (Build.createSheet "Report")])).
Proof.
  split; [reflexivity|]. split; [discriminate|].
  apply (failed_call_counts_as_done Scripted.host "m1"
           (Build.step 1 (Build.createSheet "Report")) (tail scenarioC) 0
           quotaState (Failure "Quota exceeded") [Success "Wrote 4 cells"]);
    [reflexivity|discriminate].
Defined.

Lemma setValue_not_undoable_witness :
  Forall (λ step, SheetAction.action (StepAction.action step) = ActionKind.setValue)
    setValuePlan ∧
  buildUndoInfo setValuePlan = UndoInfo.mk [] [] ∧
  ∃ older m,
    AppState.messages
      (handleResponse Scripted.host (Build.plan "m2" setValuePlan) haltedRun)
    = older ++ [m] ∧
    Message.id m = "m2" ∧
    Message.undoInfo m = None ∧
    Message.showsUndoButton m = false.
Proof.
  assert (Forall (λ step, SheetAction.action (StepAction.action step) = ActionKind.setValue)
            setValuePlan) as Hall.
  { repeat constructor. }
  destruct (setValue_not_undoable Scripted.host) as (_ & Hempty & Hrun).
  split; [exact Hall|]. split; [exact (Hempty setValuePlan Hall)|].
  apply (Hrun (Build.plan "m2" setValuePlan) haltedRun setValuePlan);
    [reflexivity|discriminate|exact Hall].
Defined.
End Concrete.

(** * Further properties of the planner *)

Section PlannerMore.
Implicit Types (u : UndoInfo.t) (step : StepAction.t) (steps pre post : list StepAction.t).

Lemma truthy_Some (o : option string) :
  truthy o = true ↔ ∃ s, o = Some s ∧ s ≠ "".
Proof.
  unfold truthy. destruct o as [s|].
  - rewrite negb_true_iff, String.eqb_neq. split; [by exists s|by intros (? & [= <-] & ?)].
  - split; [done|by intros (? & ? & ?)].
Qed.

Lemma creates_Some step n :
  creates step = Some n ↔
  SheetAction.action (StepAction.action step) = ActionKind.createSheet ∧
  SheetAction.name (StepAction.action step) = Some n ∧ n ≠ "".
Proof.
  unfold creates, isKind.
  destruct (bool_decide _ && truthy _) eqn:Hc.
  - apply andb_true_iff in Hc as [Hk Hn]. apply bool_decide_eq_true in Hk.
    apply truthy_Some in Hn as (s & Hs & Hne). rewrite Hs. simpl.
    split; [by intros [= <-]|by intros (_ & [= <-] & _)].
  - split; [done|]. intros (Hk & Hn & Hne).
    rewrite (bool_decide_eq_true_2 _ Hk), (proj2 (truthy_Some _)) in Hc by eauto. done.
Qed.

Lemma writes_Some step c :
  writes step = Some c ↔
  CellRef.sheet c ≠ "" ∧ CellRef.range c ≠ "" ∧
  SheetAction.sheet (StepAction.action step) = Some (CellRef.sheet c) ∧
  ((SheetAction.action (StepAction.action step) = ActionKind.setFormula ∧
    SheetAction.cell (StepAction.action step) = Some (CellRef.range c)) ∨
   (SheetAction.action (StepAction.action step) = ActionKind.setValues ∧
    SheetAction.range (StepAction.action step) = Some (CellRef.range c))).
Proof.
  unfold writes, isKind. destruct c as [cs cr]. simpl.
  destruct (decide (SheetAction.action (StepAction.action step) = ActionKind.setFormula))
    as [Hf|Hf].
  - rewrite (bool_decide_eq_true_2 _ Hf). simpl.
    destruct (truthy (SheetAction.sheet _) && truthy (SheetAction.cell _)) eqn:Ht.
    + apply andb_true_iff in Ht as [(s & Hs & Hsne)%truthy_Some (l & Hl & Hlne)%truthy_Some].
      rewrite Hs, Hl. simpl. split.
      * intros [= <- <-]. eauto 10.
      * intros (_ & _ & [= <-] & [[_ [= <-]]|[Hv _]]); [done|congruence].
    + rewrite Hf. simpl. split; [done|].
      intros (Hsne & Hrne & Hs & [[_ Hl]|[Hv _]]); [|done].
      rewrite (proj2 (truthy_Some _)), (proj2 (truthy_Some _)) in Ht by eauto. done.
  - rewrite (bool_decide_eq_false_2 _ Hf). simpl.
    destruct (decide (SheetAction.action (StepAction.action step) = ActionKind.setValues))
      as [Hv|Hv].
    + rewrite (bool_decide_eq_true_2 _ Hv). simpl.
      destruct (truthy (SheetAction.sheet _) && truthy (SheetAction.range _)) eqn:Ht.
      * apply andb_true_iff in Ht as [(s & Hs & Hsne)%truthy_Some (l & Hl & Hlne)%truthy_Some].
        rewrite Hs, Hl. simpl. split.
        -- intros [= <- <-]. eauto 10.
        -- intros (_ & _ & [= <-] & [[Hf' _]|[_ [= <-]]]); [done|done].
      * split; [done|].
        intros (Hsne & Hrne & Hs & [[Hf' _]|[_ Hl]]); [done|].
        rewrite (proj2 (truthy_Some _)), (proj2 (truthy_Some _)) in Ht by eauto. done.
    + rewrite (bool_decide_eq_false_2 _ Hv). simpl. split; [done|].
      intros (_ & _ & _ & [[? _]|[? _]]); done.
Qed.

Lemma cells_fold steps u :
  UndoInfo.cellsToClear (fold_left undoStep steps u)
  = UndoInfo.cellsToClear u ++ cellsFrom (UndoInfo.sheetsToDelete u) steps.
Proof.
  revert u. induction steps as [|s steps IH]; intros u; simpl.
  - by rewrite app_nil_r.
  - rewrite IH, undoStep_cases.
    destruct (creates s) as [n|]; [done|].
    destruct (writes s) as [c|]; [|done].
    destruct (includes _ _); simpl; [done|]. by rewrite <- app_assoc.
Qed.

Lemma cellsFrom_created created0 created steps :
  cellsFrom (created0 ++ created) steps
  = filter (λ c, CellRef.sheet c ∉ created0) (cellsFrom created steps).
Proof.
  revert created. induction steps as [|s steps IH]; intros created; simpl; [done|].
  destruct (creates s) as [n|].
  - by rewrite <- app_assoc, IH.
  - destruct (writes s) as [c|]; [|apply IH].
    unfold includes.
    destruct (decide (CellRef.sheet c ∈ created)) as [Hin|Hout].
    + rewrite !bool_decide_eq_true_2; [apply IH|done|]. apply elem_of_app. by right.
    + rewrite (bool_decide_eq_false_2 (_ ∈ created)) by done.
      destruct (decide (CellRef.sheet c ∈ created0)) as [Hin0|Hout0].
      * rewrite bool_decide_eq_true_2 by (apply elem_of_app; by left).
        rewrite filter_cons_False by (intros Hn; by apply Hn). apply IH.
      * rewrite bool_decide_eq_false_2 by (intros [?|?]%elem_of_app; done).
        rewrite filter_cons_True by done. by rewrite IH.
Qed.

Lemma cellsFrom_nil_filter steps :
  UndoInfo.cellsToClear (buildUndoInfo steps) = cellsFrom [] steps.
Proof. unfold buildUndoInfo. by rewrite cells_fold. Qed.

Lemma cellsFrom_source created steps c :
  c ∈ cellsFrom created steps → ∃ step, step ∈ steps ∧ writes step = Some c.
Proof.
  revert created. induction steps as [|s steps IH]; intros created; simpl.
  - by intros ?%elem_of_nil.
  - assert (∀ created', c ∈ cellsFrom created' steps →
              ∃ step, step ∈ s :: steps ∧ writes step = Some c) as Hrest.
    { intros created' Hc. destruct (IH _ Hc) as (step & Hin & Hw).
      exists step. split; [by apply elem_of_cons; right|done]. }
    destruct (creates s) as [n|]; [apply Hrest|].
    destruct (writes s) as [c'|] eqn:Hw; [|apply Hrest].
    destruct (includes _ _); [apply Hrest|].
    intros [->|Hc]%elem_of_cons; [|by eapply Hrest].
    exists s. split; [by apply elem_of_cons; left|done].
Qed.

Lemma cellsFrom_length created steps :
  (length (cellsFrom created steps) + length (omap creates steps) ≤ length steps)%nat.
Proof.
  unfold omap.
  revert created. induction steps as [|s steps IH]; intros created; simpl; [done|].
  destruct (creates s) as [n|]; simpl.
  - specialize (IH (created ++ [n])). lia.
  - specialize (IH created).
    destruct (writes s) as [c|]; [|lia]. destruct (includes _ _); simpl; lia.
Qed.

(** X1.  Every name in [sheetsToDelete] is the non-empty name of a
    [createSheet] step of the list, every entry of [cellsToClear] is the
    non-empty sheet and location of a [setFormula] or [setValues] step of
    the list, and the two lists together have at most one entry per
    step. *)
Theorem buildUndoInfo_entries_from_steps steps :
  (∀ n, n ∈ UndoInfo.sheetsToDelete (buildUndoInfo steps) →
        n ≠ "" ∧
        ∃ step, step ∈ steps ∧
          SheetAction.action (StepAction.action step) = ActionKind.createSheet ∧
          SheetAction.name (StepAction.action step) = Some n) ∧
  (∀ c, c ∈ UndoInfo.cellsToClear (buildUndoInfo steps) →
        CellRef.sheet c ≠ "" ∧ CellRef.range c ≠ "" ∧
        ∃ step, step ∈ steps ∧
          SheetAction.sheet (StepAction.action step) = Some (CellRef.sheet c) ∧
          ((SheetAction.action (StepAction.action step) = ActionKind.setFormula ∧
            SheetAction.cell (StepAction.action step) = Some (CellRef.range c)) ∨
           (SheetAction.action (StepAction.action step) = ActionKind.setValues ∧
            SheetAction.range (StepAction.action step) = Some (CellRef.range c)))) ∧
  (length (UndoInfo.sheetsToDelete (buildUndoInfo steps))
   + length (UndoInfo.cellsToClear (buildUndoInfo steps)) ≤ length steps)%nat.
Proof.
  rewrite sheetsToDelete_createdBy, cellsFrom_nil_filter. repeat apply conj.
  - intros n Hn. unfold createdBy in Hn.
    apply list_elem_of_omap in Hn as (step & Hin & Hc).
    apply creates_Some in Hc as (Hk & Hname & Hne). eauto.
  - intros c Hc. destruct (cellsFrom_source _ _ _ Hc) as (step & Hin & Hw).
    apply writes_Some in Hw as (Hs & Hr & Hsheet & Hloc). eauto 10.
  - unfold createdBy. pose proof (cellsFrom_length [] steps). lia.
Qed.

(** X2.  The log of a plan that continues another: the sheets of the
    continuation follow those of the first part, and the cells of the
    continuation follow too, except those on a sheet that the first
    part created. *)
Theorem buildUndoInfo_app_law pre post :
  buildUndoInfo (pre ++ post) =
  UndoInfo.mk
    (UndoInfo.sheetsToDelete (buildUndoInfo pre)
     ++ UndoInfo.sheetsToDelete (buildUndoInfo post))
    (UndoInfo.cellsToClear (buildUndoInfo pre)
     ++ filter (λ c, CellRef.sheet c ∉ UndoInfo.sheetsToDelete (buildUndoInfo pre))
          (UndoInfo.cellsToClear (buildUndoInfo post))).
Proof.
  rewrite buildUndoInfo_app.
  destruct (fold_left undoStep post (buildUndoInfo pre)) as [ss cs] eqn:Hfold.
  pose proof (sheetsToDelete_fold post (buildUndoInfo pre)) as Hs.
  pose proof (cells_fold post (buildUndoInfo pre)) as Hc.
  rewrite Hfold in Hs, Hc. simpl in Hs, Hc. subst ss cs.
  rewrite (sheetsToDelete_createdBy post), (cellsFrom_nil_filter post).
  f_equal. f_equal.
  rewrite <- (app_nil_r (UndoInfo.sheetsToDelete (buildUndoInfo pre))) at 1.
  apply cellsFrom_created.
Qed.
End PlannerMore.

Section PlannerEdges.
Implicit Types (u : UndoInfo.t) (step : StepAction.t) (steps pre post : list StepAction.t).

Lemma absent_truthy (o : option string) : absent o ↔ truthy o = false.
Proof.
  unfold absent, truthy. destruct o as [s|].
  - rewrite negb_false_iff, String.eqb_eq. split; [by intros [|[= ->]]|by intros ->; right].
  - split; [done|by left].
Qed.

(** X3.  A step without a target leaves the log as it is, wherever it
    stands in the plan: a [createSheet] whose name is missing or empty,
    a [setFormula] whose sheet or cell is missing or empty (a write to
    the active sheet), a [setValues] whose sheet or range is missing or
    empty, and every step of another kind. *)
Theorem step_without_target_untracked pre step post :
  (SheetAction.action (StepAction.action step) = ActionKind.createSheet →
   absent (SheetAction.name (StepAction.action step))) →
  (SheetAction.action (StepAction.action step) = ActionKind.setFormula →
   absent (SheetAction.sheet (StepAction.action step)) ∨
   absent (SheetAction.cell (StepAction.action step))) →
  (SheetAction.action (StepAction.action step) = ActionKind.setValues →
   absent (SheetAction.sheet (StepAction.action step)) ∨
   absent (SheetAction.range (StepAction.action step))) →
  buildUndoInfo (pre ++ step :: post) = buildUndoInfo (pre ++ post).
Proof.
  intros Hcreate Hformula Hvalues. apply untracked_skip.
  - destruct (creates step) as [n|] eqn:Hc; [|done].
    apply creates_Some in Hc as (Hk & Hn & Hne).
    destruct (Hcreate Hk) as [Habs|Habs]; congruence.
  - destruct (writes step) as [c|] eqn:Hw; [|done].
    apply writes_Some in Hw as (Hs & Hr & Hsheet & [[Hk Hloc]|[Hk Hloc]]).
    + destruct (Hformula Hk) as [[?|?]|[?|?]]; congruence.
    + destruct (Hvalues Hk) as [[?|?]|[?|?]]; congruence.
Qed.

Lemma fold_empty steps u :
  fold_left undoStep steps u = UndoInfo.empty →
  u = UndoInfo.empty ∧ ∀ step, step ∈ steps → creates step = None ∧ writes step = None.
Proof.
  revert u. induction steps as [|s steps IH]; intros u; simpl.
  - intros ->. split; [done|]. by intros step ?%elem_of_nil.
  - intros Hfold. destruct (IH _ Hfold) as [Hstep Hrest].
    rewrite undoStep_cases in Hstep.
    assert (u = UndoInfo.empty ∧ creates s = None ∧ writes s = None) as (Hu & Hc & Hw).
    { destruct (creates s) as [n|].
      - apply (f_equal UndoInfo.sheetsToDelete) in Hstep. simpl in Hstep.
        by destruct (UndoInfo.sheetsToDelete u).
      - destruct (writes s) as [c|]; [|done].
        destruct (includes _ _) eqn:Hinc.
        + subst u. done.
        + apply (f_equal UndoInfo.cellsToClear) in Hstep. simpl in Hstep.
          by destruct (UndoInfo.cellsToClear u). }
    split; [done|]. intros step [->|Hin]%elem_of_cons; [done|by apply Hrest].
Qed.

Lemma attached_None u : attached u = None ↔ u = UndoInfo.empty.
Proof.
  unfold attached. destruct u as [[|n ss] [|c cs]]; simpl; split; done.
Qed.
End PlannerEdges.

Section UndoOffered.
Context {World : Type} (host : Host.t World).

(** X4.  The message of a plan ends its run without a reversal log, and
    so without an Undo button, exactly when no step of the plan is a
    named [createSheet] or a [setFormula] or [setValues] with a sheet
    and a location; otherwise its log is [buildUndoInfo] of the plan. *)
Theorem undo_offered_iff_some_step_tracked res (st : AppState.t World) steps :
  ChatResponse.steps res = Some steps → steps ≠ [] →
  ∃ older m,
    AppState.messages (handleResponse host res st) = older ++ [m] ∧
    Message.id m = ChatResponse.message_id res ∧
    (Message.undoInfo m = None ↔
     ∀ step, step ∈ steps → creates step = None ∧ writes step = None) ∧
    (Message.undoInfo m ≠ None → Message.undoInfo m = Some (buildUndoInfo steps)) ∧
    Message.showsUndoButton m = bool_decide (Message.undoInfo m ≠ None).
Proof.
  intros Hsteps Hne. rewrite (handleResponse_plan host res st steps) by done. simpl.
  eexists _, _. split; [done|]. simpl. split; [done|]. repeat apply conj.
  - rewrite attached_None. intros Hempty. by apply (fold_empty steps UndoInfo.empty).
  - rewrite attached_None. intros Hnone. unfold buildUndoInfo.
    assert (∀ u, fold_left undoStep steps u = u) as Hfold; [|apply Hfold].
    clear Hsteps Hne. induction steps as [|s steps IH]; intros u; simpl; [done|].
    destruct (Hnone s) as [Hc Hw]; [by apply elem_of_cons; left|].
    rewrite undoStep_cases, Hc, Hw. apply IH.
    intros step Hin. apply Hnone. by apply elem_of_cons; right.
  - unfold attached. by destruct (_ || _).
  - unfold Message.showsUndoButton, Message.showsSteps, Message.isUndone, finalSteps.
    destruct steps as [|s0 steps0]; [done|]. simpl.
    by destruct (attached (buildUndoInfo (s0 :: steps0))).
Qed.
End UndoOffered.

(** * Further properties of the orchestrator *)

Section OrchestratorMore.
Context {World : Type} (host : Host.t World).
Implicit Types (st : AppState.t World) (res : ChatResponse.t)
  (steps rest : list StepAction.t) (rs : list string).

Lemma executeLoopCounted_spec messageId rest i st (s e : nat) :
  executeLoopCounted host messageId rest i st s e =
  (executeLoop host messageId rest i st,
   s + length (filter (λ r, classify r = Status.done)
                 (runResults host rest (AppState.world st)).1),
   e + length (filter (λ r, classify r = Status.error)
                 (runResults host rest (AppState.world st)).1))%nat.
Proof.
  revert i st s e. induction rest as [|step rest IH]; intros i st s e; simpl.
  - by rewrite !Nat.add_0_r.
  - destruct (executeStepAction host _ (AppState.world st)) as [r w] eqn:Hr.
    case_bool_decide as Herr; simpl.
    + rewrite filter_cons_False, filter_cons_True by congruence. simpl.
      repeat f_equal; lia.
    + rewrite IH. simpl. destruct (runResults host rest w) as [rs w']. simpl.
      rewrite filter_cons_True by (by apply classify_not_error).
      rewrite filter_cons_False by done. simpl. repeat f_equal; lia.
Qed.

Lemma finalSteps_no_results steps : finalSteps steps [] = map pendingStep steps.
Proof.
  apply list_eq. intros j. rewrite finalSteps_lookup, list_lookup_fmap.
  by destruct (steps !! j).
Qed.

Lemma finalSteps_cons step steps r rs :
  finalSteps (step :: steps) (r :: rs)
  = StepWithStatus.mk step (Some (classify r)) (Some r) :: finalSteps steps rs.
Proof.
  apply list_eq. intros [|j]; [done|].
  rewrite finalSteps_lookup. simpl. by rewrite finalSteps_lookup.
Qed.

Lemma countStatus_pending status steps :
  status ≠ Status.pending → countStatus status (map pendingStep steps) = 0%nat.
Proof.
  intros Hne. unfold countStatus. induction steps as [|s steps IH]; simpl; [done|].
  rewrite filter_cons_False; [done|]. simpl. congruence.
Qed.

Lemma countStatus_finalSteps status steps rs :
  status ≠ Status.pending → (length rs ≤ length steps)%nat →
  countStatus status (finalSteps steps rs) = length (filter (λ r, classify r = status) rs).
Proof.
  intros Hne. revert steps. induction rs as [|r rs IH]; intros steps Hlen.
  - rewrite finalSteps_no_results. by apply countStatus_pending.
  - destruct steps as [|step steps]; simpl in Hlen; [lia|].
    rewrite finalSteps_cons. unfold countStatus in *.
    destruct (decide (classify r = status)) as [Heq|Hneq].
    + rewrite !filter_cons_True by (simpl; congruence). simpl. rewrite IH by lia. done.
    + rewrite !filter_cons_False by (simpl; congruence). apply IH. lia.
Qed.

Lemma filter_classify_shape rs :
  (Forall (λ r, classify r = Status.done) rs ∨
   ∃ rs0 r, rs = rs0 ++ [r] ∧ Forall (λ r, classify r = Status.done) rs0 ∧
            classify r = Status.error) →
  (length (filter (λ r, classify r = Status.done) rs)
   + length (filter (λ r, classify r = Status.error) rs) = length rs)%nat ∧
  (length (filter (λ r, classify r = Status.error) rs) ≤ 1)%nat.
Proof.
  assert (∀ l, Forall (λ r, classify r = Status.done) l →
            filter (λ r, classify r = Status.done) l = l ∧
            filter (λ r, classify r = Status.error) l = []) as Hdone.
  { induction 1 as [|r l Hr _ [IH1 IH2]]; [done|].
    rewrite filter_cons_True, filter_cons_False, IH1, IH2 by congruence. done. }
  intros [Hall|(rs0 & r & -> & Hall & Herr)].
  - destruct (Hdone _ Hall) as [-> ->]. simpl. lia.
  - rewrite !filter_app. destruct (Hdone _ Hall) as [-> ->].
    rewrite filter_cons_False, filter_cons_True by congruence.
    rewrite !length_app. simpl. lia.
Qed.

(** X5.  The counts reported after a run: [step_count] is the number of
    steps of the plan, [success_count] the number of steps left done,
    [error_count] the number left in error, which is 0 or 1; together
    they count the calls made to the host, and no error is counted
    exactly when every step succeeded. *)
Theorem steps_executed_counts res st steps :
  ChatResponse.steps res = Some steps → steps ≠ [] →
  let st0 :=
    setMessages
      (λ prev, prev ++
         [Message.mk (ChatResponse.message_id res) Role.assistant
            (ChatResponse.content res) (Some (map pendingStep steps)) None None]) st in
  let p := stepsExecuted host steps (ChatResponse.message_id res) st0 in
  ∃ older m ss calls,
    AppState.messages (handleResponse host res st) = older ++ [m] ∧
    Message.steps m = Some ss ∧
    AppState.log (handleResponse host res st) = AppState.log st ++ calls ∧
    StepsExecuted.step_count p = length ss ∧
    StepsExecuted.success_count p = countStatus Status.done ss ∧
    StepsExecuted.error_count p = countStatus Status.error ss ∧
    (StepsExecuted.error_count p ≤ 1)%nat ∧
    (StepsExecuted.success_count p + StepsExecuted.error_count p = length calls)%nat ∧
    (StepsExecuted.error_count p = 0%nat ↔
     StepsExecuted.success_count p = StepsExecuted.step_count p).
Proof.
  intros Hsteps Hne st0 p.
  rewrite (handleResponse_plan host res st steps) by done. simpl.
  eexists _, _, _, _. split; [done|]. split; [done|]. split; [done|].
  subst p. unfold stepsExecuted. rewrite executeLoopCounted_spec. simpl.
  pose proof (runResults_length host steps (AppState.world st)) as Hlen.
  pose proof (runResults_shape host steps (AppState.world st)) as Hshape. simpl in Hshape.
  set (rs := (runResults host steps (AppState.world st)).1) in *.
  rewrite !countStatus_finalSteps by done.
  assert (Forall (λ r, classify r = Status.done) rs ∨
          ∃ rs0 r, rs = rs0 ++ [r] ∧ Forall (λ r, classify r = Status.done) rs0 ∧
                   classify r = Status.error) as Hs.
  { destruct Hshape as [[_ Hall]|(rs0 & r & Hrs & Hall & Herr & _)]; [by left|right; eauto]. }
  destruct (filter_classify_shape rs Hs) as [Hsum Hle].
  assert (length (finalSteps steps rs) = length steps) as Hfl.
  { rewrite <- (finalSteps_base steps rs) at 2. by rewrite length_map. }
  rewrite length_map, length_take, Hfl.
  split; [done|]. split; [done|]. split; [done|]. split; [done|]. split; [lia|].
  destruct Hshape as [[Hfull Hall]|(rs0 & r & Hrs & Hall & Herr & Hshort)].
  - assert (filter (λ r, classify r = Status.error) rs = []) as Hnone.
    { clear -Hall. induction Hall as [|r l Hr _ IH]; [done|].
      by rewrite filter_cons_False by congruence. }
    rewrite Hnone in *. simpl in *. split; [lia|done].
  - rewrite Hrs, !filter_app, !length_app in *.
    rewrite filter_cons_True in * by done.
    rewrite filter_cons_False in * by congruence. simpl in *.
    pose proof (length_filter (λ r, classify r = Status.done) rs0). split; lia.
Qed.
End OrchestratorMore.

(** * What the handlers leave alone *)

Section Frame.
Context {World : Type} (host : Host.t World).
Implicit Types (st : AppState.t World) (e : Event) (m msg : Message.t).

Lemma touched_other messageId steps rs msg :
  Message.id msg ≠ messageId → touched messageId steps rs msg = msg.
Proof.
  intros Hne. unfold touched, attachUndo, onSteps.
  destruct (Message.steps msg); rewrite ?(bool_decide_eq_false_2 _ Hne);
    destruct (attached _); by rewrite ?(bool_decide_eq_false_2 _ Hne).
Qed.

Lemma touched_fields messageId steps rs msg :
  Message.role (touched messageId steps rs msg) = Message.role msg ∧
  Message.content (touched messageId steps rs msg) = Message.content msg.
Proof.
  unfold touched, attachUndo, onSteps.
  destruct (attached _), (Message.steps msg); repeat case_bool_decide; done.
Qed.

(** X6.  An event about one message id leaves every message with
    another id exactly as it was; no event removes, moves, or changes
    the id, role or content of a message, and an event adds one message
    at most; the Undo control changes neither the steps nor the reversal
    log of any message. *)
Theorem handle_frame e st :
  (∀ p m, AppState.messages st !! p = Some m →
     ∃ m', AppState.messages (handle host e st) !! p = Some m' ∧
           Message.id m' = Message.id m ∧
           Message.role m' = Message.role m ∧
           Message.content m' = Message.content m ∧
           (Message.id m ≠ target e → m' = m) ∧
           (∀ x, e = ClickUndo x →
                 Message.steps m' = Message.steps m ∧
                 Message.undoInfo m' = Message.undoInfo m)) ∧
  (length (AppState.messages st) ≤ length (AppState.messages (handle host e st))
   ≤ length (AppState.messages st) + 1)%nat.
Proof.
  assert (∀ (g : Message.t → Message.t) extra p m,
            AppState.messages st !! p = Some m →
            (map g (AppState.messages st) ++ extra) !! p = Some (g m)) as Hlook.
  { intros g extra p m Hp.
    rewrite lookup_app_l by (rewrite length_map; by eapply lookup_lt_Some).
    by rewrite list_lookup_fmap, Hp. }
  destruct e as [res|x]; simpl.
  - destruct (ChatResponse.steps res) as [[|s0 steps0]|] eqn:Hsteps.
    + destruct (handleResponse_plain host res st) as (content & w & l & -> & _); [by right|].
      simpl. split; [|rewrite length_app; simpl; lia].
      intros p m Hp. exists m. rewrite lookup_app_l by (by eapply lookup_lt_Some).
      repeat split; done.
    + rewrite (handleResponse_plan host res st (s0 :: steps0)) by done. simpl.
      split; [|rewrite length_app, length_map; simpl; lia].
      intros p m Hp. eexists. split; [by apply Hlook|].
      split; [apply touched_id|]. split; [apply touched_fields|].
      split; [apply touched_fields|]. split; [apply touched_other|done].
    + destruct (handleResponse_plain host res st) as (content & w & l & -> & _); [by left|].
      simpl. split; [|rewrite length_app; simpl; lia].
      intros p m Hp. exists m. rewrite lookup_app_l by (by eapply lookup_lt_Some).
      repeat split; done.
  - destruct (handleUndo_cases host x st) as [->|(msg & u & _ & _ & _ & ->)]; simpl.
    + split; [|lia]. intros p m Hp. exists m. repeat split; done.
    + split; [|rewrite length_app, length_map; simpl; lia].
      intros p m Hp. eexists. split; [by apply Hlook|].
      unfold markUndone. case_bool_decide; repeat split; try done; congruence.
Qed.
End Frame.

(** * The cards of the steps after a run *)

Section Cards.
Context {World : Type} (host : Host.t World).

(** X7.  In the message of a plan after its run, the card of a step
    shows a result text only when the step is in error, the card of the
    step in error shows the text the host returned, which begins with
    "Error", and at most one card shows a text.  The text returned for
    a step that ends done is never shown. *)
Theorem cards_show_error_text_only res (st : AppState.t World) steps :
  ChatResponse.steps res = Some steps → steps ≠ [] →
  ∃ older m ss,
    AppState.messages (handleResponse host res st) = older ++ [m] ∧
    Message.steps m = Some ss ∧
    (∀ j s r, ss !! j = Some s → StepCard.result (StepCard.view s) = Some r →
       StepWithStatus._status s = Some Status.error ∧
       StepWithStatus._result s = Some r ∧
       startsWith r "Error" = true ∧
       StepCard.statusIcon (StepCard.view s) = StepCard.cross) ∧
    (∀ j s, ss !! j = Some s → StepWithStatus._status s = Some Status.error →
       StepCard.result (StepCard.view s) = StepWithStatus._result s ∧
       StepWithStatus._result s ≠ None) ∧
    (∀ j s, ss !! j = Some s → StepWithStatus._status s = Some Status.done →
       StepCard.result (StepCard.view s) = None ∧
       StepCard.statusIcon (StepCard.view s) = StepCard.check) ∧
    (∀ j j' s s', ss !! j = Some s → ss !! j' = Some s' →
       StepCard.result (StepCard.view s) ≠ None →
       StepCard.result (StepCard.view s') ≠ None → j = j').
Proof.
  intros Hsteps Hne. rewrite (handleResponse_plan host res st steps) by done. simpl.
  eexists _, _, _. split; [done|]. split; [done|].
  set (rs := (runResults host steps (AppState.world st)).1).
  assert (∀ j s, finalSteps steps rs !! j = Some s →
            (StepWithStatus._status s = Some Status.pending ∧
             StepWithStatus._result s = None) ∨
            ∃ r, StepWithStatus._status s = Some (classify r) ∧
                 StepWithStatus._result s = Some r) as Hcases.
  { intros j s. rewrite finalSteps_lookup.
    destruct (steps !! j) as [step|]; simpl; [|done].
    destruct (rs !! j) as [r|]; intros [= <-]; simpl; [right; eauto|by left]. }
  assert (∀ j s r, finalSteps steps rs !! j = Some s →
            StepCard.result (StepCard.view s) = Some r →
            StepWithStatus._status s = Some Status.error ∧
            StepWithStatus._result s = Some r ∧ startsWith r "Error" = true) as Hshown.
  { intros j s r Hj. unfold StepCard.view, StepWithStatus.shown. simpl.
    destruct (Hcases j s Hj) as [[Hst Hres]|(r' & Hst & Hres)]; rewrite Hst, Hres; simpl.
    - done.
    - destruct (negb (r' =? "")); simpl; [|done].
      case_bool_decide as Herr; [|done]. intros [= <-].
      rewrite Herr. split; [done|]. split; [done|]. by apply classify_error. }
  repeat apply conj.
  - intros j s r Hj Hr. destruct (Hshown j s r Hj Hr) as (Hst & Hres & Hpre).
    repeat split; try done.
    unfold StepCard.view, StepWithStatus.shown. by rewrite Hst.
  - intros j s Hj Hst. unfold StepCard.view, StepWithStatus.shown. simpl.
    destruct (Hcases j s Hj) as [[Hst' _]|(r & Hst' & Hres)]; [congruence|].
    rewrite Hst, Hres. simpl.
    assert (classify r = Status.error) as Herr by congruence.
    apply classify_error, startsWith_spec in Herr as [t ->]. simpl. done.
  - intros j s Hj Hst. unfold StepCard.view, StepWithStatus.shown. simpl.
    rewrite Hst. simpl. by rewrite andb_false_r.
  - intros j j' s s' Hj Hj' Hr Hr'.
    destruct (StepCard.result (StepCard.view s)) as [r|] eqn:Hres; [|done].
    destruct (StepCard.result (StepCard.view s')) as [r'|] eqn:Hres'; [|done].
    destruct (Hshown j s r Hj Hres) as (Hst & _).
    destruct (Hshown j' s' r' Hj' Hres') as (Hst' & _).
    destruct (finalSteps_outcome host steps (AppState.world st)) as [[Hdone _]|(k & Hhalt & _)];
      fold rs in Hdone || fold rs in Hhalt.
    + specialize (Hdone j s Hj). congruence.
    + rewrite (haltedAt_one_error k _ j s Hhalt Hj Hst).
      by rewrite (haltedAt_one_error k _ j' s' Hhalt Hj' Hst').
Qed.
End Cards.

(** * A plan and its undo *)

Section RespondThenUndo.
Context {World : Type} (host : Host.t World).

Lemma find_fresh (msgs : list Message.t) x :
  (∀ m, m ∈ msgs → Message.id m ≠ x) →
  List.find (λ m, bool_decide (Message.id m = x)) msgs = None.
Proof.
  intros Hfresh. destruct (List.find _ _) as [m|] eqn:Hfind; [|done].
  apply List.find_some in Hfind as [Hin Hid]. apply bool_decide_eq_true in Hid.
  by destruct (Hfresh m (proj2 (list_elem_of_In _ _) Hin)).
Qed.

Lemma map_fresh (g : Message.t → Message.t) (msgs : list Message.t) x :
  (∀ m, Message.id m ≠ x → g m = m) →
  (∀ m, m ∈ msgs → Message.id m ≠ x) → map g msgs = msgs.
Proof.
  intros Hg Hfresh. rewrite <- (map_id msgs) at 2. apply map_ext_in.
  intros m Hm. apply Hg, Hfresh. by apply list_elem_of_In.
Qed.

Lemma handleUndo_undone (st : AppState.t World) x :
  undoneFlag x st = true → handleUndo host x st = st.
Proof.
  unfold undoneFlag, handleUndo. destruct (List.find _ _) as [msg|]; [|done].
  intros ->. by destruct (Message.undoInfo msg).
Qed.

(** The Undo control on the last message, when no older message has its
    id. *)
Lemma handleUndo_last (msgs : list Message.t) (fm : Message.t) (w : World) log u :
  (∀ m, m ∈ msgs → Message.id m ≠ Message.id fm) →
  Message.undoInfo fm = Some u →
  handleUndo host (Message.id fm) (AppState.mk (msgs ++ [fm]) w log) =
  if Message.isUndone fm then AppState.mk (msgs ++ [fm]) w log
  else
    AppState.mk
      (msgs ++
       [Message.setUndone fm;
        Message.mk (Host.randomUUID host (undoSheetActionsGAS host u w).2).1 Role.assistant
          ("Undo complete: " +:+ (undoSheetActionsGAS host u w).1) None None None])
      (Host.randomUUID host (undoSheetActionsGAS host u w).2).2
      (log ++ [CallUndo (Message.id fm) u]).
Proof.
  intros Hfresh Hu. unfold handleUndo. simpl.
  rewrite find_app, (find_fresh msgs _ Hfresh). simpl.
  rewrite bool_decide_eq_true_2 by done. rewrite Hu.
  destruct (Message.isUndone fm); [done|].
  destruct (undoSheetActionsGAS host u w) as [result w1]. simpl.
  destruct (Host.randomUUID host w1) as [uuid w2]. simpl.
  rewrite map_app, <- app_assoc. simpl. rewrite bool_decide_eq_true_2 by done.
  rewrite (map_fresh _ msgs (Message.id fm)); [done| |done].
  intros m Hm. by rewrite bool_decide_eq_false_2.
Qed.

(** The click on the Undo button of the last message, when no older
    message has its id. *)
Lemma handleUndoClick_last (msgs : list Message.t) (fm : Message.t) (w : World) log u :
  (∀ m, m ∈ msgs → Message.id m ≠ Message.id fm) →
  Message.undoInfo fm = Some u → Message.isUndone fm = false →
  handleUndoClick host (Message.id fm) (Page.mk (AppState.mk (msgs ++ [fm]) w log) []) =
  Page.mk
    (AppState.mk (msgs ++ [fm]) (undoSheetActionsGAS host u w).2
       (log ++ [CallUndo (Message.id fm) u]))
    [Undoing.mk (Message.id fm) (undoSheetActionsGAS host u w).1 Undoing.AwaitingUndo].
Proof.
  intros Hfresh Hu Hd. unfold handleUndoClick. simpl.
  rewrite find_app, (find_fresh msgs _ Hfresh). simpl.
  rewrite bool_decide_eq_true_2 by done. rewrite Hu, Hd.
  by destruct (undoSheetActionsGAS host u w).
Qed.

Lemma markUndone_last (msgs : list Message.t) (fm : Message.t) :
  (∀ m, m ∈ msgs → Message.id m ≠ Message.id fm) →
  map (markUndone (Message.id fm)) (msgs ++ [fm]) = msgs ++ [Message.setUndone fm].
Proof.
  intros Hfresh. rewrite map_app. simpl. unfold markUndone at 2.
  rewrite bool_decide_eq_true_2 by done.
  rewrite (map_fresh _ msgs (Message.id fm)); [done| |done].
  intros m Hm. unfold markUndone. by rewrite bool_decide_eq_false_2.
Qed.

Lemma resume_marks (st : AppState.t World) y result :
  resume host 0 (Page.mk st [Undoing.mk y result Undoing.AwaitingUndo]) =
  Page.mk (setMessages (map (markUndone y)) st) [Undoing.mk y result Undoing.AwaitingSheets].
Proof. done. Qed.

Lemma resume_reports (st : AppState.t World) y result :
  resume host 0 (Page.mk st [Undoing.mk y result Undoing.AwaitingSheets]) =
  Page.mk
    (AppState.mk
       (AppState.messages st ++
        [Message.mk (Host.randomUUID host (AppState.world st)).1 Role.assistant
           ("Undo complete: " +:+ result) None None None])
       (Host.randomUUID host (AppState.world st)).2 (AppState.log st))
    [].
Proof. unfold resume. simpl. by destruct (Host.randomUUID host _). Qed.

(** X8.  When a plan with a non-empty reversal log has been run under a
    message id that no older message has, a click on the Undo button of
    its message passes to the host the log of the whole plan, once, and
    leaves the messages as they are; when that call has returned the
    flag of the message is set, its steps staying as they were; when the
    list of sheets has been read again a message that reports the answer
    of the host is appended.  A click made once the flag is set, before
    or after that last message, changes nothing and calls nothing.  With
    no other handler in between, the three stages are [handleUndo]. *)
Theorem respond_then_undo res (st : AppState.t World) steps :
  ChatResponse.steps res = Some steps → steps ≠ [] →
  buildUndoInfo steps ≠ UndoInfo.empty →
  (∀ m, m ∈ AppState.messages st → Message.id m ≠ ChatResponse.message_id res) →
  let x := ChatResponse.message_id res in
  let st1 := handleResponse host res st in
  let pg1 := handleUndoClick host x (Page.mk st1 []) in
  let pg2 := resume host 0 pg1 in
  let pg3 := resume host 0 pg2 in
  AppState.log (Page.app pg1) = AppState.log st1 ++ [CallUndo x (buildUndoInfo steps)] ∧
  AppState.messages (Page.app pg1) = AppState.messages st1 ∧
  AppState.log (Page.app pg3) = AppState.log (Page.app pg1) ∧
  Page.suspended pg3 = [] ∧
  (∃ m new,
     AppState.messages st1 = AppState.messages st ++ [m] ∧
     AppState.messages (Page.app pg2) = AppState.messages st ++ [Message.setUndone m] ∧
     AppState.messages (Page.app pg3) = AppState.messages st ++ [Message.setUndone m; new] ∧
     Message.role new = Role.assistant ∧
     Message.content new =
       "Undo complete: "
       +:+ (undoSheetActionsGAS host (buildUndoInfo steps) (AppState.world st1)).1 ∧
     Message.steps new = None ∧ Message.undoInfo new = None) ∧
  handleUndoClick host x pg2 = pg2 ∧
  handleUndoClick host x pg3 = pg3 ∧
  Page.app pg3 = handleUndo host x st1.
Proof.
  intros Hsteps Hne Hlog Hfresh x st1 pg1 pg2 pg3.
  subst pg3 pg2 pg1 st1 x.
  rewrite (handleResponse_plan host res st steps) by done.
  set (rs := (runResults host steps (AppState.world st)).1).
  set (w1 := (runResults host steps (AppState.world st)).2).
  rewrite (map_fresh _ _ (ChatResponse.message_id res)) by (done || apply touched_other).
  assert (attached (buildUndoInfo steps) = Some (buildUndoInfo steps)) as Hatt.
  { destruct (attached (buildUndoInfo steps)) eqn:Ha.
    - unfold attached in Ha. by destruct (_ || _); simplify_eq.
    - by apply attached_None in Ha. }
  pose proof (handleUndoClick_last (AppState.messages st) (finalMessage res steps rs) w1
                (AppState.log st ++
                 map (λ s, CallExecute (StepAction.action s)) (take (length rs) steps))
                (buildUndoInfo steps) Hfresh Hatt eq_refl) as Hclick.
  pose proof (markUndone_last (AppState.messages st) (finalMessage res steps rs) Hfresh)
    as Hmark.
  pose proof (handleUndo_last (AppState.messages st) (finalMessage res steps rs) w1
                (AppState.log st ++
                 map (λ s, CallExecute (StepAction.action s)) (take (length rs) steps))
                (buildUndoInfo steps) Hfresh Hatt) as Hundo.
  cbn [Message.id Message.isUndone Message.undone finalMessage default] in Hclick, Hmark, Hundo.
  rewrite Hclick, Hundo, resume_marks, resume_reports.
  unfold setMessages. cbn [AppState.messages AppState.world AppState.log Page.app Page.suspended].
  rewrite Hmark.
  split; [done|]. split; [done|]. split; [done|]. split; [done|]. split.
  - eexists _, _. split; [done|]. split; [done|]. split; [by rewrite <- app_assoc|]. done.
  - split; [|split].
    + apply handleUndoClick_undone. unfold undoneFlag. cbn.
      rewrite find_app, (find_fresh _ _ Hfresh). cbn.
      by rewrite bool_decide_eq_true_2.
    + apply handleUndoClick_undone. unfold undoneFlag. cbn.
      rewrite <- app_assoc, find_app, (find_fresh _ _ Hfresh). cbn.
      by rewrite bool_decide_eq_true_2.
    + by rewrite <- app_assoc.
Qed.
End RespondThenUndo.

(** * The chat: history, requests and failures *)

Section History.
(** X9.  The history sent with a request holds the last ten messages,
    in their order, or all of them when there are fewer: its length is
    the smaller of 10 and the number of messages, and it is the end of
    the list of their roles and contents. *)
Theorem buildHistory_last_ten (messages : list Message.t) :
  length (buildHistory messages) = min 10 (length messages) ∧
  (∃ older,
     map (λ m, HistoryMessage.mk (Message.role m) (Message.content m)) messages
     = older ++ buildHistory messages) ∧
  ((length messages ≤ 10)%nat →
   buildHistory messages
   = map (λ m, HistoryMessage.mk (Message.role m) (Message.content m)) messages) ∧
  (∀ m, buildHistory (messages ++ [m])
        = drop (length (buildHistory messages) - 9) (buildHistory messages)
          ++ [HistoryMessage.mk (Message.role m) (Message.content m)]).
Proof.
  unfold buildHistory. repeat apply conj.
  - rewrite length_map, length_drop. lia.
  - exists (map (λ m, HistoryMessage.mk (Message.role m) (Message.content m))
              (take (length messages - 10) messages)).
    by rewrite <- map_app, take_drop.
  - intros Hle. by replace (length messages - 10)%nat with 0%nat by lia.
  - intros m. rewrite length_map, length_drop, length_app. simpl.
    rewrite drop_app_le by lia. rewrite map_app. simpl. f_equal.
    change (map ?f ?l) with (f <$> l). rewrite <- fmap_drop, drop_drop.
    do 2 f_equal. lia.
Qed.
End History.

Section ChatProperties.
Context {World Instant : Type} (backend : Backend.t World Instant).
Implicit Types (ui : Ui.t World) (text : string).

#[local] Abbreviation gas := (Backend.gas backend).

(** The request [handleSend] builds, from what the sheet reader gave. *)
Lemma handleSend_requests text ui :
  ∃ sheetData,
    Ui.requests (handleSend backend text ui) =
    Ui.requests ui ++
    [ChatRequest.mk text (Ui.conversationId ui) (SheetPayload.fromData <$> sheetData)
       (SheetData.sheetName <$> sheetData)
       (if Nat.ltb 0 (length (buildHistory (AppState.messages (Ui.app ui))))
        then Some (buildHistory (AppState.messages (Ui.app ui))) else None)
       (Ui.mode ui)] ∧
    Ui.isConnected (handleSend backend text ui) = bool_decide (is_Some sheetData) ∧
    Ui.isLoading (handleSend backend text ui) = false.
Proof.
  unfold handleSend.
  destruct (Host.randomUUID _ _) as [uuid w1].
  destruct (Backend.now backend w1) as [startTime w2].
  destruct (if truthy (Ui.selectedSheet ui) then _ else _) as [sheetData w3].
  destruct (getAllSheets backend w3) as [updatedSheets w4].
  exists sheetData.
  destruct (Backend.sendMessage backend _ w4) as [[reply|err] w5];
    destruct (Backend.now backend w5) as [endTime w6]; [done|].
  by destruct (match err with ApiError status _ => _ | OtherError => _ end).
Qed.

(** X10.  Every call of [handleSend] sends one request.  It carries the
    text, the current conversation id and mode, and as history the last
    ten messages that were there before the text was sent (the message
    of the text itself is not among them), or no history when there were
    none; it carries sheet data exactly when the sheet reader gave some,
    which is when the header is left connected; and the spinner is off
    when [handleSend] ends. *)
Theorem handleSend_sends_one_request text ui :
  ∃ req,
    Ui.requests (handleSend backend text ui) = Ui.requests ui ++ [req] ∧
    ChatRequest.message req = text ∧
    ChatRequest.conversation_id req = Ui.conversationId ui ∧
    ChatRequest.mode req = Ui.mode ui ∧
    ChatRequest.history req =
      match AppState.messages (Ui.app ui) with
      | [] => None
      | _ => Some (buildHistory (AppState.messages (Ui.app ui)))
      end ∧
    (is_Some (ChatRequest.sheet_data req) ↔
     Ui.isConnected (handleSend backend text ui) = true) ∧
    (is_Some (ChatRequest.sheet_name req) ↔ is_Some (ChatRequest.sheet_data req)) ∧
    Ui.isLoading (handleSend backend text ui) = false.
Proof.
  destruct (handleSend_requests text ui) as (sheetData & Hreq & Hconn & Hload).
  eexists. split; [exact Hreq|]. simpl. rewrite Hconn.
  split; [done|]. split; [done|]. split; [done|]. split.
  { unfold buildHistory. rewrite length_map, length_drop.
    destruct (AppState.messages (Ui.app ui)) as [|m ms]; [done|].
    destruct (Nat.ltb_spec 0 (length (m :: ms) - (length (m :: ms) - 10))) as [|Hle];
      [done|]. simpl in Hle. lia. }
  split; [rewrite bool_decide_eq_true; by rewrite fmap_is_Some|].
  split; [by rewrite !fmap_is_Some|done].
Qed.

(** X11.  When the chat API rejects the request with status 402, the
    text the user sent is taken out of the conversation again (with a
    fresh id, the messages are those from before), the trial is marked
    expired with its fixed error text, no action is run on the sheet,
    and the spinner is off. *)
Theorem handleSend_trial_ended text ui :
  (∀ req w, ∃ message w',
      Backend.sendMessage backend req w = (Rejected (ApiError 402 message), w')) →
  (∀ w m, m ∈ AppState.messages (Ui.app ui) → Message.id m ≠ (Host.randomUUID gas w).1) →
  let ui' := handleSend backend text ui in
  AppState.messages (Ui.app ui') = AppState.messages (Ui.app ui) ∧
  AppState.log (Ui.app ui') = AppState.log (Ui.app ui) ∧
  Ui.trialExpired ui' = true ∧
  Ui.error ui' = Some trialEndedText ∧
  Ui.isLoading ui' = false ∧
  Ui.conversationId ui' = Ui.conversationId ui ∧
  Ui.trialRefreshKey ui' = S (Ui.trialRefreshKey ui).
Proof.
  intros Hsend Hfresh ui'. subst ui'. unfold handleSend.
  pose proof (Hfresh (AppState.world (Ui.app ui))) as Hid.
  destruct (Host.randomUUID _ _) as [uuid w1]. simpl in Hid.
  destruct (Backend.now backend w1) as [startTime w2].
  destruct (if truthy (Ui.selectedSheet ui) then _ else _) as [sheetData w3].
  destruct (getAllSheets backend w3) as [updatedSheets w4].
  match goal with |- context [Backend.sendMessage backend ?req w4] =>
    destruct (Hsend req w4) as (message & w5 & ->) end.
  destruct (Backend.now backend w5) as [endTime w6]. simpl.
  repeat split; try done.
  rewrite filter_app, filter_cons_False, app_nil_r by (simpl; by intros H; apply H).
  clear -Hid. induction (AppState.messages (Ui.app ui)) as [|m ms IH]; [done|].
  rewrite filter_cons_True by (apply Hid, elem_of_cons; by left).
  rewrite IH; [done|]. intros m' Hm'. apply Hid, elem_of_cons. by right.
Qed.

(** X12.  When the request fails in any other way, the text the user
    sent stays as the last message of the conversation, the error shown
    is the message of the API error, or the fixed network text for any
    other failure; no action is run on the sheet, the trial state and
    the conversation id are unchanged, and the spinner is off. *)
Theorem handleSend_request_failed text ui err :
  (∀ req w, ∃ w', Backend.sendMessage backend req w = (Rejected err, w')) →
  (∀ message, err ≠ ApiError 402 message) →
  let ui' := handleSend backend text ui in
  (∃ uuid,
     AppState.messages (Ui.app ui') =
     AppState.messages (Ui.app ui) ++ [Message.mk uuid Role.user text None None None]) ∧
  AppState.log (Ui.app ui') = AppState.log (Ui.app ui) ∧
  Ui.error ui' =
    Some (match err with ApiError _ message => message | OtherError => networkErrorText end) ∧
  Ui.trialExpired ui' = Ui.trialExpired ui ∧
  Ui.conversationId ui' = Ui.conversationId ui ∧
  Ui.isLoading ui' = false.
Proof.
  intros Hsend Hnot ui'. subst ui'. unfold handleSend.
  destruct (Host.randomUUID _ _) as [uuid w1].
  destruct (Backend.now backend w1) as [startTime w2].
  destruct (if truthy (Ui.selectedSheet ui) then _ else _) as [sheetData w3].
  destruct (getAllSheets backend w3) as [updatedSheets w4].
  match goal with |- context [Backend.sendMessage backend ?req w4] =>
    destruct (Hsend req w4) as (w5 & ->) end.
  destruct (Backend.now backend w5) as [endTime w6].
  assert (match err with
          | ApiError status _ => bool_decide (status = 402%Z)
          | OtherError => false
          end = false) as ->.
  { destruct err as [status message|]; [|done].
    apply bool_decide_eq_false_2. intros ->. by destruct (Hnot message). }
  simpl. repeat split; try done. by exists uuid.
Qed.

Lemma handleResponse_shape (res : ChatResponse.t) (st : AppState.t World) :
  ∃ (g : Message.t → Message.t) m,
    AppState.messages (handleResponse gas res st) = map g (AppState.messages st) ++ [m] ∧
    (∀ x, Message.id (g x) = Message.id x ∧ Message.role (g x) = Message.role x ∧
          Message.content (g x) = Message.content x) ∧
    Message.id m = ChatResponse.message_id res ∧ Message.role m = Role.assistant.
Proof.
  destruct (ChatResponse.steps res) as [[|s0 steps0]|] eqn:Hsteps.
  - destruct (handleResponse_plain gas res st) as (content & w & l & -> & _); [by right|].
    exists (λ m, m). eexists. rewrite map_id. by repeat split.
  - rewrite (handleResponse_plan gas res st (s0 :: steps0)) by done. simpl.
    eexists (touched _ _ _), _. split; [done|]. split; [|done].
    intros x. split; [apply touched_id|apply touched_fields].
  - destruct (handleResponse_plain gas res st) as (content & w & l & -> & _); [by left|].
    exists (λ m, m). eexists. rewrite map_id. by repeat split.
Qed.

(** X13.  When the chat API answers, the conversation grows by two
    messages: the text of the user, then the message of the assistant
    under the id of the response, produced by the response handling
    (with the run of its plan); the conversation id becomes that of the
    response, no error is shown and the spinner is off. *)
Theorem handleSend_answered text ui reply :
  (∀ req w, ∃ w', Backend.sendMessage backend req w = (Sent reply, w')) →
  let ui' := handleSend backend text ui in
  (∃ uuid w,
     Ui.app ui' =
     handleResponse gas (ChatReply.response reply)
       (AppState.mk
          (AppState.messages (Ui.app ui) ++ [Message.mk uuid Role.user text None None None])
          w (AppState.log (Ui.app ui)))) ∧
  (∃ older user assistant,
     AppState.messages (Ui.app ui') = older ++ [user; assistant] ∧
     length older = length (AppState.messages (Ui.app ui)) ∧
     Message.role user = Role.user ∧ Message.content user = text ∧
     Message.role assistant = Role.assistant ∧
     Message.id assistant = ChatResponse.message_id (ChatReply.response reply)) ∧
  Ui.conversationId ui' = Some (ChatReply.conversation_id reply) ∧
  Ui.error ui' = None ∧
  Ui.isLoading ui' = false.
Proof.
  intros Hsend ui'. subst ui'. unfold handleSend.
  destruct (Host.randomUUID _ _) as [uuid w1].
  destruct (Backend.now backend w1) as [startTime w2].
  destruct (if truthy (Ui.selectedSheet ui) then _ else _) as [sheetData w3].
  destruct (getAllSheets backend w3) as [updatedSheets w4].
  match goal with |- context [Backend.sendMessage backend ?req w4] =>
    destruct (Hsend req w4) as (w5 & ->) end.
  destruct (Backend.now backend w5) as [endTime w6]. simpl.
  split; [by eexists _, _|]. split; [|done].
  match goal with |- context [handleResponse gas ?res ?st0] =>
    destruct (handleResponse_shape res st0) as (g & m & -> & Hg & Hid & Hrole) end.
  simpl. rewrite map_app, <- app_assoc. simpl.
  eexists _, _, _. split; [done|]. rewrite length_map.
  destruct (Hg (Message.mk uuid Role.user text None None None)) as (_ & Hr & Hc).
  by repeat split.
Qed.

Lemma loadedMessages_spec (stored : list StoredMessage.t) (w : World) :
  length (loadedMessages backend stored w).1 = length stored ∧
  ∀ m, m ∈ (loadedMessages backend stored w).1 →
       Message.steps m = None ∧ Message.undoInfo m = None ∧ Message.undone m = None.
Proof.
  revert w. induction stored as [|s stored IH]; intros w; simpl.
  - split; [done|]. by intros m ?%elem_of_nil.
  - destruct (if truthy (StoredMessage.id s) then _ else _) as [id w1].
    specialize (IH w1). destruct (loadedMessages backend stored w1) as [loaded w2].
    simpl in *. destruct IH as [Hlen Hall]. split; [by rewrite Hlen|].
    intros m [->|Hm]%elem_of_cons; [done|by apply Hall].
Qed.

Lemma handleUndo_without_log (st : AppState.t World) x :
  (∀ m, m ∈ AppState.messages st → Message.undoInfo m = None) →
  handleUndo gas x st = st.
Proof.
  intros Hnone. unfold handleUndo.
  destruct (List.find _ _) as [msg|] eqn:Hfind; [|done].
  apply List.find_some in Hfind as [Hin _].
  by rewrite (Hnone msg (proj2 (list_elem_of_In _ _) Hin)).
Qed.

(** X14.  Undo does not survive a new chat or a reloaded conversation:
    after [handleNewChat] there is no message, and after a conversation
    has been loaded its messages, one per stored message, have no steps,
    no reversal log and no flag, so that no message shows the Undo
    button and the Undo control calls nothing, whatever id it is given.
    When loading fails, the messages and the conversation id stay and
    the fixed error text is shown. *)
Theorem undo_lost_on_new_or_loaded_conversation ui convId :
  (AppState.messages (Ui.app (handleNewChat ui)) = [] ∧
   Ui.conversationId (handleNewChat ui) = None ∧
   ∀ x, handleUndo gas x (Ui.app (handleNewChat ui)) = Ui.app (handleNewChat ui)) ∧
  (∀ stored,
     (Backend.getMessages backend convId (AppState.world (Ui.app ui))).1 = Some stored →
     let ui' := handleLoadConversation backend convId ui in
     Ui.conversationId ui' = Some convId ∧ Ui.error ui' = None ∧
     length (AppState.messages (Ui.app ui')) = length (default [] stored) ∧
     (∀ m, m ∈ AppState.messages (Ui.app ui') →
           Message.steps m = None ∧ Message.undoInfo m = None ∧
           Message.showsUndoButton m = false) ∧
     ∀ x, handleUndo gas x (Ui.app ui') = Ui.app ui') ∧
  ((Backend.getMessages backend convId (AppState.world (Ui.app ui))).1 = None →
   let ui' := handleLoadConversation backend convId ui in
   AppState.messages (Ui.app ui') = AppState.messages (Ui.app ui) ∧
   Ui.conversationId ui' = Ui.conversationId ui ∧
   Ui.error ui' = Some loadFailedText).
Proof.
  repeat apply conj; try done.
  - intros stored Hget ui'. subst ui'. unfold handleLoadConversation.
    destruct (Backend.getMessages backend convId _) as [got w1]. simpl in Hget. subst got.
    pose proof (loadedMessages_spec (default [] stored) w1) as [Hlen Hall].
    destruct (loadedMessages backend (default [] stored) w1) as [loaded w2]. simpl in *.
    split; [done|]. split; [done|]. split; [done|]. split.
    + intros m Hm. destruct (Hall m Hm) as (Hs & Hu & Hd).
      unfold Message.showsUndoButton, Message.showsSteps. rewrite Hs, Hu.
      by destruct (Message.role m).
    + intros x. apply handleUndo_without_log. intros m Hm. by apply Hall.
  - intros Hget ui'. subst ui'. unfold handleLoadConversation.
    destruct (Backend.getMessages backend convId _) as [got w1]. simpl in Hget. by subst got.
Qed.
End ChatProperties.

(** * The input box *)

Section InputAreaProperties.
Import InputArea.
Context (trim : string → string).
Implicit Types (s : InputArea.t) (l : bool).

Lemma noRepeat_removelast (h : list string) : noRepeat h → noRepeat (removelast h).
Proof.
  induction h as [|a [|b h] IH]; simpl; [done..|].
  intros [Hab Hrest]. destruct h as [|c h]; [done|]. split; [done|]. by apply IH.
Qed.

Lemma Forall_removelast {A} (P : A → Prop) (h : list A) :
  Forall P h → Forall P (removelast h).
Proof.
  induction 1 as [|a h Ha Hh IH]; simpl; [done|].
  destruct h; [constructor|]. by constructor.
Qed.

Lemma length_removelast {A} (h : list A) : length (removelast h) = pred (length h).
Proof.
  induction h as [|a [|b h] IH]; simpl in *; [done..|]. by rewrite IH.
Qed.

Lemma at_in_range (h : list string) (i : Z) :
  (0 ≤ i < Z.of_nat (length h))%Z → ∃ entry, at_ h i = Some entry ∧ h !! Z.to_nat i = Some entry.
Proof.
  intros Hi. unfold at_. rewrite bool_decide_eq_false_2 by lia.
  destruct (lookup_lt_is_Some_2 h (Z.to_nat i)) as [entry He]; [lia|]. eauto.
Qed.

Lemma handleSend_ok l s :
  inputOk s →
  inputOk (handleSend trim l s).1 ∧
  ∀ text, (handleSend trim l s).2 = Some text →
    text ≠ "" ∧ l = false ∧ text = trim (message s) ∧
    head (commandHistory (handleSend trim l s).1) = Some text ∧
    message (handleSend trim l s).1 = "".
Proof.
  intros (Hlen & Hidx & Hrep & Hne). unfold handleSend.
  destruct (String.eqb_spec (trim (message s)) "") as [Hblank|Htext]; simpl.
  { split; [done|]. by intros text. }
  destruct l; simpl; [split; [done|by intros text]|].
  case_bool_decide as Hhead; simpl.
  - destruct (Nat.ltb_spec MAX_HISTORY (S (length (commandHistory s)))) as [Hbig|Hsmall].
    + destruct (commandHistory s) as [|b h] eqn:Hh; [unfold MAX_HISTORY in *; simpl in *; lia|].
      change (trim (message s) :: removelast (b :: h))
        with (removelast (trim (message s) :: b :: h)).
      split; [|intros text [= <-]; by repeat split].
      unfold inputOk. cbn [commandHistory historyIndex].
      rewrite length_removelast.
      split; [simpl in *; lia|]. split; [simpl; lia|]. split.
      * apply noRepeat_removelast. split; [|done]. simpl in Hhead. congruence.
      * apply Forall_removelast. by constructor.
    + split; [|intros text [= <-]; by repeat split].
      unfold inputOk. cbn [commandHistory historyIndex].
      split; [simpl in *; lia|]. split; [simpl; lia|]. split.
      * destruct (commandHistory s) as [|b h]; [done|]. split; [|done].
        simpl in Hhead. congruence.
      * by constructor.
  - split.
    + unfold inputOk. cbn [commandHistory historyIndex].
      split; [done|]. split; [|done].
      destruct (commandHistory s); [done|simpl; lia].
    + intros text [= <-]. by repeat split.
Qed.

Lemma inputOk_browse s (text saved : string) (i : Z) :
  inputOk s → (-1 ≤ i < Z.of_nat (length (commandHistory s)))%Z →
  inputOk (mk text i saved (commandHistory s)).
Proof. intros (Hlen & _ & Hrep & Hne) Hi. by split; [|split; [|split]]. Qed.

Lemma step_ok l e s :
  inputOk s →
  ∃ s' sent, step trim l e s = Some (s', sent) ∧ inputOk s' ∧
             ∀ text, sent = Some text → text ≠ "" ∧ l = false.
Proof.
  intros Hok. pose proof Hok as (Hlen & Hidx & Hrep & Hne).
  assert (∃ s' sent, Some (handleSend trim l s) = Some (s', sent) ∧ inputOk s' ∧
                     ∀ text, sent = Some text → text ≠ "" ∧ l = false) as Hsend.
  { destruct (handleSend_ok l s Hok) as [Hok' Hsent].
    destruct (handleSend trim l s) as [s' sent]. exists s', sent. split; [done|].
    split; [done|]. intros text Ht. by destruct (Hsent text Ht) as (? & ? & _). }
  destruct e as [value|[[|]| | |]|]; simpl; try done.
  - eexists _, _. split; [done|]. split; [by apply inputOk_browse|done].
  - by eexists _, _.
  - case_bool_decide as Hempty; [by eexists _, _|].
    destruct (at_in_range (commandHistory s)
                (Z.min (historyIndex s + 1) (Z.of_nat (length (commandHistory s)) - 1)))
      as (entry & -> & _); [lia|].
    simpl. eexists _, _. split; [done|]. split; [|done]. apply inputOk_browse; [done|lia].
  - case_bool_decide as Hlow.
    + eexists _, _. split; [done|]. split; [|done]. apply inputOk_browse; [done|lia].
    + destruct (at_in_range (commandHistory s) (historyIndex s - 1)) as (entry & -> & _); [lia|].
      simpl. eexists _, _. split; [done|]. split; [|done]. apply inputOk_browse; [done|lia].
  - by eexists _, _.
Qed.

Lemma run_ok es s :
  inputOk s →
  ∃ s' sents, run trim es s = Some (s', sents) ∧ inputOk s' ∧ Forall (λ t, t ≠ "") sents.
Proof.
  revert s. induction es as [|[l e] es IH]; intros s Hok; simpl.
  - exists s, []. by split; [|split].
  - destruct (step_ok l e s Hok) as (s1 & sent & -> & Hok1 & Hsent).
    destruct (IH s1 Hok1) as (s2 & sents & -> & Hok2 & Hall).
    eexists _, _. split; [done|]. split; [done|].
    destruct sent as [text|]; [|done]. constructor; [|done]. by apply (Hsent text).
Qed.

(** X15.  Whatever is typed, sent or browsed, starting from the empty
    box: no handler ever reads outside the command history, the history
    never holds more than 50 commands, never holds an empty command or
    the same command twice in a row, the browsing position stays between
    -1 and the last entry, and no empty text is ever sent. *)
Theorem input_history_invariant (es : list (bool * InputArea.Event)) :
  ∃ s sents,
    run trim es initial = Some (s, sents) ∧
    (length (commandHistory s) ≤ 50)%nat ∧
    (-1 ≤ historyIndex s < Z.of_nat (length (commandHistory s)))%Z ∧
    noRepeat (commandHistory s) ∧
    Forall (λ h, h ≠ "") (commandHistory s) ∧
    Forall (λ t, t ≠ "") sents.
Proof.
  destruct (run_ok es initial) as (s & sents & Hrun & (H1 & H2 & H3 & H4) & Hsent).
  { split; [simpl; unfold MAX_HISTORY; lia|]. split; [simpl; lia|]. by split. }
  exists s, sents. by split; [|split; [|split; [|split; [|split]]]].
Qed.

Lemma ups_spec l (k : nat) s :
  commandHistory s ≠ [] →
  (-1 ≤ historyIndex s < Z.of_nat (length (commandHistory s)))%Z →
  ∃ entry,
    commandHistory s
      !! Z.to_nat (Z.min (historyIndex s + Z.of_nat (S k))
                     (Z.of_nat (length (commandHistory s)) - 1)) = Some entry ∧
    run trim (replicate (S k) (l, KeyDown ArrowUp)) s =
    Some (mk entry
            (Z.min (historyIndex s + Z.of_nat (S k)) (Z.of_nat (length (commandHistory s)) - 1))
            (if bool_decide (historyIndex s = -1)%Z then message s else savedMessage s)
            (commandHistory s), []).
Proof.
  revert s. induction k as [|k IH]; intros s Hne Hidx.
  - cbn [replicate run step handleKeyDown].
    rewrite bool_decide_eq_false_2 by (by destruct (commandHistory s)).
    assert (0 < Z.of_nat (length (commandHistory s)))%Z
      by (destruct (commandHistory s); [done|simpl; lia]).
    destruct (at_in_range (commandHistory s)
                (Z.min (historyIndex s + 1) (Z.of_nat (length (commandHistory s)) - 1)))
      as (entry & Hat & Hlook); [lia|].
    exists entry. rewrite Hat. simpl. split; [|done].
    by replace (historyIndex s + 1)%Z with (historyIndex s + Z.of_nat 1)%Z in Hlook by lia.
  - assert (0 < Z.of_nat (length (commandHistory s)))%Z
      by (destruct (commandHistory s); [done|simpl; lia]).
    change (replicate (S (S k)) (l, KeyDown ArrowUp))
      with ((l, KeyDown ArrowUp) :: replicate (S k) (l, KeyDown ArrowUp)).
    cbn [run step handleKeyDown].
    rewrite bool_decide_eq_false_2 by (by destruct (commandHistory s)).
    destruct (at_in_range (commandHistory s)
                (Z.min (historyIndex s + 1) (Z.of_nat (length (commandHistory s)) - 1)))
      as (entry1 & Hat & _); [lia|].
    rewrite Hat. cbn [fmap option_fmap option_map].
    match goal with |- context [run trim _ ?s1] =>
      destruct (IH s1) as (entry & Hlook & Hrun); [done|simpl; lia|] end.
    cbn [commandHistory historyIndex message savedMessage] in Hlook, Hrun.
    replace (Z.min (Z.min (historyIndex s + 1) (Z.of_nat (length (commandHistory s)) - 1)
                    + Z.of_nat (S k))
               (Z.of_nat (length (commandHistory s)) - 1))
      with (Z.min (historyIndex s + Z.of_nat (S (S k)))
              (Z.of_nat (length (commandHistory s)) - 1)) in Hlook, Hrun by lia.
    exists entry. split; [done|]. rewrite Hrun. do 3 f_equal.
    rewrite (bool_decide_eq_false_2 (Z.min _ _ = -1)%Z) by lia. done.
Qed.

Lemma downs_spec l (k : nat) s :
  (historyIndex s < Z.of_nat k)%Z →
  (-1 ≤ historyIndex s < Z.of_nat (length (commandHistory s)))%Z →
  (1 ≤ k)%nat →
  run trim (replicate k (l, KeyDown ArrowDown)) s =
  Some (mk (savedMessage s) (-1) (savedMessage s) (commandHistory s), []).
Proof.
  revert s. induction k as [|k IH]; intros s Hk Hidx Hpos; [lia|].
  cbn [replicate run step handleKeyDown].
  case_bool_decide as Hlow.
  - destruct k as [|k]; [done|].
    rewrite IH by (simpl; lia). done.
  - destruct (at_in_range (commandHistory s) (historyIndex s - 1)) as (entry & Hat & _); [lia|].
    rewrite Hat. cbn [fmap option_fmap option_map].
    rewrite IH by (simpl; lia). done.
Qed.

(** X16.  Browsing the history and coming back restores the draft: from
    a box that holds a draft, with a history that is not empty, pressing
    ArrowUp k times shows the k-th latest command (the oldest one when
    the history is shorter), and pressing ArrowDown k times after that
    shows the draft again, at position -1, with the history as it
    was. *)
Theorem input_history_round_trip l l' (k : nat) s :
  commandHistory s ≠ [] → historyIndex s = (-1)%Z → (1 ≤ k)%nat →
  ∃ entry,
    commandHistory s !! (min (k - 1) (length (commandHistory s) - 1)) = Some entry ∧
    (∃ s1, run trim (replicate k (l, KeyDown ArrowUp)) s = Some (s1, []) ∧
           message s1 = entry ∧ commandHistory s1 = commandHistory s) ∧
    (∃ s2, run trim (replicate k (l, KeyDown ArrowUp) ++ replicate k (l', KeyDown ArrowDown)) s
           = Some (s2, []) ∧
           message s2 = message s ∧ historyIndex s2 = (-1)%Z ∧
           commandHistory s2 = commandHistory s).
Proof.
  intros Hne Hidx Hk. destruct k as [|k]; [lia|].
  assert (0 < Z.of_nat (length (commandHistory s)))%Z
    by (destruct (commandHistory s); [done|simpl; lia]).
  destruct (ups_spec l k s Hne) as (entry & Hlook & Hrun); [lia|].
  rewrite Hidx in Hlook, Hrun. rewrite bool_decide_eq_true_2 in Hrun by done.
  exists entry. split; [|split].
  - rewrite <- Hlook. f_equal. lia.
  - eexists. split; [exact Hrun|]. done.
  - assert (∀ es1 es2 s0 s1, run trim es1 s0 = Some (s1, []) →
              run trim (es1 ++ es2) s0 = run trim es2 s1) as Happ.
    { induction es1 as [|[b e] es1 IH]; intros es2 s0 s1; simpl.
      - by intros [= ->].
      - destruct (step trim b e s0) as [[s' sent]|]; [|done].
        destruct (run trim es1 s') as [[s'' sents]|] eqn:Hr; [|done].
        destruct sent; [done|]. intros [= -> ->]. rewrite (IH es2 s' s1 Hr).
        by destruct (run trim es2 s1) as [[? ?]|]. }
    rewrite (Happ _ _ _ _ Hrun), downs_spec by (simpl; lia).
    eexists. split; [done|]. done.
Qed.

Lemma handleSend_sent s :
  trim (message s) ≠ "" →
  ∃ history,
    handleSend trim false s = (mk "" (-1) "" history, Some (trim (message s))) ∧
    head history = Some (trim (message s)).
Proof.
  intros Htext. unfold handleSend. rewrite (proj2 (String.eqb_neq _ _) Htext).
  cbn [orb]. eexists. split; [done|].
  case_bool_decide as Hhead; [|done].
  destruct (Nat.ltb MAX_HISTORY (length (trim (message s) :: commandHistory s))) eqn:Hbig;
    [|done].
  destruct (commandHistory s) as [|b h]; [done|]. done.
Qed.

(** X17.  Sending from the box: a text that is blank once trimmed, or
    any text while a request is loading, is not sent and leaves the box
    as it is; otherwise the trimmed text is sent, the box is emptied,
    and the next ArrowUp brings the text that was sent back into the
    box. *)
Theorem input_send_then_recall l s :
  (trim (message s) = "" ∨ l = true → step trim l ClickSend s = Some (s, None)) ∧
  (trim (message s) ≠ "" → l = false →
   ∃ s1 s2,
     step trim l ClickSend s = Some (s1, Some (trim (message s))) ∧
     message s1 = "" ∧ historyIndex s1 = (-1)%Z ∧
     head (commandHistory s1) = Some (trim (message s)) ∧
     step trim l (KeyDown ArrowUp) s1 = Some (s2, None) ∧
     message s2 = trim (message s) ∧ savedMessage s2 = "").
Proof.
  split.
  - intros Hskip. simpl. unfold handleSend.
    destruct Hskip as [-> | ->]; [done|]. by rewrite orb_true_r.
  - intros Htext ->.
    destruct (handleSend_sent s Htext) as (history & Hsend & Hhead).
    destruct history as [|h hs]; [done|]. injection Hhead as ->.
    exists (mk "" (-1) "" (trim (message s) :: hs)),
           (mk (trim (message s)) 0 "" (trim (message s) :: hs)).
    cbn [step handleKeyDown]. rewrite Hsend.
    split; [done|]. split; [done|]. split; [done|]. split; [done|]. split; [|done].
    cbn [commandHistory historyIndex message savedMessage].
    replace (Z.min (-1 + 1) (Z.of_nat (length (trim (message s) :: hs)) - 1))%Z with 0%Z
      by (simpl; lia).
    done.
Qed.
End InputAreaProperties.

(** * The preview of a reasoning result *)

Section Preview.
(** X18.  The preview of a reasoning result never has more than 153
    UTF-16 code units; a result of at most 150 code units is shown
    whole, and a longer one is cut to its first 150 code units followed
    by "...". *)
Theorem resultPreview_bounded (result : CodeUnits) :
  (length (resultPreview result) ≤ 153)%nat ∧
  ((length result ≤ 150)%nat → resultPreview result = result) ∧
  ((150 < length result)%nat →
   ∃ shown rest,
     result = shown ++ rest ∧ length shown = 150%nat ∧ rest ≠ [] ∧
     resultPreview result = shown ++ ellipsis).
Proof.
  unfold resultPreview.
  destruct (Nat.ltb_spec 150 (length result)) as [Hlong|Hshort].
  - split; [rewrite length_app, length_take; change (length ellipsis) with 3%nat; lia|].
    split; [lia|]. intros _. exists (take 150 result), (drop 150 result).
    split; [by rewrite take_drop|]. split; [rewrite length_take; lia|]. split; [|done].
    intros Hnil. apply (f_equal length) in Hnil. rewrite length_drop in Hnil.
    change (length (@nil N)) with 0%nat in Hnil. lia.
  - split; [rewrite length_app, length_take; change (length (@nil N)) with 0%nat; lia|].
    split; [|lia]. intros _. by rewrite app_nil_r, take_ge.
Qed.
End Preview.

(** * The further properties on concrete plans, chats and boxes *)

Section ConcreteMore.
#[local] Abbreviation planC := (Build.plan "m1" scenarioC).

Lemma step_without_target_untracked_witness :
  SheetAction.action (StepAction.action activeSheetStep) = ActionKind.setFormula ∧
  absent (SheetAction.sheet (StepAction.action activeSheetStep)) ∧
  buildUndoInfo (scenarioC ++ activeSheetStep :: scenarioB)
  = buildUndoInfo (scenarioC ++ scenarioB).
Proof.
  split; [reflexivity|]. split; [right; reflexivity|].
  apply (step_without_target_untracked scenarioC activeSheetStep scenarioB).
  - discriminate.
  - intros _. left. right. reflexivity.
  - discriminate.
Defined.

Lemma undo_offered_iff_some_step_tracked_witness :
  ChatResponse.steps planC = Some scenarioC ∧ scenarioC ≠ [] ∧
  ∃ older m,
    AppState.messages haltedRun = older ++ [m] ∧
    Message.id m = "m1" ∧
    (Message.undoInfo m = None ↔
     ∀ step, step ∈ scenarioC → creates step = None ∧ writes step = None) ∧
    (Message.undoInfo m ≠ None → Message.undoInfo m = Some (buildUndoInfo scenarioC)) ∧
    Message.showsUndoButton m = bool_decide (Message.undoInfo m ≠ None).
Proof.
  split; [reflexivity|]. split; [discriminate|].
  apply (undo_offered_iff_some_step_tracked Scripted.host planC
           (Scripted.init haltedScript) scenarioC); [reflexivity|discriminate].
Defined.

Lemma steps_executed_counts_witness :
  ChatResponse.steps planC = Some scenarioC ∧ scenarioC ≠ [] ∧
  let p := stepsExecuted Scripted.host scenarioC "m1" pendingState in
  ∃ older m ss calls,
    AppState.messages haltedRun = older ++ [m] ∧
    Message.steps m = Some ss ∧
    AppState.log haltedRun = [] ++ calls ∧
    StepsExecuted.step_count p = length ss ∧
    StepsExecuted.success_count p = countStatus Status.done ss ∧
    StepsExecuted.error_count p = countStatus Status.error ss ∧
    (StepsExecuted.error_count p ≤ 1)%nat ∧
    (StepsExecuted.success_count p + StepsExecuted.error_count p = length calls)%nat ∧
    (StepsExecuted.error_count p = 0%nat ↔
     StepsExecuted.success_count p = StepsExecuted.step_count p).
Proof.
  split; [reflexivity|]. split; [discriminate|].
  apply (steps_executed_counts Scripted.host planC (Scripted.init haltedScript) scenarioC);
    [reflexivity|discriminate].
Defined.

Lemma cards_show_error_text_only_witness :
  ChatResponse.steps planC = Some scenarioC ∧ scenarioC ≠ [] ∧
  ∃ older m ss,
    AppState.messages haltedRun = older ++ [m] ∧
    Message.steps m = Some ss ∧
    (∀ j s r, ss !! j = Some s → StepCard.result (StepCard.view s) = Some r →
       StepWithStatus._status s = Some Status.error ∧
       StepWithStatus._result s = Some r ∧
       startsWith r "Error" = true ∧
       StepCard.statusIcon (StepCard.view s) = StepCard.cross) ∧
    (∀ j s, ss !! j = Some s → StepWithStatus._status s = Some Status.error →
       StepCard.result (StepCard.view s) = StepWithStatus._result s ∧
       StepWithStatus._result s ≠ None) ∧
    (∀ j s, ss !! j = Some s → StepWithStatus._status s = Some Status.done →
       StepCard.result (StepCard.view s) = None ∧
       StepCard.statusIcon (StepCard.view s) = StepCard.check) ∧
    (∀ j j' s s', ss !! j = Some s → ss !! j' = Some s' →
       StepCard.result (StepCard.view s) ≠ None →
       StepCard.result (StepCard.view s') ≠ None → j = j').
Proof.
  split; [reflexivity|]. split; [discriminate|].
  apply (cards_show_error_text_only Scripted.host planC (Scripted.init haltedScript) scenarioC);
    [reflexivity|discriminate].
Defined.

Lemma respond_then_undo_witness :
  buildUndoInfo scenarioC ≠ UndoInfo.empty ∧
  (∀ m, m ∈ AppState.messages greetedState → Message.id m ≠ "m1") ∧
  let st1 := handleResponse Scripted.host planC greetedState in
  let pg1 := handleUndoClick Scripted.host "m1" (Page.mk st1 []) in
  let pg2 := resume Scripted.host 0 pg1 in
  let pg3 := resume Scripted.host 0 pg2 in
  AppState.log (Page.app pg1) = AppState.log st1 ++ [CallUndo "m1" (buildUndoInfo scenarioC)] ∧
  AppState.messages (Page.app pg1) = AppState.messages st1 ∧
  AppState.log (Page.app pg3) = AppState.log (Page.app pg1) ∧
  Page.suspended pg3 = [] ∧
  (∃ m new,
     AppState.messages st1 = AppState.messages greetedState ++ [m] ∧
     AppState.messages (Page.app pg2)
     = AppState.messages greetedState ++ [Message.setUndone m] ∧
     AppState.messages (Page.app pg3)
     = AppState.messages greetedState ++ [Message.setUndone m; new] ∧
     Message.role new = Role.assistant ∧
     Message.content new =
       "Undo complete: "
       +:+ (undoSheetActionsGAS Scripted.host (buildUndoInfo scenarioC)
              (AppState.world st1)).1 ∧
     Message.steps new = None ∧ Message.undoInfo new = None) ∧
  handleUndoClick Scripted.host "m1" pg2 = pg2 ∧
  handleUndoClick Scripted.host "m1" pg3 = pg3 ∧
  Page.app pg3 = handleUndo Scripted.host "m1" st1.
Proof.
  assert (∀ m, m ∈ AppState.messages greetedState → Message.id m ≠ "m1") as Hfresh.
  { intros m Hm. apply list_elem_of_singleton in Hm. subst m. discriminate. }
  split; [discriminate|]. split; [exact Hfresh|].
  apply (respond_then_undo Scripted.host planC greetedState scenarioC);
    [reflexivity|discriminate|discriminate|exact Hfresh].
Defined.

Lemma handleSend_trial_ended_witness :
  let backend := ScriptedChat.backend (Rejected (ApiError 402 "Payment Required")) None in
  let ui := ScriptedChat.ui haltedScript in
  let ui' := handleSend backend "sum column B" ui in
  AppState.messages (Ui.app ui') = [ScriptedChat.greeting] ∧
  AppState.log (Ui.app ui') = [] ∧
  Ui.trialExpired ui' = true ∧
  Ui.error ui' = Some trialEndedText ∧
  Ui.isLoading ui' = false ∧
  Ui.conversationId ui' = None ∧
  Ui.trialRefreshKey ui' = 1%nat.
Proof.
  apply (handleSend_trial_ended
           (ScriptedChat.backend (Rejected (ApiError 402 "Payment Required")) None)
           "sum column B" (ScriptedChat.ui haltedScript)).
  - intros req w. exists "Payment Required", w. reflexivity.
  - intros w m Hm. apply list_elem_of_singleton in Hm. subst m. discriminate.
Defined.

Lemma handleSend_request_failed_witness :
  let backend := ScriptedChat.backend (Rejected (ApiError 500 "Internal Server Error")) None in
  let ui := ScriptedChat.ui haltedScript in
  let ui' := handleSend backend "sum column B" ui in
  (∃ uuid,
     AppState.messages (Ui.app ui') =
     [ScriptedChat.greeting] ++ [Message.mk uuid Role.user "sum column B" None None None]) ∧
  AppState.log (Ui.app ui') = [] ∧
  Ui.error ui' = Some "Internal Server Error" ∧
  Ui.trialExpired ui' = false ∧
  Ui.conversationId ui' = None ∧
  Ui.isLoading ui' = false.
Proof.
  apply (handleSend_request_failed
           (ScriptedChat.backend (Rejected (ApiError 500 "Internal Server Error")) None)
           "sum column B" (ScriptedChat.ui haltedScript)
           (ApiError 500 "Internal Server Error")).
  - intros req w. exists w. reflexivity.
  - intros message. discriminate.
Defined.

Lemma handleSend_answered_witness :
  let backend := ScriptedChat.backend (Sent ScriptedChat.answer) None in
  let ui := ScriptedChat.ui haltedScript in
  let ui' := handleSend backend "build a report" ui in
  (∃ uuid w,
     Ui.app ui' =
     handleResponse Scripted.host planC
       (AppState.mk
          ([ScriptedChat.greeting]
           ++ [Message.mk uuid Role.user "build a report" None None None]) w [])) ∧
  (∃ older user assistant,
     AppState.messages (Ui.app ui') = older ++ [user; assistant] ∧
     length older = 1%nat ∧
     Message.role user = Role.user ∧ Message.content user = "build a report" ∧
     Message.role assistant = Role.assistant ∧
     Message.id assistant = "m1") ∧
  Ui.conversationId ui' = Some "conv-1" ∧
  Ui.error ui' = None ∧
  Ui.isLoading ui' = false.
Proof.
  apply (handleSend_answered (ScriptedChat.backend (Sent ScriptedChat.answer) None)
           "build a report" (ScriptedChat.ui haltedScript) ScriptedChat.answer).
  intros req w. exists w. reflexivity.
Defined.

Lemma input_history_round_trip_witness :
  ∃ entry,
    InputArea.commandHistory draftBox !! 1%nat = Some entry ∧
    (∃ s1, InputArea.run id (replicate 3 (false, InputArea.KeyDown InputArea.ArrowUp)) draftBox
           = Some (s1, []) ∧
           InputArea.message s1 = entry ∧
           InputArea.commandHistory s1 = InputArea.commandHistory draftBox) ∧
    (∃ s2, InputArea.run id
             (replicate 3 (false, InputArea.KeyDown InputArea.ArrowUp)
              ++ replicate 3 (false, InputArea.KeyDown InputArea.ArrowDown)) draftBox
           = Some (s2, []) ∧
           InputArea.message s2 = InputArea.message draftBox ∧
           InputArea.historyIndex s2 = (-1)%Z ∧
           InputArea.commandHistory s2 = InputArea.commandHistory draftBox).
Proof.
  apply (input_history_round_trip id false false 3 draftBox);
    [discriminate|reflexivity|lia].
Defined.
End ConcreteMore.
